(** * crud-webdev: the form engine (useForm), the record validator
      (UserService) and the user store (UserContext) as Rocq functions.

    The JavaScript values the three modules exchange are embedded as a data
    type, strings as sequences of UTF-16 code units, objects as ordered
    property lists.  React state is threaded explicitly: a state setter
    becomes a function on the state record, a [dispatch] becomes one reducer
    step followed by the effects whose dependencies changed. *)

From Stdlib Require Import DecimalString.
From Stdlib Require Import List String Ascii ZArith NArith Bool Lia.
Import ListNotations.

Set Implicit Arguments.
Set Warnings "-register-all".

(* ===================================================================== *)
(** ** JavaScript values *)
(* ===================================================================== *)

Module Js.

(** A JavaScript string is a sequence of 16-bit code units. *)
Definition jschar := N.
Definition jsstring := list jschar.

(** The literals of the sources are read from this file's UTF-8 text.
    Every literal in the sources lies in the Basic Multilingual Plane, so
    one- to three-byte sequences are all that is decoded. *)
Fixpoint decode_utf8 (bs : list N) : jsstring :=
  match bs with
  | [] => []
  | b0 :: t0 =>
    if (b0 <? 128)%N then b0 :: decode_utf8 t0
    else match t0 with
    | [] => []
    | b1 :: t1 =>
      if (b0 <? 224)%N
      then ((b0 mod 32) * 64 + b1 mod 64)%N :: decode_utf8 t1
      else match t1 with
      | [] => []
      | b2 :: t2 =>
        ((b0 mod 16) * 4096 + (b1 mod 64) * 64 + b2 mod 64)%N
          :: decode_utf8 t2
      end
    end
  end.

Definition js (s : string) : jsstring :=
  decode_utf8 (map N_of_ascii (list_ascii_of_string s)).

Definition jschar_eqb : jschar -> jschar -> bool := N.eqb.

Fixpoint jsstring_eqb (a b : jsstring) : bool :=
  match a, b with
  | [], [] => true
  | x :: a', y :: b' => jschar_eqb x y && jsstring_eqb a' b'
  | _, _ => false
  end.

(** [\d] of a regular expression without the unicode flag: [0-9]. *)
Definition is_digit (c : jschar) : bool := ((48 <=? c) && (c <=? 57))%N.

(** [\s], and the characters [String.prototype.trim] removes: WhiteSpace
    and LineTerminator of ECMAScript. *)
Definition is_ws (c : jschar) : bool :=
  ((9 <=? c) && (c <=? 13) || (c =? 32) || (c =? 160) || (c =? 5760)
   || (8192 <=? c) && (c <=? 8202) || (c =? 8232) || (c =? 8233)
   || (c =? 8239) || (c =? 8287) || (c =? 12288) || (c =? 65279))%N.

Fixpoint trimStart (s : jsstring) : jsstring :=
  match s with
  | c :: s' => if is_ws c then trimStart s' else s
  | [] => []
  end.

Definition trim (s : jsstring) : jsstring :=
  List.rev (trimStart (List.rev (trimStart s))).

(** What every object literal inherits from [Object.prototype]: eleven
    functions, and under [__proto__] an accessor whose value is
    [Object.prototype] itself. *)
Inductive builtin : Type :=
| F_constructor
| F_hasOwnProperty
| F_isPrototypeOf
| F_propertyIsEnumerable
| F_toLocaleString
| F_toString
| F_valueOf
| F_defineGetter
| F_defineSetter
| F_lookupGetter
| F_lookupSetter
| O_prototype.

Scheme Equality for builtin.

(** Values.  [VNum] carries the integral numbers; objects keep their own
    enumerable string-keyed properties in insertion order; [VBuiltin] is
    what a property read finds on [Object.prototype]. *)
Inductive value : Type :=
| VUndef
| VNull
| VBool (b : bool)
| VNum (z : Z)
| VStr (s : jsstring)
| VArr (l : list value)
| VObj (o : list (jsstring * value))
| VBuiltin (b : builtin).

Definition jsobj := list (jsstring * value).

(** ToBoolean. *)
Definition truthy (v : value) : bool :=
  match v with
  | VUndef | VNull => false
  | VBool b => b
  | VNum z => negb (z =? 0)%Z
  | VStr s => match s with [] => false | _ => true end
  | VArr _ | VObj _ | VBuiltin _ => true
  end.

(** [typeof v === 'string'] *)
Definition is_string (v : value) : bool :=
  match v with VStr _ => true | _ => false end.

(** The property names of [Object.prototype]. *)
Definition builtin_name (b : builtin) : jsstring :=
  match b with
  | F_constructor => js "constructor"
  | F_hasOwnProperty => js "hasOwnProperty"
  | F_isPrototypeOf => js "isPrototypeOf"
  | F_propertyIsEnumerable => js "propertyIsEnumerable"
  | F_toLocaleString => js "toLocaleString"
  | F_toString => js "toString"
  | F_valueOf => js "valueOf"
  | F_defineGetter => js "__defineGetter__"
  | F_defineSetter => js "__defineSetter__"
  | F_lookupGetter => js "__lookupGetter__"
  | F_lookupSetter => js "__lookupSetter__"
  | O_prototype => js "__proto__"
  end.

Definition builtins : list builtin :=
  [ F_constructor; F_hasOwnProperty; F_isPrototypeOf;
    F_propertyIsEnumerable; F_toLocaleString; F_toString; F_valueOf;
    F_defineGetter; F_defineSetter; F_lookupGetter; F_lookupSetter;
    O_prototype ].

(** [Object.prototype[k]] *)
Definition prototype (k : jsstring) : value :=
  match find (fun b => jsstring_eqb k (builtin_name b)) builtins with
  | Some b => VBuiltin b
  | None => VUndef
  end.

(** [k in Object.prototype] *)
Definition inherited (k : jsstring) : bool :=
  existsb (fun b => jsstring_eqb k (builtin_name b)) builtins.

(** [f.length] of a built-in function, the number of its parameters;
    [Object.prototype] has no [length]. *)
Definition builtin_length (b : builtin) : value :=
  match b with
  | F_constructor | F_hasOwnProperty | F_isPrototypeOf
  | F_propertyIsEnumerable | F_lookupGetter | F_lookupSetter => VNum 1
  | F_toLocaleString | F_toString | F_valueOf => VNum 0
  | F_defineGetter | F_defineSetter => VNum 2
  | O_prototype => VUndef
  end.

(** [o[k]] on an object built by a literal or a spread: its own property
    when it has one, what [Object.prototype] provides otherwise, and
    [undefined] when neither has it.  Array indices among the property
    names (which JavaScript enumerates first) are not modelled, nor is a
    prototype other than [Object.prototype]. *)
Fixpoint get (k : jsstring) (o : jsobj) : value :=
  match o with
  | [] => prototype k
  | (k', v) :: o' => if jsstring_eqb k k' then v else get k o'
  end.

(** [Object.hasOwn(o, k)] *)
Definition has_own (k : jsstring) (o : jsobj) : bool :=
  existsb (fun kv => jsstring_eqb k (fst kv)) o.

(** [{ ...o, [k]: v }]: an existing property keeps its place, a new one
    goes last.  A computed name defines an own property whatever the
    name. *)
Fixpoint set (k : jsstring) (v : value) (o : jsobj) : jsobj :=
  match o with
  | [] => [(k, v)]
  | (k', v') :: o' =>
    if jsstring_eqb k k' then (k', v) :: o' else (k', v') :: set k v o'
  end.

(** [o[k] = v] on an object built locally.  Under a name the object does
    not have, the assignment reaches the setter of [__proto__] on
    [Object.prototype]: it defines no property (and, given an object,
    would replace the prototype). *)
Definition assign (k : jsstring) (v : value) (o : jsobj) : jsobj :=
  if jsstring_eqb k (js "__proto__") && negb (has_own k o)
  then o
  else set k v o.

(** [Object.keys(o)] *)
Definition keys (A : Type) (o : list (jsstring * A)) : list jsstring :=
  map fst o.

(** [a === b].  Object identity is not tracked: two arrays or two
    objects compare unequal, as two distinct references do; what
    [Object.prototype] provides under a name is one object. *)
Definition strict_eq (a b : value) : bool :=
  match a, b with
  | VUndef, VUndef => true
  | VNull, VNull => true
  | VBool x, VBool y => Bool.eqb x y
  | VNum x, VNum y => (x =? y)%Z
  | VStr x, VStr y => jsstring_eqb x y
  | VBuiltin x, VBuiltin y => builtin_beq x y
  | _, _ => false
  end.

(** [s.join(sep)] on strings. *)
Fixpoint join (sep : jsstring) (l : list jsstring) : jsstring :=
  match l with
  | [] => []
  | [x] => x
  | x :: l' => x ++ sep ++ join sep l'
  end.

(** Decimal digits of an integral number. *)
Definition num_to_string (z : Z) : jsstring :=
  js (NilZero.string_of_int (Z.to_int z)).

(** The name of a built-in function: [Object.prototype.constructor] is
    [Object]. *)
Definition function_name (b : builtin) : jsstring :=
  match b with
  | F_constructor => js "Object"
  | _ => builtin_name b
  end.

(** ToString.  An object prints as [Object.prototype.toString] prints
    it: a [toString] or [valueOf] of its own is not looked for.  The text
    of a built-in function is written as V8 prints it; every engine's text
    has the words [native code], and so white space, in it. *)
Fixpoint to_string (v : value) : jsstring :=
  match v with
  | VUndef => js "undefined"
  | VNull => js "null"
  | VBool true => js "true"
  | VBool false => js "false"
  | VNum z => num_to_string z
  | VStr s => s
  | VArr l =>
    join (js ",")
      (map (fun x => match x with
                     | VUndef | VNull => []
                     | _ => to_string x
                     end) l)
  | VObj _ => js "[object Object]"
  | VBuiltin O_prototype => js "[object Object]"
  | VBuiltin b => js "function " ++ function_name b ++ js "() { [native code] }"
  end.

(** [s.startsWith(p)] *)
Fixpoint startsWith (p s : jsstring) : bool :=
  match p, s with
  | [], _ => true
  | x :: p', y :: s' => jschar_eqb x y && startsWith p' s'
  | _ :: _, [] => false
  end.

(** [s.includes(sub)] *)
Fixpoint includes (sub s : jsstring) {struct s} : bool :=
  startsWith sub s
  || match s with
     | [] => false
     | _ :: s' => includes sub s'
     end.

(** What a call can do besides returning: throw.  [Error m] is
    [new Error(m)]; [TypeError] is the engine's own error for calling a
    property that is not a function. *)
Inductive exn : Type :=
| Error (message : jsstring)
| TypeError.

Inductive res (A : Type) : Type :=
| Ok (a : A)
| Throw (e : exn).
Arguments Throw {A} e.

Definition bind (A B : Type) (c : res A) (k : A -> res B) : res B :=
  match c with
  | Ok a => k a
  | Throw e => Throw e
  end.

End Js.

Import Js.

Notation "x <- c ;; k" := (Js.bind c (fun x => k))
  (at level 61, c at next level, right associativity).

(* ===================================================================== *)
(** ** Regular expressions *)
(* ===================================================================== *)

(** The patterns of the sources are anchored at both ends and use only
    character classes, concatenation, [?], [+] and [{n}]; [test] on such a
    pattern is a match of the whole string. *)
Module Regex.

Inductive regex : Type :=
| Nul
| Eps
| Cls (p : jschar -> bool)
| Cat (r1 r2 : regex)
| Alt (r1 r2 : regex)
| Star (r : regex).

Definition Chr (c : jschar) : regex := Cls (jschar_eqb c).
Definition Plus (r : regex) : regex := Cat r (Star r).
Definition Opt (r : regex) : regex := Alt r Eps.

Fixpoint Rep (n : nat) (r : regex) : regex :=
  match n with
  | O => Eps
  | S n' => Cat r (Rep n' r)
  end.

Fixpoint Lit (s : jsstring) : regex :=
  match s with
  | [] => Eps
  | c :: s' => Cat (Chr c) (Lit s')
  end.

Fixpoint nullable (r : regex) : bool :=
  match r with
  | Nul => false
  | Eps => true
  | Cls _ => false
  | Cat r1 r2 => nullable r1 && nullable r2
  | Alt r1 r2 => nullable r1 || nullable r2
  | Star _ => true
  end.

Fixpoint deriv (c : jschar) (r : regex) : regex :=
  match r with
  | Nul => Nul
  | Eps => Nul
  | Cls p => if p c then Eps else Nul
  | Cat r1 r2 =>
    if nullable r1
    then Alt (Cat (deriv c r1) r2) (deriv c r2)
    else Cat (deriv c r1) r2
  | Alt r1 r2 => Alt (deriv c r1) (deriv c r2)
  | Star r1 => Cat (deriv c r1) (Star r1)
  end.

(** [/^r$/.test(s)] *)
Fixpoint test (r : regex) (s : jsstring) : bool :=
  match s with
  | [] => nullable r
  | c :: s' => test (deriv c r) s'
  end.

(** [s.replace(/[p]/g, '')]: every character of the class removed. *)
Definition remove_all (p : jschar -> bool) (s : jsstring) : jsstring :=
  filter (fun c => negb (p c)) s.

(** [\D] *)
Definition not_digit (c : jschar) : bool := negb (is_digit c).

End Regex.

Import Regex.

(* ===================================================================== *)
(** ** JSON.stringify and localStorage *)
(* ===================================================================== *)

Module JSON.

Definition hex_digit (n : N) : jschar :=
  if (n <? 10)%N then (48 + n)%N else (87 + n)%N.

(** [\uXXXX] with lower-case hexadecimal digits. *)
Definition u_escape (c : jschar) : jsstring :=
  [92; 117; hex_digit (c / 4096); hex_digit ((c / 256) mod 16);
   hex_digit ((c / 16) mod 16); hex_digit (c mod 16)]%N.

Definition is_high_surrogate (c : jschar) : bool :=
  ((55296 <=? c) && (c <=? 56319))%N.
Definition is_low_surrogate (c : jschar) : bool :=
  ((56320 <=? c) && (c <=? 57343))%N.

(** QuoteJSONString without the enclosing quotes. *)
Fixpoint quote_body (s : jsstring) : jsstring :=
  match s with
  | [] => []
  | c :: s' =>
    if (c =? 8)%N then js "\b" ++ quote_body s'
    else if (c =? 9)%N then js "\t" ++ quote_body s'
    else if (c =? 10)%N then js "\n" ++ quote_body s'
    else if (c =? 12)%N then js "\f" ++ quote_body s'
    else if (c =? 13)%N then js "\r" ++ quote_body s'
    else if (c =? 34)%N then [92; 34]%N ++ quote_body s'
    else if (c =? 92)%N then [92; 92]%N ++ quote_body s'
    else if (c <? 32)%N then u_escape c ++ quote_body s'
    else if is_high_surrogate c then
      match s' with
      | d :: s'' =>
        if is_low_surrogate d then c :: d :: quote_body s''
        else u_escape c ++ quote_body s'
      | [] => u_escape c
      end
    else if is_low_surrogate c then u_escape c ++ quote_body s'
    else c :: quote_body s'
  end.

Definition quote (s : jsstring) : jsstring :=
  [34%N] ++ quote_body s ++ [34%N].

(** [JSON.stringify(v)]; [None] is the [undefined] it returns for
    [undefined] and for a function.  In an array these print as [null], in
    an object the property is left out.  A method [toJSON] is not looked
    for. *)
Fixpoint stringify (v : value) : option jsstring :=
  match v with
  | VUndef => None
  | VNull => Some (js "null")
  | VBool true => Some (js "true")
  | VBool false => Some (js "false")
  | VNum z => Some (num_to_string z)
  | VStr s => Some (quote s)
  | VArr l =>
    Some (js "[" ++
          join (js ",")
            (map (fun x => match stringify x with
                           | Some t => t
                           | None => js "null"
                           end) l)
          ++ js "]")
  | VObj o =>
    Some (js "{" ++
          join (js ",")
            (flat_map (fun kv => match kv with
                                 | (k, x) =>
                                   match stringify x with
                                   | Some t => [quote k ++ js ":" ++ t]
                                   | None => []
                                   end
                                 end) o)
          ++ js "}")
  | VBuiltin O_prototype => Some (js "{}")
  | VBuiltin _ => None
  end.

End JSON.

Module LocalStorage.

(** The storage area: string keys, string values. *)
Definition storage := list (jsstring * jsstring).

Fixpoint getItem (k : jsstring) (ls : storage) : option jsstring :=
  match ls with
  | [] => None
  | (k', v) :: ls' => if jsstring_eqb k k' then Some v else getItem k ls'
  end.

Fixpoint setItem (k v : jsstring) (ls : storage) : storage :=
  match ls with
  | [] => [(k, v)]
  | (k', v') :: ls' =>
    if jsstring_eqb k k' then (k', v) :: ls' else (k', v') :: setItem k v ls'
  end.

End LocalStorage.

(* ===================================================================== *)
(** ** UserService: record-level validation *)
(* ===================================================================== *)

Module UserService.

(** [v?.trim()]: [undefined] on a nullish receiver, the trimmed string on
    a string, a [TypeError] on anything else (no [trim] to call). *)
Definition optional_trim (v : value) : res value :=
  match v with
  | VUndef | VNull => Ok VUndef
  | VStr s => Ok (VStr (trim s))
  | _ => Throw TypeError
  end.

(** [v?.length] *)
Definition optional_length (v : value) : value :=
  match v with
  | VStr s => VNum (Z.of_nat (List.length s))
  | VArr l => VNum (Z.of_nat (List.length l))
  | VObj o => get (js "length") o
  | VBuiltin b => builtin_length b
  | _ => VUndef
  end.

(** [[^\s@]] *)
Definition not_ws_at (c : jschar) : bool :=
  negb (is_ws c || jschar_eqb c 64%N).

(** [/^[^\s@]+@[^\s@]+\.[^\s@]+$/] *)
Definition emailRegex : regex :=
  Cat (Plus (Cls not_ws_at))
    (Cat (Chr 64%N)
       (Cat (Plus (Cls not_ws_at))
          (Cat (Chr 46%N) (Plus (Cls not_ws_at))))).

Definition isValidEmail (email : value) : bool :=
  test emailRegex (to_string email).

(** [/^(\+351)?[0-9]{9}$/] *)
Definition phoneRegex : regex :=
  Cat (Opt (Lit (js "+351"))) (Rep 9 (Cls is_digit)).

(** [phoneRegex.test(phone.replace(/\s/g, ''))]; [replace] exists on
    strings only. *)
Definition isValidPhone (phone : value) : res bool :=
  match phone with
  | VStr s => Ok (test phoneRegex (remove_all is_ws s))
  | _ => Throw TypeError
  end.

Record validation : Type := {
  isValid : bool;
  errors : jsobj
}.

Definition validateUser (userData : jsobj) : res validation :=
  let errors0 : jsobj := [] in
  name <- optional_trim (get (js "name") userData) ;;
  let errors1 :=
    if negb (truthy name)
    then set (js "name") (VStr (js "Nome é obrigatório")) errors0
    else errors0 in
  email <- optional_trim (get (js "email") userData) ;;
  let errors2 :=
    if negb (truthy email)
    then set (js "email") (VStr (js "Email é obrigatório")) errors1
    else if negb (isValidEmail (get (js "email") userData))
    then set (js "email") (VStr (js "Email deve ter formato válido")) errors1
    else errors1 in
  phone <- optional_trim (get (js "phone") userData) ;;
  errors3 <-
    (if negb (truthy phone)
     then Ok (set (js "phone") (VStr (js "Telefone é obrigatório")) errors2)
     else
       ok <- isValidPhone (get (js "phone") userData) ;;
       Ok (if negb ok
           then set (js "phone")
                  (VStr (js "Telefone deve ter formato válido")) errors2
           else errors2)) ;;
  let errors4 :=
    if negb (truthy (optional_length (get (js "userTypes") userData)))
    then set (js "userTypes")
           (VStr (js "Selecione pelo menos um tipo de utilizador")) errors3
    else errors3 in
  Ok {| isValid := Nat.eqb (List.length (keys errors4)) 0;
        errors := errors4 |}.


(** [formatPhone(phone)]; [slice] with these bounds is [firstn]/[skipn]. *)
Definition formatPhone (phone : value) : res value :=
  match phone with
  | VStr s =>
    let cleaned := remove_all not_digit s in
    if startsWith (js "351") cleaned
    then
      let number := skipn 3 cleaned in
      Ok (VStr (js "+351 " ++ firstn 3 number ++ js " "
                ++ firstn 3 (skipn 3 number) ++ js " " ++ skipn 6 number))
    else Ok phone
  | _ => Throw TypeError
  end.

End UserService.

(* ===================================================================== *)
(** ** UserContext: the reducer, its persistence effect, the actions *)
(* ===================================================================== *)

Module UserContext.

Import LocalStorage.

Record state : Type := {
  users : list jsobj;
  loading : bool;
  error : value;
  currentUser : value
}.

(** [new Date('2025-10-03').toISOString()] *)
Definition seed_date : jsstring := js "2025-10-03T00:00:00.000Z".

Definition initialState : state :=
  {| users :=
       [ [ (js "id", VStr (js "1"));
           (js "name", VStr (js "Augusto Chagas"));
           (js "userTypes",
            VArr [VStr (js "Web Developer"); VStr (js "UI/UX Designer")]);
           (js "email", VStr (js "augusto.chagas@crud.com"));
           (js "password", VStr (js "••••••••"));
           (js "phone", VStr (js "+351 916 534 613"));
           (js "createdAt", VStr seed_date) ];
         [ (js "id", VStr (js "2"));
           (js "name", VStr (js "João Silva"));
           (js "userTypes", VArr [VStr (js "Project Manager")]);
           (js "email", VStr (js "joao.silva@crud.com"));
           (js "password", VStr (js "••••••••"));
           (js "phone", VStr (js "+351 934 123 456"));
           (js "createdAt", VStr seed_date) ] ];
     loading := false;
     error := VNull;
     currentUser := VNull |}.

(** [USER_ACTIONS] with their payloads. *)
Inductive action : Type :=
| SET_USERS (payload : list jsobj)
| ADD_USER (payload : jsobj)
| UPDATE_USER (payload : jsobj)
| DELETE_USER (payload : jsstring)
| SET_CURRENT_USER (payload : value)
| SET_LOADING (payload : bool)
| SET_ERROR (payload : value)
| CLEAR_ERROR.

Definition userReducer (s : state) (a : action) : state :=
  match a with
  | SET_USERS payload =>
    {| users := payload; loading := false;
       error := error s; currentUser := currentUser s |}
  | ADD_USER payload =>
    {| users := users s ++ [payload]; loading := false;
       error := VNull; currentUser := currentUser s |}
  | UPDATE_USER payload =>
    {| users :=
         map (fun u =>
                if strict_eq (get (js "id") u) (get (js "id") payload)
                then payload else u) (users s);
       loading := false; error := VNull; currentUser := VNull |}
  | DELETE_USER payload =>
    {| users :=
         filter (fun u => negb (strict_eq (get (js "id") u) (VStr payload)))
           (users s);
       loading := false; error := VNull; currentUser := currentUser s |}
  | SET_CURRENT_USER payload =>
    {| users := users s; loading := loading s;
       error := error s; currentUser := payload |}
  | SET_LOADING payload =>
    {| users := users s; loading := payload;
       error := error s; currentUser := currentUser s |}
  | SET_ERROR payload =>
    {| users := users s; loading := false;
       error := payload; currentUser := currentUser s |}
  | CLEAR_ERROR =>
    {| users := users s; loading := loading s;
       error := VNull; currentUser := currentUser s |}
  end.

(** [JSON.stringify(state.users)] *)
Definition stringify_users (us : list jsobj) : jsstring :=
  match JSON.stringify (VArr (map VObj us)) with
  | Some t => t
  | None => js "undefined"
  end.

(** The second effect of [UserProvider], the one with dependency
    [[state.users]]. *)
Definition save_users (us : list jsobj) (ls : storage) : storage :=
  if (0 <? List.length us)%nat
  then setItem (js "crud-users") (stringify_users us) ls
  else ls.

(** The reducer cases that build a new [users] array.  The others spread
    the old state and keep the same array, so the effect above does not
    run after them. *)
Definition assigns_users (a : action) : bool :=
  match a with
  | SET_USERS _ | ADD_USER _ | UPDATE_USER _ | DELETE_USER _ => true
  | _ => false
  end.

(** The provider between two events: the reducer state and the storage
    area. *)
Record provider : Type := {
  st : state;
  localStorage : storage
}.

(** One [dispatch] handled on its own: the reducer step, the render, and
    the effects whose dependency changed. *)
Definition dispatch (a : action) (p : provider) : provider :=
  let s' := userReducer (st p) a in
  {| st := s';
     localStorage :=
       if assigns_users a
       then save_users (users s') (localStorage p)
       else localStorage p |}.

(** The provider once mounted over a storage area without the slot: the
    loading effect finds nothing, the saving effect writes the seed. *)
Definition mount_empty : provider :=
  {| st := initialState;
     localStorage := save_users (users initialState) [] |}.

(** How a call of an action ends. *)
Inductive completion : Type :=
| Returned
| Threw (e : exn).

(** [actions.addUser(userData)]; [newId] is what [UserService.generateId()]
    returns and [now] what [new Date().toISOString()] returns at the call. *)
Definition addUser (newId now : jsstring) (userData : jsobj) (p : provider)
  : provider * completion :=
  match UserService.validateUser userData with
  | Throw e => (p, Threw e)
  | Ok validation =>
    if negb (UserService.isValid validation)
    then (dispatch (SET_ERROR (VObj (UserService.errors validation))) p,
          Threw (Error (js "Validation failed")))
    else
      let newUser :=
        set (js "createdAt") (VStr now)
          (set (js "id") (VStr newId) userData) in
      (dispatch (ADD_USER newUser) p, Returned)
  end.

(** [actions.updateUser(id, userData)] *)
Definition updateUser (now : jsstring) (id : jsstring) (userData : jsobj)
    (p : provider) : provider * completion :=
  match UserService.validateUser userData with
  | Throw e => (p, Threw e)
  | Ok validation =>
    if negb (UserService.isValid validation)
    then (dispatch (SET_ERROR (VObj (UserService.errors validation))) p,
          Threw (Error (js "Validation failed")))
    else
      let updatedUser :=
        set (js "updatedAt") (VStr now)
          (set (js "id") (VStr id) userData) in
      (dispatch (UPDATE_USER updatedUser) p, Returned)
  end.

(** [actions.deleteUser(id)] *)
Definition deleteUser (id : jsstring) (p : provider)
  : provider * completion :=
  (dispatch (DELETE_USER id) p, Returned).


Section Mount.

(** [JSON.parse] is the platform's and stays a parameter: the array of
    records a slot parses to, or the [SyntaxError] thrown. *)
Variable JSON_parse : jsstring -> res (list jsobj).

(** The provider once mounted over a storage area, with what went to
    [console.error].  The loading effect reads the slot and, when it
    parses, dispatches [SET_USERS]; the saving effect of the same pass
    writes the seed; the dispatch is handled after both. *)
Definition mount (ls : storage) : provider * list exn :=
  let first_pass :=
    {| st := initialState;
       localStorage := save_users (users initialState) ls |} in
  match getItem (js "crud-users") ls with
  | None => (first_pass, [])
  | Some savedUsers =>
    if truthy (VStr savedUsers)
    then match JSON_parse savedUsers with
         | Ok parsed => (dispatch (SET_USERS parsed) first_pass, [])
         | Throw e => (first_pass, [e])
         end
    else (first_pass, [])
  end.

End Mount.

(** [actions.setCurrentUser], [actions.clearCurrentUser],
    [actions.clearError] *)
Definition setCurrentUser (user : value) (p : provider) : provider :=
  dispatch (SET_CURRENT_USER user) p.

Definition clearCurrentUser (p : provider) : provider :=
  dispatch (SET_CURRENT_USER VNull) p.

Definition clearError (p : provider) : provider :=
  dispatch CLEAR_ERROR p.

End UserContext.

(* ===================================================================== *)
(** ** useForm: the form engine *)
(* ===================================================================== *)

Module UseForm.

(** A rule receives [(value, allValues)] and returns [null] or a message;
    like every call it may also throw. *)
Definition rule := value -> jsobj -> res value.

(** The four [useState] cells of the hook. *)
Record form : Type := {
  values : jsobj;
  errors : jsobj;
  touched : jsobj;
  isSubmitting : bool
}.

Definition setValues (f : jsobj -> jsobj) (s : form) : form :=
  {| values := f (values s); errors := errors s;
     touched := touched s; isSubmitting := isSubmitting s |}.

Definition setErrors (f : jsobj -> jsobj) (s : form) : form :=
  {| values := values s; errors := f (errors s);
     touched := touched s; isSubmitting := isSubmitting s |}.

Definition setTouched (f : jsobj -> jsobj) (s : form) : form :=
  {| values := values s; errors := errors s;
     touched := f (touched s); isSubmitting := isSubmitting s |}.

Definition setIsSubmitting (b : bool) (s : form) : form :=
  {| values := values s; errors := errors s;
     touched := touched s; isSubmitting := b |}.

(** What [getFieldProps] returns, without the two handlers. *)
Module FieldProps.
Record t : Type := {
  name : jsstring;
  value : Js.value;
  error : Js.value
}.
End FieldProps.

(** What a submit handler does that is visible from outside, in order. *)
Inductive event : Type :=
| PreventDefault
| SetTouched (t : jsobj)
| SetErrors (e : jsobj)
| SetIsSubmitting (b : bool)
| OnSubmit (vals : jsobj)
| ConsoleError (e : exn).

(** How a promise stands when nothing more will happen to it. *)
Inductive settled : Type :=
| Fulfilled
| Rejected (e : exn)
| Pending.

(** A submit callback: it receives the values, may call the setters of the
    form (as [resetForm] does), and its promise is fulfilled, rejected (a
    synchronous throw included) or left pending. *)
Definition callback := jsobj -> form -> form * settled.

Record run : Type := {
  final : form;
  log : list event;
  outcome : settled
}.

Section Hook.

Variable initialValues : jsobj.
Variable validationRules : list (jsstring * list rule).

Definition init : form :=
  {| values := initialValues; errors := []; touched := [];
     isSubmitting := false |}.

(** [validationRules[name]] where the mapping has the name: the array of
    rules it holds.  Where it has not, the read gives [prototype name]:
    [undefined], or a built-in that is truthy and that [for...of] cannot
    iterate. *)
Fixpoint rules_in (o : list (jsstring * list rule)) (name : jsstring)
  : option (list rule) :=
  match o with
  | [] => None
  | (k, rules) :: o' =>
    if jsstring_eqb name k then Some rules else rules_in o' name
  end.

Definition rules_of (name : jsstring) : option (list rule) :=
  rules_in validationRules name.

Definition setValue (name : jsstring) (v : value) (s : form) : form :=
  let s1 := setValues (set name v) s in
  if truthy (get name (errors s))
  then setErrors (set name VNull) s1
  else s1.

(** The loop shared by [validateField] and [validateForm]: the first
    truthy result of the rules in order, [null] when there is none. *)
Fixpoint first_error (rules : list rule) (v : value) (vals : jsobj)
  : res value :=
  match rules with
  | [] => Ok VNull
  | r :: rules' =>
    error <- r v vals ;;
    if truthy error then Ok error else first_error rules' v vals
  end.

(** Without an entry of the mapping, [rules] is [prototype name]: falsy,
    or a built-in the loop cannot iterate. *)
Definition validateField (name : jsstring) (v : value) (s : form)
  : form * res value :=
  match rules_of name with
  | None =>
    if negb (truthy (prototype name)) then (s, Ok VNull)
    else (s, Throw TypeError)
  | Some rules =>
    match first_error rules v (values s) with
    | Throw e => (s, Throw e)
    | Ok error => (setErrors (set name error) s, Ok error)
    end
  end.

Definition handleBlur (name : jsstring) (s : form) : form * res unit :=
  let s1 := setTouched (set name (VBool true)) s in
  let validated :=
    match validateField name (get name (values s)) s1 with
    | (s2, Throw e) => (s2, Throw e)
    | (s2, Ok _) => (s2, Ok tt)
    end in
  match rules_of name with
  | None => if truthy (prototype name) then validated else (s1, Ok tt)
  | Some _ => validated
  end.

(** The [forEach] of [validateForm]. *)
Fixpoint validate_fields (names : list jsstring) (vals : jsobj)
    (newErrors : jsobj) (isValid : bool) : res (jsobj * bool) :=
  match names with
  | [] => Ok (newErrors, isValid)
  | fieldName :: names' =>
    match rules_of fieldName with
    | None => Throw TypeError
    | Some rules =>
      error <- first_error rules (get fieldName vals) vals ;;
      if truthy error
      then validate_fields names' vals (assign fieldName error newErrors)
             false
      else validate_fields names' vals newErrors isValid
    end
  end.

Definition validateForm (s : form) : form * res (jsobj * bool) :=
  match validate_fields (keys validationRules) (values s) [] true with
  | Throw e => (s, Throw e)
  | Ok (newErrors, isValid) =>
    (setErrors (fun _ => newErrors) s, Ok (newErrors, isValid))
  end.

Definition resetForm (s : form) : form :=
  setIsSubmitting false
    (setTouched (fun _ => [])
       (setErrors (fun _ => []) (setValues (fun _ => initialValues) s))).

(** The [reduce] of the handler: every field with rules, marked. *)
Definition allTouched : jsobj :=
  fold_left (fun acc key => assign key (VBool true) acc)
    (keys validationRules) [].

(** The handler [handleSubmit(onSubmit)] returns, run on one submit
    event; [outcome] is the state of the promise the handler returns. *)
Definition handleSubmit (onSubmit : callback) (s : form) : run :=
  let s1 := setTouched (fun _ => allTouched) s in
  let log1 := [PreventDefault; SetTouched allTouched] in
  match validateForm s1 with
  | (s2, Throw e) => {| final := s2; log := log1; outcome := Rejected e |}
  | (s2, Ok (newErrors, isValid)) =>
    let log2 := log1 ++ [SetErrors newErrors] in
    if negb isValid
    then {| final := s2; log := log2; outcome := Fulfilled |}
    else
      let s3 := setIsSubmitting true s2 in
      let log3 := log2 ++ [SetIsSubmitting true; OnSubmit (values s)] in
      match onSubmit (values s) s3 with
      | (s4, Fulfilled) =>
        {| final := setIsSubmitting false s4;
           log := log3 ++ [SetIsSubmitting false];
           outcome := Fulfilled |}
      | (s4, Rejected e) =>
        {| final := setIsSubmitting false s4;
           log := log3 ++ [ConsoleError e; SetIsSubmitting false];
           outcome := Fulfilled |}
      | (s4, Pending) =>
        {| final := s4; log := log3; outcome := Pending |}
      end
  end.

Definition getFieldProps (name : jsstring) (s : form) : FieldProps.t :=
  {| FieldProps.name := name;
     FieldProps.value :=
       if truthy (get name (values s)) then get name (values s)
       else VStr [];
     FieldProps.error :=
       if truthy (get name (touched s)) then get name (errors s)
       else VNull |}.

(** [e.target] of a change event. *)
Record target : Type := {
  target_name : jsstring;
  target_value : jsstring;
  target_type : jsstring;
  target_checked : bool
}.

Definition handleChange (e : target) (s : form) : form :=
  setValue (target_name e)
    (if jsstring_eqb (target_type e) (js "checkbox")
     then VBool (target_checked e)
     else VStr (target_value e)) s.

(** [Object.values(errors).some(error => error !== null)] *)
Definition hasErrors (s : form) : bool :=
  existsb (fun kv => negb (strict_eq (snd kv) VNull)) (errors s).

(** [Object.keys(validationRules).length === 0 ||
     Object.keys(validationRules).every(key => !errors[key])] *)
Definition isValid (s : form) : bool :=
  Nat.eqb (List.length (keys validationRules)) 0
  || forallb (fun key => negb (truthy (get key (errors s))))
       (keys validationRules).

End Hook.

(** The exported [validationRules]. *)
Module ValidationRules.

Definition required : rule := fun v _ =>
  if negb (truthy v)
     || (is_string v
         && negb (truthy (match v with
                          | VStr s => VStr (trim s)
                          | _ => VUndef
                          end)))
  then Ok (VStr (js "Este campo é obrigatório"))
  else Ok VNull.

Definition email : rule := fun v _ =>
  if negb (truthy v) then Ok VNull
  else if test UserService.emailRegex (to_string v) then Ok VNull
  else Ok (VStr (js "Email inválido")).

(** [[\d\s\-\+\(\)]] *)
Definition phone_char (c : jschar) : bool :=
  is_digit c || is_ws c || jschar_eqb c 45%N || jschar_eqb c 43%N
  || jschar_eqb c 40%N || jschar_eqb c 41%N.

(** [/^[\d\s\-\+\(\)]+$/] *)
Definition phoneRegex : regex := Plus (Cls phone_char).

(** [value.replace] exists on strings only. *)
Definition phone : rule := fun v _ =>
  if negb (truthy v) then Ok VNull
  else match v with
  | VStr s =>
    let cleanPhone := remove_all not_digit s in
    if (10 <=? List.length cleanPhone)%nat && test phoneRegex s
    then Ok VNull
    else Ok (VStr (js "Telefone inválido"))
  | _ => Throw TypeError
  end.

End ValidationRules.

End UseForm.

(* ===================================================================== *)
(** ** UserPage and UsersListPage: what the pages compute *)
(* ===================================================================== *)

Module UserPage.

Import UseForm.

(** [formValidationRules] *)
Definition formValidationRules : list (jsstring * list rule) :=
  [ (js "name", [ValidationRules.required]);
    (js "email", [ValidationRules.required; ValidationRules.email]);
    (js "phone", [ValidationRules.required; ValidationRules.phone]) ].

(** [v || fallback] *)
Definition or_else (v fallback : value) : value :=
  if truthy v then v else fallback.

(** [initialValues], from [currentUser] ([None] in creation mode, where
    [currentUser?.field] is [undefined]). *)
Definition initialValues (currentUser : option jsobj) : jsobj :=
  let field k :=
    match currentUser with
    | Some u => get k u
    | None => VUndef
    end in
  [ (js "name", or_else (field (js "name")) (VStr []));
    (js "userTypes", or_else (field (js "userTypes")) (VArr []));
    (js "email", or_else (field (js "email")) (VStr []));
    (js "password", or_else (field (js "password")) (VStr []));
    (js "phone", or_else (field (js "phone")) (VStr [])) ].

(** [[...s]] on a string: one element per code point. *)
Fixpoint spread_string (s : jsstring) : list value :=
  match s with
  | [] => []
  | c :: s' =>
    if JSON.is_high_surrogate c
    then match s' with
         | d :: s'' =>
           if JSON.is_low_surrogate d
           then VStr [c; d] :: spread_string s''
           else VStr [c] :: spread_string s'
         | [] => [VStr [c]]
         end
    else VStr [c] :: spread_string s'
  end.

(** [handleUserTypeChange(type)], [type] a string of [USER_TYPES].  On an
    array [includes] and [!==] compare with the string; a string value has
    [includes] but no [filter]; other truthy values have neither. *)
Definition handleUserTypeChange (type : jsstring) (s : form)
  : form * res unit :=
  match or_else (get (js "userTypes") (values s)) (VArr []) with
  | VArr currentTypes =>
    let newTypes :=
      if existsb (fun t => strict_eq t (VStr type)) currentTypes
      then filter (fun t => negb (strict_eq t (VStr type))) currentTypes
      else currentTypes ++ [VStr type] in
    (setValue (js "userTypes") (VArr newTypes) s, Ok tt)
  | VStr str =>
    if includes type str
    then (s, Throw TypeError)
    else (setValue (js "userTypes")
            (VArr (spread_string str ++ [VStr type])) s, Ok tt)
  | _ => (s, Throw TypeError)
  end.

End UserPage.

Module UsersListPage.

Section Search.

(** [String.prototype.toLowerCase] is the platform's and stays a
    parameter. *)
Variable toLowerCase : jsstring -> jsstring.

(** [v?.toLowerCase().includes(searchTerm.toLowerCase())] *)
Definition field_matches (v : value) (searchTerm : jsstring) : res value :=
  match v with
  | VUndef | VNull => Ok VUndef
  | VStr s => Ok (VBool (includes (toLowerCase searchTerm) (toLowerCase s)))
  | _ => Throw TypeError
  end.

(** The callback of [some]: [type.toLowerCase().includes(...)] *)
Definition type_matches (type : value) (searchTerm : jsstring) : res bool :=
  match type with
  | VStr s => Ok (includes (toLowerCase searchTerm) (toLowerCase s))
  | _ => Throw TypeError
  end.

(** [l.some(type => ...)]: stops at the first match. *)
Fixpoint some_type_matches (l : list value) (searchTerm : jsstring)
  : res bool :=
  match l with
  | [] => Ok false
  | type :: l' =>
    b <- type_matches type searchTerm ;;
    if b then Ok true else some_type_matches l' searchTerm
  end.

(** [user.userTypes?.some(...)] *)
Definition types_match (v : value) (searchTerm : jsstring) : res value :=
  match v with
  | VUndef | VNull => Ok VUndef
  | VArr l => b <- some_type_matches l searchTerm ;; Ok (VBool b)
  | _ => Throw TypeError
  end.

(** The predicate of the filter, [a || b || c]. *)
Definition user_matches (user : jsobj) (searchTerm : jsstring) : res bool :=
  a <- field_matches (get (js "name") user) searchTerm ;;
  if truthy a then Ok true
  else
    b <- field_matches (get (js "email") user) searchTerm ;;
    if truthy b then Ok true
    else
      c <- types_match (get (js "userTypes") user) searchTerm ;;
      Ok (truthy c).

(** [users.filter(user => ...)], the list the page shows. *)
Fixpoint filteredUsers (users : list jsobj) (searchTerm : jsstring)
  : res (list jsobj) :=
  match users with
  | [] => Ok []
  | user :: users' =>
    keep <- user_matches user searchTerm ;;
    rest <- filteredUsers users' searchTerm ;;
    Ok (if keep then user :: rest else rest)
  end.

End Search.

End UsersListPage.

(* ===================================================================== *)
(** ** Specification-side definitions *)
(* ===================================================================== *)

Module Spec.

(** The language of a regular expression, as a relation; [Regex.test]
    is proved to decide it. *)
Inductive lang : regex -> jsstring -> Prop :=
| lang_eps : lang Eps []
| lang_cls p c : p c = true -> lang (Cls p) [c]
| lang_cat r1 r2 s1 s2 :
    lang r1 s1 -> lang r2 s2 -> lang (Cat r1 r2) (s1 ++ s2)
| lang_alt_l r1 r2 s : lang r1 s -> lang (Alt r1 r2) s
| lang_alt_r r1 r2 s : lang r2 s -> lang (Alt r1 r2) s
| lang_star_nil r : lang (Star r) []
| lang_star_cons r s1 s2 :
    lang r s1 -> lang (Star r) s2 -> lang (Star r) (s1 ++ s2).

(** The Store's phone format in the words of the specification: with the
    space characters removed, an optional literal [+351] and then exactly
    nine decimal digits.  The space characters are those of the class
    [\s]. *)
Definition without_spaces (s : jsstring) : jsstring :=
  filter (fun c => negb (is_ws c)) s.

Definition strict_phone (s : jsstring) : Prop :=
  exists prefix digits : jsstring,
    without_spaces s = prefix ++ digits
    /\ (prefix = [] \/ prefix = js "+351")
    /\ List.length digits = 9%nat
    /\ Forall (fun c => is_digit c = true) digits.

(** The Form Engine's phone format in the words of the specification: at
    least ten digits once everything but digits is removed, and nothing
    but digits, white space, hyphen, plus and parentheses in the raw
    value. *)
Definition loose_phone (s : jsstring) : Prop :=
  (10 <= List.length (filter is_digit s))%nat
  /\ Forall (fun c => is_digit c = true \/ is_ws c = true
                      \/ c = 45%N \/ c = 43%N \/ c = 40%N \/ c = 41%N) s.

(** A field is in [touched] when [touched] has the name and holds a
    truthy mark under it. *)
Definition is_touched (name : jsstring) (s : UseForm.form) : bool :=
  has_own name (UseForm.touched s) && truthy (get name (UseForm.touched s)).


Definition passes (r : UseForm.rule) (v : value) (vals : jsobj) : Prop :=
  exists m, r v vals = Ok m /\ truthy m = false.

(** A record whose text fields hold strings when they hold anything; on
    such a record [validateUser] calls nothing that is missing. *)
Definition string_or_nullish (v : value) : Prop :=
  match v with
  | VUndef | VNull | VStr _ => True
  | _ => False
  end.

Definition text_fields_typed (userData : jsobj) : Prop :=
  string_or_nullish (get (js "name") userData)
  /\ string_or_nullish (get (js "email") userData)
  /\ string_or_nullish (get (js "phone") userData).

(** An entry of a field-error mapping: a field with its message. *)
Definition message_entry (kv : jsstring * value) : Prop :=
  exists m, snd kv = VStr m /\ m <> [].

(** [create] raises an error from which the field-error mapping of the
    rejected record can be read. *)
Definition create_carries_mapping : Prop :=
  exists mapping_of : exn -> jsobj,
    forall (newId now : jsstring) (userData : jsobj)
           (p : UserContext.provider) (v : UserService.validation),
      UserService.validateUser userData = Ok v ->
      UserService.isValid v = false ->
      exists e,
        snd (UserContext.addUser newId now userData p) = UserContext.Threw e
        /\ mapping_of e = UserService.errors v.

(** No record of the collection has the given id. *)
Definition no_match (id : jsstring) (us : list jsobj) : Prop :=
  forall u, In u us -> strict_eq (get (js "id") u) (VStr id) = false.

(** The durable slot holds the serialization of the collection. *)
Definition slot_in_sync (p : UserContext.provider) : Prop :=
  LocalStorage.getItem (js "crud-users") (UserContext.localStorage p)
  = Some (UserContext.stringify_users (UserContext.users (UserContext.st p))).

End Spec.

(** Records and environment values the statements below are run on. *)
Module Sample.

(** The record of the creation scenario. *)
Definition validData : jsobj :=
  [ (js "name", VStr (js "Ana"));
    (js "email", VStr (js "ana@x.com"));
    (js "phone", VStr (js "+351911222333"));
    (js "userTypes", VArr [VStr (js "Architect")]) ].

(** The record of the four-error scenario. *)
Definition invalidData : jsobj :=
  [ (js "name", VStr (js ""));
    (js "email", VStr (js "bad"));
    (js "phone", VStr (js "123"));
    (js "userTypes", VArr []) ].

(** [validData] without a name. *)
Definition namelessData : jsobj := set (js "name") (VStr []) validData.

(** [validData] with nothing selected. *)
Definition untypedData : jsobj := set (js "userTypes") (VArr []) validData.

Definition anId : jsstring := js "mhg1x2abcde".
Definition aDate : jsstring := js "2025-12-04T10:00:00.000Z".

End Sample.

(** What the further properties below are stated with. *)
Module Props.

(** Nothing but white space, the empty string included. *)
Definition blank (s : jsstring) : bool := forallb is_ws s.

(** One of the three parts of an address: not empty, and neither white
    space nor [@] in it. *)
Definition email_part (l : jsstring) : Prop :=
  l <> [] /\ Forall (fun c => is_ws c = false /\ c <> 64%N) l.

(** [local@domain.tld] *)
Definition email_shape (s : jsstring) : Prop :=
  exists l d t : jsstring,
    s = l ++ 64%N :: d ++ 46%N :: t
    /\ email_part l /\ email_part d /\ email_part t.

(** A text field that holds a string with something in it. *)
Definition text_present (v : value) : Prop :=
  exists s, v = VStr s /\ blank s = false.

(** What passes for a selection of user types: anything with a truthy
    [length]. *)
Definition has_types (v : value) : Prop :=
  match v with
  | VArr l => l <> []
  | VStr s => s <> []
  | VObj o => truthy (get (js "length") o) = true
  | VBuiltin b => truthy (builtin_length b) = true
  | _ => False
  end.

(** The records [validateUser] accepts. *)
Definition acceptable (userData : jsobj) : Prop :=
  text_present (get (js "name") userData)
  /\ (exists s, get (js "email") userData = VStr s /\ email_shape s)
  /\ (exists s, get (js "phone") userData = VStr s /\ Spec.strict_phone s)
  /\ has_types (get (js "userTypes") userData).

(** Three decimal digits. *)
Definition digit_group (g : jsstring) : Prop :=
  List.length g = 3%nat /\ Forall (fun c => is_digit c = true) g.

(** The ids of a collection, in order. *)
Definition ids (us : list jsobj) : list value :=
  map (get (js "id")) us.

(** A run of dispatches, each handled on its own. *)
Definition run_actions (acts : list UserContext.action)
    (p : UserContext.provider) : UserContext.provider :=
  fold_left (fun q a => UserContext.dispatch a q) acts p.

(** A record the search can read: a name and an email that are strings
    when they are there, and user types that are an array of strings. *)
Definition searchable (u : jsobj) : Prop :=
  Spec.string_or_nullish (get (js "name") u)
  /\ Spec.string_or_nullish (get (js "email") u)
  /\ match get (js "userTypes") u with
     | VUndef | VNull => True
     | VArr l => Forall (fun t => is_string t = true) l
     | _ => False
     end.

(** The term occurs in a text, letter case apart. *)
Definition occurs_in (lower : jsstring -> jsstring) (term text : jsstring)
  : Prop :=
  exists a b : jsstring, lower text = a ++ lower term ++ b.

(** The term occurs in the name, the email or one of the user types. *)
Definition mentions (lower : jsstring -> jsstring) (term : jsstring)
    (u : jsobj) : Prop :=
  (exists n, get (js "name") u = VStr n /\ occurs_in lower term n)
  \/ (exists m, get (js "email") u = VStr m /\ occurs_in lower term m)
  \/ (exists l t, get (js "userTypes") u = VArr l
                  /\ In (VStr t) l /\ occurs_in lower term t).

(** The recorded errors are in order: one entry per field, each [null] or
    a truthy message, and a message on a field with rules only. *)
Definition errors_in_order (rules : list (jsstring * list UseForm.rule))
    (e : jsobj) : Prop :=
  NoDup (keys e)
  /\ Forall (fun kv => snd kv = VNull
                       \/ (truthy (snd kv) = true
                           /\ In (fst kv) (keys rules))) e.

(** What a view does with the hook between two renders.  A submit is
    given a callback that resets the form or leaves it, and settles. *)
Inductive form_op : Type :=
| DoSetValue (name : jsstring) (v : value)
| DoChange (e : UseForm.target)
| DoBlur (name : jsstring)
| DoValidateField (name : jsstring) (v : value)
| DoValidateForm
| DoReset
| DoSubmit (reset : bool) (o : UseForm.settled).

Definition run_form_op (initialValues : jsobj)
    (rules : list (jsstring * list UseForm.rule)) (o : form_op)
    (s : UseForm.form) : UseForm.form :=
  match o with
  | DoSetValue name v => UseForm.setValue name v s
  | DoChange e => UseForm.handleChange e s
  | DoBlur name => fst (UseForm.handleBlur rules name s)
  | DoValidateField name v => fst (UseForm.validateField rules name v s)
  | DoValidateForm => fst (UseForm.validateForm rules s)
  | DoReset => UseForm.resetForm initialValues s
  | DoSubmit reset o' =>
    UseForm.final
      (UseForm.handleSubmit rules
         (fun _ f =>
            (if reset then UseForm.resetForm initialValues f else f, o'))
         s)
  end.

Definition run_form_ops (initialValues : jsobj)
    (rules : list (jsstring * list UseForm.rule)) (ops : list form_op)
  : UseForm.form :=
  fold_left (fun s o => run_form_op initialValues rules o s) ops
    (UseForm.init initialValues).

End Props.

(* ===================================================================== *)
(** ** Strings and objects *)
(* ===================================================================== *)

Section JsFacts.

Lemma jsstring_eqb_refl (a : jsstring) : jsstring_eqb a a = true.
Proof.
  induction a as [|c a IH]; simpl; [reflexivity|].
  unfold jschar_eqb. now rewrite N.eqb_refl.
Qed.

Lemma jsstring_eqb_eq (a b : jsstring) : jsstring_eqb a b = true <-> a = b.
Proof.
  split.
  - revert b. induction a as [|x a IH]; intros [|y b] H; simpl in H;
      try discriminate; [reflexivity|].
    apply andb_true_iff in H. destruct H as [Hc Hs].
    apply N.eqb_eq in Hc. apply IH in Hs. now subst.
  - intros ->. apply jsstring_eqb_refl.
Qed.

Lemma jsstring_eqb_neq (a b : jsstring) : jsstring_eqb a b = false <-> a <> b.
Proof.
  split.
  - intros H E. apply jsstring_eqb_eq in E. congruence.
  - intros H. destruct (jsstring_eqb a b) eqn:E; [|reflexivity].
    apply jsstring_eqb_eq in E. contradiction.
Qed.

Lemma get_set_same (k : jsstring) (v : value) (o : jsobj) :
  get k (set k v o) = v.
Proof.
  induction o as [|[k' v'] o IH]; simpl.
  - now rewrite jsstring_eqb_refl.
  - destruct (jsstring_eqb k k') eqn:E; simpl; rewrite E; auto.
Qed.

Lemma get_set_other (k k' : jsstring) (v : value) (o : jsobj) :
  k <> k' -> get k (set k' v o) = get k o.
Proof.
  intros Hne. induction o as [|[k0 v0] o IH]; simpl.
  - apply jsstring_eqb_neq in Hne. now rewrite Hne.
  - destruct (jsstring_eqb k' k0) eqn:E; simpl.
    + apply jsstring_eqb_eq in E. subst k0.
      apply jsstring_eqb_neq in Hne. now rewrite Hne.
    + now rewrite IH.
Qed.

Lemma keys_set (k k' : jsstring) (v : value) (o : jsobj) :
  In k (keys (set k' v o)) <-> k = k' \/ In k (keys o).
Proof.
  unfold keys. induction o as [|[k0 v0] o IH]; simpl.
  - intuition.
  - destruct (jsstring_eqb k' k0) eqn:E; simpl.
    + apply jsstring_eqb_eq in E. subst k0. intuition.
    + rewrite IH. intuition.
Qed.

(** A name is inherited exactly when [Object.prototype] holds something
    truthy under it. *)
Lemma prototype_truthy (k : jsstring) : truthy (prototype k) = inherited k.
Proof.
  unfold prototype, inherited.
  induction builtins as [|b l IH]; simpl; [reflexivity|].
  destruct (jsstring_eqb k (builtin_name b)); [reflexivity|exact IH].
Qed.

Lemma prototype_plain (k : jsstring) :
  inherited k = false -> prototype k = VUndef.
Proof.
  unfold prototype, inherited.
  induction builtins as [|b l IH]; simpl; [reflexivity|].
  destruct (jsstring_eqb k (builtin_name b)); [discriminate|exact IH].
Qed.

Lemma has_own_keys (k : jsstring) (o : jsobj) :
  has_own k o = true <-> In k (keys o).
Proof.
  unfold has_own, keys. induction o as [|[k0 v0] o IH]; simpl.
  - split; [discriminate|intros []].
  - rewrite orb_true_iff, IH, jsstring_eqb_eq. intuition.
Qed.

Lemma get_absent (k : jsstring) (o : jsobj) :
  has_own k o = false -> get k o = prototype k.
Proof.
  unfold has_own. induction o as [|[k0 v0] o IH]; simpl; [reflexivity|].
  intros H. apply orb_false_iff in H. destruct H as [E H].
  rewrite E. now apply IH.
Qed.

Lemma has_own_set (k k' : jsstring) (v : value) (o : jsobj) :
  has_own k (set k' v o) = jsstring_eqb k k' || has_own k o.
Proof.
  unfold has_own. induction o as [|[k0 v0] o IH]; simpl.
  - reflexivity.
  - destruct (jsstring_eqb k' k0) eqn:E; simpl.
    + apply jsstring_eqb_eq in E. subst k0.
      now destruct (jsstring_eqb k k').
    + rewrite IH. destruct (jsstring_eqb k k'), (jsstring_eqb k k0);
        reflexivity.
Qed.

Lemma filter_filter (A : Type) (f : A -> bool) (l : list A) :
  filter f (filter f l) = filter f l.
Proof.
  induction l as [|x l IH]; simpl; [reflexivity|].
  destruct (f x) eqn:E; simpl; [rewrite E|]; now rewrite ?IH.
Qed.

Lemma filter_id (A : Type) (f : A -> bool) (l : list A) :
  (forall x, In x l -> f x = true) -> filter f l = l.
Proof.
  induction l as [|x l IH]; simpl; intros H; [reflexivity|].
  rewrite (H x (or_introl eq_refl)). f_equal. apply IH. auto.
Qed.

Lemma filter_refine (A : Type) (f g : A -> bool) (l : list A) :
  (forall x, f x = true -> g x = true) ->
  filter f (filter g l) = filter f l.
Proof.
  intros Hfg. induction l as [|x l IH]; simpl; [reflexivity|].
  destruct (g x) eqn:Eg; simpl.
  - destruct (f x); now rewrite IH.
  - destruct (f x) eqn:Ef; [|assumption].
    apply Hfg in Ef. congruence.
Qed.

End JsFacts.

(* ===================================================================== *)
(** ** The record validator *)
(* ===================================================================== *)

(** Runs [validateUser] symbolically: one case per way through its tests. *)
Ltac validate_cases H :=
  unfold UserService.validateUser in H;
  repeat (cbv beta iota zeta delta [Js.bind negb] in H;
          match type of H with
          | context [UserService.optional_trim ?x] =>
            destruct (UserService.optional_trim x) eqn:?
          | context [UserService.isValidPhone ?x] =>
            destruct (UserService.isValidPhone x) as [[|]|] eqn:?
          | context [UserService.isValidEmail ?x] =>
            destruct (UserService.isValidEmail x) eqn:?
          | context [truthy ?x] => destruct (truthy x) eqn:?
          end);
  cbv beta iota zeta delta [Js.bind negb] in H;
  try discriminate H.

Section ValidatorFacts.

Import UserService Spec.

Lemma message_entry_intro (m : jsstring) :
  m <> [] -> forall k0 : jsstring, message_entry (k0, VStr m).
Proof. intros H k0. exists m. split; [reflexivity|assumption]. Qed.

Lemma validateUser_errors_shape (userData : jsobj) (v : validation) :
  validateUser userData = Ok v ->
  NoDup (keys (errors v)) /\ Forall message_entry (errors v).
Proof.
  intros H. validate_cases H;
    injection H as <-; cbn [errors]; split.
  all: try (unfold keys; simpl map;
            repeat (apply NoDup_cons;
                    [vm_compute; intuition discriminate|]);
            apply NoDup_nil).
  all: repeat (apply Forall_cons;
               [apply message_entry_intro; vm_compute; discriminate|]);
       apply Forall_nil.
Qed.

Lemma validateUser_isValid (userData : jsobj) (v : validation) :
  validateUser userData = Ok v ->
  (isValid v = false <-> errors v <> []).
Proof.
  intros H.
  assert (E : isValid v = Nat.eqb (List.length (keys (errors v))) 0).
  { validate_cases H; injection H as <-; reflexivity. }
  rewrite E. unfold keys. destruct (errors v); simpl; split;
    congruence.
Qed.

(** [validateUser] returns on every record whose text fields are typed. *)
Lemma validateUser_returns (userData : jsobj) :
  text_fields_typed userData -> exists v, validateUser userData = Ok v.
Proof.
  intros (Hn & He & Hp). unfold validateUser.
  destruct (get (js "name") userData); try contradiction;
    destruct (get (js "email") userData); try contradiction;
    destruct (get (js "phone") userData) as [| | | |ph| | |];
    try contradiction;
    cbn [optional_trim Js.bind truthy negb];
    try destruct (trim ph);
    cbn [optional_trim Js.bind truthy negb isValidPhone];
    repeat match goal with
           | |- context [if ?c then _ else _] => destruct c
           end;
    eexists; reflexivity.
Qed.

End ValidatorFacts.

(* ===================================================================== *)
(** ** The user store *)
(* ===================================================================== *)

Section StoreFacts.

Import UserService UserContext LocalStorage Spec.

Lemma getItem_setItem (k v : jsstring) (ls : storage) :
  getItem k (setItem k v ls) = Some v.
Proof.
  induction ls as [|[k' v'] ls IH]; simpl.
  - now rewrite jsstring_eqb_refl.
  - destruct (jsstring_eqb k k') eqn:E; simpl; rewrite E; auto.
Qed.

Lemma setItem_setItem (k v : jsstring) (ls : storage) :
  setItem k v (setItem k v ls) = setItem k v ls.
Proof.
  induction ls as [|[k' v'] ls IH]; simpl.
  - now rewrite jsstring_eqb_refl.
  - destruct (jsstring_eqb k k') eqn:E; simpl; rewrite E;
      [reflexivity|now rewrite IH].
Qed.

Lemma save_users_twice (us : list jsobj) (ls : storage) :
  save_users us (save_users us ls) = save_users us ls.
Proof.
  unfold save_users. destruct (0 <? List.length us)%nat;
    [apply setItem_setItem|reflexivity].
Qed.

(** After a step that assigns a non-empty collection the slot holds its
    serialization. *)
Lemma dispatch_in_sync (a : action) (p : provider) :
  assigns_users a = true ->
  users (st (dispatch a p)) <> [] ->
  slot_in_sync (dispatch a p).
Proof.
  intros Ha Hne. unfold slot_in_sync, dispatch in *. simpl in *.
  rewrite Ha. unfold save_users.
  destruct (users (userReducer (st p) a)) as [|u us] eqn:E;
    [contradiction|].
  simpl. apply getItem_setItem.
Qed.

(** After a step that leaves the collection empty the storage area is
    what it was. *)
Lemma dispatch_empty_storage (a : action) (p : provider) :
  users (st (dispatch a p)) = [] ->
  localStorage (dispatch a p) = localStorage p.
Proof.
  intros He. unfold dispatch in *. simpl in *.
  destruct (assigns_users a); [|reflexivity].
  now rewrite He.
Qed.

Lemma invalid_addUser (newId now : jsstring) (userData : jsobj)
    (p : provider) (v : validation) :
  validateUser userData = Ok v -> isValid v = false ->
  addUser newId now userData p
  = (dispatch (SET_ERROR (VObj (errors v))) p,
     Threw (Error (js "Validation failed"))).
Proof. intros Hv Hi. unfold addUser. now rewrite Hv, Hi. Qed.

Lemma invalid_updateUser (now id : jsstring) (userData : jsobj)
    (p : provider) (v : validation) :
  validateUser userData = Ok v -> isValid v = false ->
  updateUser now id userData p
  = (dispatch (SET_ERROR (VObj (errors v))) p,
     Threw (Error (js "Validation failed"))).
Proof. intros Hv Hi. unfold updateUser. now rewrite Hv, Hi. Qed.

Lemma valid_updateUser (now id : jsstring) (userData : jsobj)
    (p : provider) (v : validation) :
  validateUser userData = Ok v -> isValid v = true ->
  updateUser now id userData p
  = (dispatch
       (UPDATE_USER
          (set (js "updatedAt") (VStr now)
             (set (js "id") (VStr id) userData))) p,
     Returned).
Proof. intros Hv Hi. unfold updateUser. now rewrite Hv, Hi. Qed.

Lemma id_updatedAt_distinct : js "id" <> js "updatedAt".
Proof. vm_compute. discriminate. Qed.

Lemma nth_error_map_users (f : jsobj -> jsobj) (us : list jsobj) (i : nat)
    (u : jsobj) :
  nth_error us i = Some u -> nth_error (map f us) i = Some (f u).
Proof.
  revert i. induction us as [|x us IH]; intros [|i] H; simpl in *;
    try discriminate.
  - now injection H as ->.
  - now apply IH.
Qed.

Lemma map_no_match (id : jsstring) (r : jsobj) (us : list jsobj) :
  no_match id us ->
  map (fun u => if strict_eq (get (js "id") u) (VStr id) then r else u) us
  = us.
Proof.
  unfold no_match. induction us as [|u us IH]; simpl; intros H;
    [reflexivity|].
  rewrite (H u (or_introl eq_refl)). f_equal. apply IH. auto.
Qed.

Lemma filter_no_match (id : jsstring) (us : list jsobj) :
  no_match id us ->
  filter (fun u => negb (strict_eq (get (js "id") u) (VStr id))) us = us.
Proof.
  intros H. apply filter_id. intros u Hu. now rewrite (H u Hu).
Qed.

(** A create, update or delete that went through and left the collection
    non-empty leaves the slot holding its serialization. *)
Lemma mutation_in_sync (newId now id : jsstring) (userData : jsobj)
    (p : provider) (v : validation) :
  validateUser userData = Ok v -> isValid v = true ->
  slot_in_sync (fst (addUser newId now userData p))
  /\ (users (st (fst (updateUser now id userData p))) <> [] ->
      slot_in_sync (fst (updateUser now id userData p)))
  /\ (users (st (fst (deleteUser id p))) <> [] ->
      slot_in_sync (fst (deleteUser id p))).
Proof.
  intros Hv Hi. rewrite (valid_updateUser now id userData p Hv Hi).
  unfold addUser, deleteUser. rewrite Hv, Hi. cbn [negb fst].
  repeat split.
  - apply dispatch_in_sync; [reflexivity|].
    simpl. intros E. now apply app_eq_nil in E.
  - now apply dispatch_in_sync.
  - now apply dispatch_in_sync.
Qed.

(** C7.  Deleting twice with the same id leaves the store (collection,
    the other fields and the storage area) as deleting once does;
    [deleteUser] returns without throwing; and with no record of that id
    the collection is the one before the call. *)
Theorem C7_delete_idempotent :
  forall (id : jsstring) (p : provider),
    deleteUser id (fst (deleteUser id p)) = deleteUser id p
    /\ snd (deleteUser id p) = Returned
    /\ (no_match id (users (st p)) ->
        users (st (fst (deleteUser id p))) = users (st p)).
Proof.
  intros id p. unfold deleteUser, dispatch. simpl.
  repeat split.
  - rewrite filter_filter. now rewrite save_users_twice.
  - apply filter_no_match.
Qed.

(** C5.  With valid data, [updateUser] returns normally; the replacement
    record has the given id, the update timestamp and otherwise exactly
    the properties of the data (nothing of the old record survives, an id
    in the data is overridden); every position of the collection holds the
    replacement where the old record had that id and the old record
    elsewhere; with no record of that id the collection is unchanged. *)
Theorem C5_update_replaces_wholesale :
  forall (now id : jsstring) (userData : jsobj) (p : provider)
         (v : validation),
    validateUser userData = Ok v -> isValid v = true ->
    let updatedUser :=
      set (js "updatedAt") (VStr now) (set (js "id") (VStr id) userData) in
    let p' := fst (updateUser now id userData p) in
    snd (updateUser now id userData p) = Returned
    /\ get (js "id") updatedUser = VStr id
    /\ get (js "updatedAt") updatedUser = VStr now
    /\ (forall k, k <> js "id" -> k <> js "updatedAt" ->
        get k updatedUser = get k userData)
    /\ (forall k, In k (keys updatedUser) <->
                  k = js "updatedAt" \/ k = js "id" \/ In k (keys userData))
    /\ List.length (users (st p')) = List.length (users (st p))
    /\ (forall i u, nth_error (users (st p)) i = Some u ->
        nth_error (users (st p')) i
        = Some (if strict_eq (get (js "id") u) (VStr id)
                then updatedUser else u))
    /\ (no_match id (users (st p)) -> users (st p') = users (st p)).
Proof.
  intros now id userData p v Hv Hi updatedUser p'.
  assert (Hid : get (js "id") updatedUser = VStr id).
  { unfold updatedUser.
    rewrite get_set_other by apply id_updatedAt_distinct.
    apply get_set_same. }
  subst p'. rewrite (valid_updateUser now id userData p Hv Hi).
  fold updatedUser. cbn [fst snd].
  assert (Hus : users (st (dispatch (UPDATE_USER updatedUser) p))
                = map (fun u => if strict_eq (get (js "id") u) (VStr id)
                                then updatedUser else u) (users (st p))).
  { simpl. now rewrite Hid. }
  rewrite Hus.
  split; [reflexivity|]. split; [exact Hid|].
  split; [apply get_set_same|].
  split.
  { intros k Hk1 Hk2. unfold updatedUser.
    rewrite get_set_other by assumption.
    now rewrite get_set_other by assumption. }
  split.
  { intros k. unfold updatedUser. now rewrite !keys_set. }
  split; [apply length_map|].
  split.
  { intros i u Hu.
    apply (nth_error_map_users
             (fun u0 => if strict_eq (get (js "id") u0) (VStr id)
                        then updatedUser else u0) _ _ Hu). }
  apply map_no_match.
Qed.

End StoreFacts.

Section StoreClaims.

Import UserService UserContext LocalStorage Spec Sample.

(** Witness of C7: no seeded record has id [9], and deleting it changes
    nothing. *)
Lemma C7_delete_idempotent_witness :
  no_match (js "9") (users (st mount_empty))
  /\ users (st (fst (deleteUser (js "9") mount_empty)))
     = users (st mount_empty).
Proof.
  assert (H : no_match (js "9") (users (st mount_empty))).
  { intros u [<-|[<-|[]]]; vm_compute; reflexivity. }
  split; [exact H|].
  exact (proj2 (proj2 (C7_delete_idempotent (js "9") mount_empty)) H).
Defined.

(** Witness of C5: the seeded record [1] is replaced by the valid record,
    losing its password and creation date; record [2] stays. *)
Lemma C5_update_replaces_wholesale_witness :
  exists v,
    validateUser validData = Ok v /\ isValid v = true
    /\ nth_error (users (st (fst (updateUser aDate (js "1") validData
                                    mount_empty)))) 0
       = Some (set (js "updatedAt") (VStr aDate)
                 (set (js "id") (VStr (js "1")) validData))
    /\ nth_error (users (st (fst (updateUser aDate (js "1") validData
                                    mount_empty)))) 1
       = nth_error (users (st mount_empty)) 1.
Proof.
  exists {| isValid := true; errors := [] |}.
  assert (Hv : validateUser validData = Ok {| isValid := true; errors := [] |})
    by (vm_compute; reflexivity).
  split; [exact Hv|]. split; [reflexivity|].
  destruct (C5_update_replaces_wholesale aDate (js "1") validData
              mount_empty Hv eq_refl)
    as (_ & _ & _ & _ & _ & _ & Hnth & _).
  split.
  - exact (Hnth 0%nat _ eq_refl).
  - exact (Hnth 1%nat _ eq_refl).
Defined.

(** C1, at the input where the code departs from it.  From the mounted
    seed, deleting record [1] leaves the slot holding the serialization of
    the collection; deleting record [2] then empties the collection, the
    storage area is not written, and the slot still holds the one-record
    array. *)
Theorem C1_slot_stale_after_last_delete :
  let p1 := fst (deleteUser (js "1") mount_empty) in
  let p2 := fst (deleteUser (js "2") p1) in
  slot_in_sync mount_empty
  /\ slot_in_sync p1
  /\ users (st p2) = []
  /\ localStorage p2 = localStorage p1
  /\ getItem (js "crud-users") (localStorage p2)
     = Some (stringify_users (users (st p1)))
  /\ stringify_users (users (st p1)) <> stringify_users (users (st p2))
  /\ ~ slot_in_sync p2.
Proof.
  cbv zeta. unfold slot_in_sync.
  repeat split; try (vm_compute; reflexivity);
    vm_compute; discriminate.
Qed.

(** C9.  With a record that fails validation, [addUser] and [updateUser]
    both throw after writing the field-error mapping into the store's
    [error] field: the collection and the storage area are the ones before
    the call, the mapping is not empty, and a store whose [error] was
    [null] is a different store afterwards. *)
Theorem C9_failed_validation_sets_error :
  forall (newId now id : jsstring) (userData : jsobj) (p : provider)
         (v : validation),
    validateUser userData = Ok v -> isValid v = false ->
    let a := addUser newId now userData p in
    let u := updateUser now id userData p in
    snd a = Threw (Error (js "Validation failed"))
    /\ snd u = Threw (Error (js "Validation failed"))
    /\ error (st (fst a)) = VObj (errors v)
    /\ error (st (fst u)) = VObj (errors v)
    /\ errors v <> []
    /\ users (st (fst a)) = users (st p)
    /\ users (st (fst u)) = users (st p)
    /\ localStorage (fst a) = localStorage p
    /\ localStorage (fst u) = localStorage p
    /\ (error (st p) = VNull -> st (fst a) <> st p /\ st (fst u) <> st p).
Proof.
  intros newId now id userData p v Hv Hi a u. subst a u.
  rewrite (invalid_addUser newId now userData p Hv Hi).
  rewrite (invalid_updateUser now id userData p Hv Hi).
  simpl. repeat split; try reflexivity.
  - now apply (validateUser_isValid userData).
  - intros E. rewrite <- E in H. simpl in H. discriminate.
  - intros E. rewrite <- E in H. simpl in H. discriminate.
Qed.

Lemma C9_failed_validation_sets_error_witness :
  exists v,
    validateUser invalidData = Ok v /\ isValid v = false
    /\ error (st mount_empty) = VNull
    /\ error (st (fst (addUser anId aDate invalidData mount_empty)))
       = VObj (errors v)
    /\ error (st (fst (updateUser aDate (js "1") invalidData mount_empty)))
       = VObj (errors v).
Proof.
  destruct (validateUser invalidData) as [v|e] eqn:Hv;
    [|vm_compute in Hv; discriminate].
  exists v.
  assert (Hi : isValid v = false).
  { vm_compute in Hv. injection Hv as <-. reflexivity. }
  destruct (C9_failed_validation_sets_error anId aDate (js "1")
              invalidData mount_empty Hv Hi)
    as (_ & _ & Ha & Hu & _).
  repeat split; assumption || reflexivity.
Defined.

(** C2, as the code has it.  With a record that fails validation,
    [addUser] throws the plain [Error('Validation failed')]; the
    field-error mapping (distinct fields, each with one non-empty message)
    is not in the thrown error but in the store's [error] field; and the
    collection is the one before the call. *)
Theorem C2_create_invalid_throws_plain_error :
  forall (newId now : jsstring) (userData : jsobj) (p : provider)
         (v : validation),
    validateUser userData = Ok v -> isValid v = false ->
    snd (addUser newId now userData p)
    = Threw (Error (js "Validation failed"))
    /\ error (st (fst (addUser newId now userData p))) = VObj (errors v)
    /\ NoDup (keys (errors v))
    /\ Forall message_entry (errors v)
    /\ users (st (fst (addUser newId now userData p))) = users (st p).
Proof.
  intros newId now userData p v Hv Hi.
  rewrite (invalid_addUser newId now userData p Hv Hi). simpl.
  destruct (validateUser_errors_shape userData Hv) as [Hnd Hall].
  repeat split; assumption.
Qed.

Lemma C2_create_invalid_throws_plain_error_witness :
  exists v,
    validateUser invalidData = Ok v /\ isValid v = false
    /\ keys (errors v)
       = [js "name"; js "email"; js "phone"; js "userTypes"]
    /\ snd (addUser anId aDate invalidData mount_empty)
       = Threw (Error (js "Validation failed"))
    /\ users (st (fst (addUser anId aDate invalidData mount_empty)))
       = users (st mount_empty).
Proof.
  destruct (validateUser invalidData) as [v|e] eqn:Hv;
    [|vm_compute in Hv; discriminate].
  exists v.
  assert (Hi : isValid v = false).
  { vm_compute in Hv. injection Hv as <-. reflexivity. }
  assert (Hk : keys (errors v)
               = [js "name"; js "email"; js "phone"; js "userTypes"]).
  { vm_compute in Hv. injection Hv as <-. vm_compute. reflexivity. }
  destruct (C2_create_invalid_throws_plain_error anId aDate
              invalidData mount_empty Hv Hi)
    as (Ht & _ & _ & _ & Hu).
  repeat split; assumption || reflexivity.
Defined.

(** C2 as stated fails: two rejected records with different field-error
    mappings make [addUser] throw one and the same value, so no mapping
    can be read off the thrown error. *)
Lemma C2_thrown_error_carries_no_mapping :
  (exists v1 v2,
     validateUser invalidData = Ok v1 /\ isValid v1 = false
     /\ validateUser namelessData = Ok v2 /\ isValid v2 = false
     /\ errors v1 <> errors v2
     /\ snd (addUser anId aDate invalidData mount_empty)
        = Threw (Error (js "Validation failed"))
     /\ snd (addUser anId aDate namelessData mount_empty)
        = Threw (Error (js "Validation failed")))
  /\ ~ create_carries_mapping.
Proof.
  assert (H1 : validateUser invalidData
               = Ok {| isValid := false;
                       errors := [ (js "name", VStr (js "Nome é obrigatório"));
                                   (js "email",
                                    VStr (js "Email deve ter formato válido"));
                                   (js "phone",
                                    VStr (js "Telefone deve ter formato válido"));
                                   (js "userTypes",
                                    VStr (js "Selecione pelo menos um tipo de utilizador")) ] |})
    by (vm_compute; reflexivity).
  assert (H2 : validateUser namelessData
               = Ok {| isValid := false;
                       errors := [ (js "name",
                                    VStr (js "Nome é obrigatório")) ] |})
    by (vm_compute; reflexivity).
  split.
  - eexists. eexists.
    split; [exact H1|]. split; [reflexivity|].
    split; [exact H2|]. split; [reflexivity|].
    split; [vm_compute; discriminate|].
    split; vm_compute; reflexivity.
  - intros [mapping_of Hm].
    destruct (Hm anId aDate invalidData mount_empty _ H1 eq_refl)
      as (e1 & He1 & Hm1).
    destruct (Hm anId aDate namelessData mount_empty _ H2 eq_refl)
      as (e2 & He2 & Hm2).
    rewrite (invalid_addUser anId aDate invalidData mount_empty H1 eq_refl)
      in He1.
    rewrite (invalid_addUser anId aDate namelessData mount_empty H2 eq_refl)
      in He2.
    simpl in He1, He2. injection He1 as <-. injection He2 as <-.
    rewrite Hm1 in Hm2. vm_compute in Hm2. discriminate.
Qed.

End StoreClaims.

(* ===================================================================== *)
(** ** Regular expressions: [test] decides the language *)
(* ===================================================================== *)

Section RegexFacts.

Import Spec.

Lemma lang_Nul_iff (s : jsstring) : lang Nul s <-> False.
Proof. split; [intros H; inversion H|intros []]. Qed.

Lemma lang_Eps_iff (s : jsstring) : lang Eps s <-> s = [].
Proof. split; [intros H; now inversion H|intros ->; constructor]. Qed.

Lemma lang_Cls_iff (p : jschar -> bool) (s : jsstring) :
  lang (Cls p) s <-> exists c, s = [c] /\ p c = true.
Proof.
  split.
  - intros H. inversion H; subst. eauto.
  - intros (c & -> & Hc). now constructor.
Qed.

Lemma lang_Cat_iff (r1 r2 : regex) (s : jsstring) :
  lang (Cat r1 r2) s <->
  exists s1 s2, s = s1 ++ s2 /\ lang r1 s1 /\ lang r2 s2.
Proof.
  split.
  - intros H. inversion H; subst. eauto.
  - intros (s1 & s2 & -> & H1 & H2). now constructor.
Qed.

Lemma lang_Alt_iff (r1 r2 : regex) (s : jsstring) :
  lang (Alt r1 r2) s <-> lang r1 s \/ lang r2 s.
Proof.
  split.
  - intros H. inversion H; subst; auto.
  - intros [H|H]; [now apply lang_alt_l|now apply lang_alt_r].
Qed.

Lemma lang_Star_cons_inv (r : regex) (c : jschar) (s : jsstring) :
  lang (Star r) (c :: s) ->
  exists s1 s2, s = s1 ++ s2 /\ lang r (c :: s1) /\ lang (Star r) s2.
Proof.
  intros H. remember (Star r) as r0 eqn:Er. remember (c :: s) as s0 eqn:Es.
  revert c s Es.
  induction H as [| | | | | |r' s1 s2 H1 _ H2 IH2]; intros a t Es;
    try discriminate.
  injection Er as ->. destruct s1 as [|c1 s1]; simpl in Es.
  - now apply IH2.
  - injection Es as -> <-. eauto.
Qed.

Lemma nullable_lang (r : regex) : nullable r = true <-> lang r [].
Proof.
  induction r as [| |p|r1 IH1 r2 IH2|r1 IH1 r2 IH2|r IH]; simpl.
  - rewrite lang_Nul_iff. split; [discriminate|intros []].
  - rewrite lang_Eps_iff. tauto.
  - rewrite lang_Cls_iff. split; [discriminate|].
    intros (c & Hc & _). discriminate.
  - rewrite andb_true_iff, IH1, IH2, lang_Cat_iff. split.
    + intros [H1 H2]. now exists [], [].
    + intros (s1 & s2 & Hs & H1 & H2). symmetry in Hs.
      apply app_eq_nil in Hs. destruct Hs as [-> ->]. tauto.
  - rewrite orb_true_iff, IH1, IH2, lang_Alt_iff. tauto.
  - split; [constructor|reflexivity].
Qed.

Lemma deriv_lang (c : jschar) (r : regex) (s : jsstring) :
  lang (deriv c r) s <-> lang r (c :: s).
Proof.
  revert s.
  induction r as [| |p|r1 IH1 r2 IH2|r1 IH1 r2 IH2|r IH]; intros s; simpl.
  - rewrite !lang_Nul_iff. tauto.
  - rewrite lang_Nul_iff, lang_Eps_iff. split; [intros []|discriminate].
  - rewrite lang_Cls_iff. destruct (p c) eqn:Hp.
    + rewrite lang_Eps_iff. split.
      * intros ->. eauto.
      * intros (c' & Hc & _). now injection Hc.
    + rewrite lang_Nul_iff. split; [intros []|].
      intros (c' & Hc & Hp'). injection Hc as -> _. congruence.
  - assert (Hcat : lang (Cat (deriv c r1) r2) s <->
                   exists s1 s2, s = s1 ++ s2 /\ lang r1 (c :: s1)
                                 /\ lang r2 s2).
    { rewrite lang_Cat_iff. split; intros (s1 & s2 & Hs & H1 & H2);
        exists s1, s2; (split; [assumption|split; [|assumption]]);
        now apply IH1. }
    assert (Hgoal : lang (Cat r1 r2) (c :: s) <->
                    (nullable r1 = true /\ lang r2 (c :: s))
                    \/ lang (Cat (deriv c r1) r2) s).
    { rewrite Hcat, lang_Cat_iff, nullable_lang. split.
      - intros (s1 & s2 & Hs & H1 & H2). destruct s1 as [|c1 s1].
        + simpl in Hs. subst s2. auto.
        + injection Hs as -> ->. right. eauto.
      - intros [[H1 H2]|(s1 & s2 & -> & H1 & H2)].
        + now exists [], (c :: s).
        + now exists (c :: s1), s2. }
    rewrite Hgoal. destruct (nullable r1).
    + rewrite lang_Alt_iff, IH2. intuition.
    + intuition discriminate.
  - rewrite !lang_Alt_iff, IH1, IH2. tauto.
  - rewrite lang_Cat_iff. split.
    + intros (s1 & s2 & -> & H1 & H2). apply IH in H1.
      now apply (lang_star_cons H1 H2).
    + intros H. apply lang_Star_cons_inv in H.
      destruct H as (s1 & s2 & -> & H1 & H2).
      exists s1, s2. rewrite IH. auto.
Qed.

Lemma test_lang (r : regex) (s : jsstring) : test r s = true <-> lang r s.
Proof.
  revert r. induction s as [|c s IH]; intros r; simpl.
  - apply nullable_lang.
  - rewrite IH. apply deriv_lang.
Qed.

Lemma lang_Lit_iff (l s : jsstring) : lang (Lit l) s <-> s = l.
Proof.
  revert s. induction l as [|c l IH]; intros s; simpl.
  - apply lang_Eps_iff.
  - rewrite lang_Cat_iff. unfold Chr. split.
    + intros (s1 & s2 & -> & H1 & H2).
      apply lang_Cls_iff in H1. destruct H1 as (c' & -> & Hc).
      apply N.eqb_eq in Hc. apply IH in H2. now subst.
    + intros ->. exists [c], l. split; [reflexivity|]. split.
      * constructor. apply N.eqb_refl.
      * now apply IH.
Qed.

Lemma lang_Rep_Cls_iff (n : nat) (p : jschar -> bool) (s : jsstring) :
  lang (Rep n (Cls p)) s <->
  List.length s = n /\ Forall (fun c => p c = true) s.
Proof.
  revert s. induction n as [|n IH]; intros s; simpl.
  - rewrite lang_Eps_iff. split.
    + intros ->. split; [reflexivity|constructor].
    + intros [H _]. now apply length_zero_iff_nil.
  - rewrite lang_Cat_iff. split.
    + intros (s1 & s2 & -> & H1 & H2).
      apply lang_Cls_iff in H1. destruct H1 as (c & -> & Hc).
      apply IH in H2. destruct H2 as [Hl Hf]. simpl.
      split; [now rewrite Hl|now constructor].
    + intros [Hl Hf]. destruct s as [|c s]; [discriminate|].
      inversion Hf; subst. exists [c], s.
      split; [reflexivity|]. split; [now constructor|].
      apply IH. split; [now injection Hl|assumption].
Qed.

Lemma lang_Star_Cls_iff (p : jschar -> bool) (s : jsstring) :
  lang (Star (Cls p)) s <-> Forall (fun c => p c = true) s.
Proof.
  split.
  - intros H. remember (Star (Cls p)) as r eqn:Er.
    induction H as [| | | | | |r' s1 s2 H1 _ H2 IH2]; try discriminate.
    + constructor.
    + injection Er as ->. apply lang_Cls_iff in H1.
      destruct H1 as (c & -> & Hc). simpl. constructor; auto.
  - induction 1 as [|c s Hc _ IH]; [constructor|].
    apply (@lang_star_cons (Cls p) [c] s); [now constructor|assumption].
Qed.

Lemma lang_Plus_Cls_iff (p : jschar -> bool) (s : jsstring) :
  lang (Plus (Cls p)) s <-> s <> [] /\ Forall (fun c => p c = true) s.
Proof.
  unfold Plus. rewrite lang_Cat_iff. split.
  - intros (s1 & s2 & -> & H1 & H2).
    apply lang_Cls_iff in H1. destruct H1 as (c & -> & Hc).
    apply lang_Star_Cls_iff in H2. simpl.
    split; [discriminate|now constructor].
  - intros [Hne Hf]. destruct s as [|c s]; [contradiction|].
    inversion Hf; subst. exists [c], s.
    split; [reflexivity|]. split; [now constructor|].
    now apply lang_Star_Cls_iff.
Qed.

End RegexFacts.

(* ===================================================================== *)
(** ** The two phone formats *)
(* ===================================================================== *)

Section PhoneFacts.

Import UserService Spec.
Import UseForm.ValidationRules.

Ltac split_tests :=
  repeat (match goal with
          | |- context [(?a <=? ?b)%N] => destruct (N.leb_spec a b)
          | |- context [(?a =? ?b)%N] => destruct (N.eqb_spec a b)
          end; try lia; simpl).

Lemma digit_not_ws (c : jschar) : is_digit c = true -> is_ws c = false.
Proof.
  unfold is_digit, is_ws. intros H. apply andb_true_iff in H.
  destruct H as [H1 H2]. apply N.leb_le in H1, H2.
  split_tests; reflexivity.
Qed.

Lemma phone_char_iff (c : jschar) :
  phone_char c = true <->
  (is_digit c = true \/ is_ws c = true
   \/ c = 45%N \/ c = 43%N \/ c = 40%N \/ c = 41%N).
Proof.
  unfold phone_char, jschar_eqb.
  rewrite !orb_true_iff, !N.eqb_eq. tauto.
Qed.

Lemma remove_all_not_digit (s : jsstring) :
  remove_all not_digit s = filter is_digit s.
Proof.
  unfold remove_all, not_digit. apply filter_ext.
  intros c. apply negb_involutive.
Qed.

Lemma remove_all_ws (s : jsstring) : remove_all is_ws s = without_spaces s.
Proof. reflexivity. Qed.

Lemma digits_of_without_spaces (s : jsstring) :
  filter is_digit (without_spaces s) = filter is_digit s.
Proof.
  unfold without_spaces. apply filter_refine.
  intros c Hc. now rewrite (digit_not_ws c Hc).
Qed.

Lemma filter_all_digits (d : jsstring) :
  Forall (fun c => is_digit c = true) d -> filter is_digit d = d.
Proof.
  intros H. apply filter_id. now apply Forall_forall.
Qed.

(** The Store's test, in the words of the specification. *)
Lemma store_phone_test_iff (s : jsstring) :
  test UserService.phoneRegex (remove_all is_ws s) = true <->
  strict_phone s.
Proof.
  rewrite test_lang, remove_all_ws. unfold UserService.phoneRegex, Opt.
  rewrite lang_Cat_iff. unfold strict_phone.
  split; intros (s1 & s2 & Hs & H1 & H2); exists s1, s2.
  - split; [assumption|].
    rewrite lang_Alt_iff, lang_Lit_iff, lang_Eps_iff in H1.
    apply lang_Rep_Cls_iff in H2. tauto.
  - split; [assumption|].
    rewrite lang_Alt_iff, lang_Lit_iff, lang_Eps_iff, lang_Rep_Cls_iff.
    tauto.
Qed.

(** The Form Engine's rule, in the words of the specification. *)
Lemma form_phone_rule_iff (s : jsstring) (vals : jsobj) :
  phone (VStr s) vals = Ok VNull <-> s = [] \/ loose_phone s.
Proof.
  unfold phone, loose_phone.
  destruct s as [|c s]; [simpl; tauto|].
  cbn [truthy negb]. rewrite remove_all_not_digit.
  destruct ((10 <=? List.length (filter is_digit (c :: s)))%nat) eqn:El.
  - apply Nat.leb_le in El.
    destruct (test phoneRegex (c :: s)) eqn:Et; cbn [andb].
    + apply test_lang in Et. apply lang_Plus_Cls_iff in Et.
      destruct Et as [_ Hf]. split; [|reflexivity].
      intros _. right. split; [assumption|].
      eapply Forall_impl; [|exact Hf].
      intros a Ha. now apply phone_char_iff.
    + split; [discriminate|]. intros [H|[_ Hf]]; [discriminate|].
      assert (Hl : lang phoneRegex (c :: s)).
      { apply lang_Plus_Cls_iff. split; [discriminate|].
        eapply Forall_impl; [|exact Hf].
        intros a Ha. now apply phone_char_iff. }
      apply test_lang in Hl. congruence.
  - apply Nat.leb_gt in El. cbn [andb].
    split; [discriminate|]. intros [H|[Hl _]]; [discriminate|lia].
Qed.

(** What a string accepted by the Store looks like to the Form Engine's
    digit count. *)
Lemma strict_phone_digits (s prefix digits : jsstring) :
  without_spaces s = prefix ++ digits ->
  Forall (fun c => is_digit c = true) digits ->
  filter is_digit s = filter is_digit prefix ++ digits.
Proof.
  intros Hs Hd. rewrite <- digits_of_without_spaces, Hs, filter_app.
  now rewrite (filter_all_digits Hd).
Qed.

Lemma prefixed_phone_is_loose (s digits : jsstring) :
  without_spaces s = js "+351" ++ digits ->
  List.length digits = 9%nat ->
  Forall (fun c => is_digit c = true) digits ->
  loose_phone s.
Proof.
  intros Hs Hl Hd. split.
  - rewrite (strict_phone_digits s (js "+351") Hs Hd).
    rewrite length_app, Hl. vm_compute. lia.
  - apply Forall_forall. intros c Hc.
    destruct (is_ws c) eqn:Hw; [tauto|].
    assert (Hin : In c (without_spaces s)).
    { unfold without_spaces. apply filter_In. now rewrite Hw. }
    rewrite Hs in Hin. apply in_app_or in Hin. destruct Hin as [Hin|Hin].
    + vm_compute in Hin.
      destruct Hin as [<-|[<-|[<-|[<-|[]]]]]; vm_compute; tauto.
    + left. clear Hc Hw. revert c Hin. now apply Forall_forall.
Qed.

Lemma strict_phone_prefix_cases (s prefix digits : jsstring) :
  without_spaces s = prefix ++ digits ->
  prefix = [] \/ prefix = js "+351" ->
  List.length digits = 9%nat ->
  Forall (fun c => is_digit c = true) digits ->
  (firstn 4 (without_spaces s) = js "+351" <-> prefix = js "+351").
Proof.
  intros Hs Hp Hl Hd. rewrite Hs. destruct Hp as [->| ->].
  - simpl. split.
    + intros H.
      destruct digits as [|c digits]; [discriminate|].
      inversion Hd as [|? ? Hc _]; subst.
      vm_compute in H. injection H as -> _. vm_compute in Hc.
      discriminate.
    + intros H. vm_compute in H. discriminate.
  - split; [reflexivity|]. intros _. reflexivity.
Qed.

End PhoneFacts.

Section PhoneClaims.

Import UserService Spec Sample.
Import UseForm.ValidationRules.

Lemma isValidPhone_string (s : jsstring) :
  isValidPhone (VStr s) = Ok (test UserService.phoneRegex (remove_all is_ws s)).
Proof. reflexivity. Qed.

Lemma isValidPhone_true_iff (s : jsstring) :
  isValidPhone (VStr s) = Ok true <-> strict_phone s.
Proof.
  rewrite isValidPhone_string, <- store_phone_test_iff.
  split; [intros H; now injection H|intros ->; reflexivity].
Qed.

Lemma isValidPhone_not_strict (s : jsstring) :
  ~ strict_phone s -> isValidPhone (VStr s) = Ok false.
Proof.
  intros H. rewrite isValidPhone_string.
  destruct (test UserService.phoneRegex (remove_all is_ws s)) eqn:E;
    [|reflexivity].
  apply store_phone_test_iff in E. contradiction.
Qed.

(** C6.  On every string the Store's phone check returns, and it accepts
    exactly the strings that, with the space characters removed, are an
    optional [+351] followed by nine decimal digits.  A string with a
    hyphen or a parenthesis is rejected, and so is a string of ten
    digits. *)
Theorem C6_store_phone_format :
  (forall s, isValidPhone (VStr s) = Ok true <-> strict_phone s)
  /\ (forall s, isValidPhone (VStr s) = Ok false <-> ~ strict_phone s)
  /\ (forall s, In 45%N s \/ In 40%N s \/ In 41%N s ->
                isValidPhone (VStr s) = Ok false)
  /\ (forall s, List.length s = 10%nat ->
                Forall (fun c => is_digit c = true) s ->
                isValidPhone (VStr s) = Ok false)
  /\ isValidPhone (VStr (js "912-345-678")) = Ok false
  /\ isValidPhone (VStr (js "(912) 345 678")) = Ok false
  /\ isValidPhone (VStr (js "9123456789")) = Ok false
  /\ isValidPhone (VStr (js "912 345 678")) = Ok true
  /\ isValidPhone (VStr (js "+351 916 534 613")) = Ok true.
Proof.
  split; [exact isValidPhone_true_iff|].
  split.
  { intros s. split.
    - intros H Hs. apply isValidPhone_true_iff in Hs. congruence.
    - apply isValidPhone_not_strict. }
  split.
  { intros s Hin. apply isValidPhone_not_strict.
    intros (prefix & digits & Hs & Hp & _ & Hd).
    assert (Hc : exists c, In c s /\ is_ws c = false
                           /\ is_digit c = false /\ ~ In c (js "+351")).
    { destruct Hin as [H|[H|H]]; eexists; (split; [exact H|]);
        vm_compute; intuition discriminate. }
    destruct Hc as (c & Hc & Hw & Hdig & Hpre).
    assert (Hin' : In c (without_spaces s)).
    { unfold without_spaces. apply filter_In. now rewrite Hw. }
    rewrite Hs in Hin'. apply in_app_or in Hin'.
    destruct Hin' as [H|H].
    - destruct Hp as [->| ->]; [destruct H|contradiction].
    - rewrite Forall_forall in Hd. apply Hd in H. congruence. }
  split.
  { intros s Hl Hall. apply isValidPhone_not_strict.
    intros (prefix & digits & Hs & Hp & Hl9 & _).
    assert (Hw : without_spaces s = s).
    { unfold without_spaces. apply filter_id. intros c Hc.
      rewrite Forall_forall in Hall.
      now rewrite (digit_not_ws c (Hall c Hc)). }
    rewrite Hw in Hs. rewrite Hs, length_app, Hl9 in Hl.
    destruct Hp as [->| ->]; vm_compute in Hl; lia. }
  repeat split; vm_compute; reflexivity.
Qed.

Lemma C6_store_phone_format_witness :
  In 45%N (js "912-345-678")
  /\ isValidPhone (VStr (js "912-345-678")) = Ok false.
Proof.
  assert (H : In 45%N (js "912-345-678")).
  { vm_compute. tauto. }
  split; [exact H|].
  exact (proj1 (proj2 (proj2 C6_store_phone_format)) _ (or_introl H)).
Defined.

(** C3, as the code has it.  Of the strings the Store's phone check
    accepts, the Form Engine's phone rule accepts those that carry the
    [+351] prefix and rejects the others, the bare nine-digit numbers. *)
Theorem C3_store_phone_vs_form_phone :
  forall (s : jsstring) (vals : jsobj),
    isValidPhone (VStr s) = Ok true ->
    (firstn 4 (without_spaces s) = js "+351" ->
     phone (VStr s) vals = Ok VNull)
    /\ (firstn 4 (without_spaces s) <> js "+351" ->
        phone (VStr s) vals = Ok (VStr (js "Telefone inválido"))).
Proof.
  intros s vals Hs. apply isValidPhone_true_iff in Hs.
  destruct Hs as (prefix & digits & Hs & Hp & Hl & Hd).
  pose proof (strict_phone_prefix_cases s Hs Hp Hl Hd) as Hpre.
  split; intros H.
  - apply Hpre in H. subst prefix.
    apply form_phone_rule_iff. right.
    now apply (prefixed_phone_is_loose s Hs).
  - assert (Hnil : prefix = []) by tauto. subst prefix. simpl in Hs.
    assert (Hlen : List.length (filter is_digit s) = 9%nat).
    { now rewrite (strict_phone_digits s [] Hs Hd). }
    unfold phone. rewrite remove_all_not_digit, Hlen.
    destruct s as [|c s]; [|reflexivity].
    simpl in Hs. subst digits. discriminate.
Qed.

Lemma C3_store_phone_vs_form_phone_witness :
  isValidPhone (VStr (js "+351 916 534 613")) = Ok true
  /\ firstn 4 (without_spaces (js "+351 916 534 613")) = js "+351"
  /\ phone (VStr (js "+351 916 534 613")) [] = Ok VNull.
Proof.
  split; [vm_compute; reflexivity|].
  split; [vm_compute; reflexivity|].
  apply (@C3_store_phone_vs_form_phone (js "+351 916 534 613") []);
    vm_compute; reflexivity.
Defined.

(** C3 as stated fails: the nine digits [912345678] are not empty, pass
    the Store's phone check, and are rejected by the Form Engine's phone
    rule, which wants ten digits. *)
Lemma C3_bare_nine_digits_rejected_by_form :
  js "912345678" <> []
  /\ isValidPhone (VStr (js "912345678")) = Ok true
  /\ phone (VStr (js "912345678")) [] = Ok (VStr (js "Telefone inválido"))
  /\ phone (VStr (js "912345678")) [] <> Ok VNull
  /\ ~ loose_phone (js "912345678").
Proof.
  split; [vm_compute; discriminate|].
  split; [vm_compute; reflexivity|].
  split; [vm_compute; reflexivity|].
  split; [vm_compute; discriminate|].
  intros [H _]. vm_compute in H. lia.
Qed.

End PhoneClaims.

(* ===================================================================== *)
(** ** The form engine *)
(* ===================================================================== *)

Section FormFacts.

Import UseForm Spec.

Variable validationRules : list (jsstring * list rule).


(** [validateForm] reads the values only. *)
Lemma validateForm_reads_values (s1 s : form) :
  values s1 = values s ->
  snd (validateForm validationRules s1) = snd (validateForm validationRules s).
Proof.
  intros E. unfold validateForm. rewrite E.
  destruct (validate_fields validationRules (keys validationRules)
              (values s) [] true) as [[ne iv]|e]; reflexivity.
Qed.

Lemma validateForm_result (s : form) (newErrors : jsobj) (b : bool) :
  snd (validateForm validationRules s) = Ok (newErrors, b) ->
  validateForm validationRules s
  = (setErrors (fun _ => newErrors) s, Ok (newErrors, b)).
Proof.
  unfold validateForm.
  destruct (validate_fields validationRules (keys validationRules)
              (values s) [] true) as [[ne iv]|e]; simpl; intros H;
    [|discriminate].
  now injection H as -> ->.
Qed.

End FormFacts.

Section FormClaims.

Import UseForm Spec Sample.
Import UseForm.ValidationRules.




(** C4.  One submit event through the handler.  When full-form validation
    fails the callback is not invoked, [setIsSubmitting] is not called,
    and the handler's promise is fulfilled.  When it passes, the flag is
    set, the callback is invoked with the values and sees the flag set;
    when the callback's promise is fulfilled or rejected the flag is reset,
    a rejection is logged to the console before that, and the handler's
    promise is fulfilled in both cases. *)
Theorem C4_submit_gate :
  forall (rules : list (jsstring * list rule)) (onSubmit : callback)
         (s : form),
    let r := handleSubmit rules onSubmit s in
    (forall newErrors,
        snd (validateForm rules s) = Ok (newErrors, false) ->
        (forall vals, ~ In (OnSubmit vals) (log r))
        /\ (forall b, ~ In (SetIsSubmitting b) (log r))
        /\ isSubmitting (final r) = isSubmitting s
        /\ outcome r = Fulfilled)
    /\ (forall newErrors,
          snd (validateForm rules s) = Ok (newErrors, true) ->
          let s3 :=
            setIsSubmitting true
              (setErrors (fun _ => newErrors)
                 (setTouched (fun _ => allTouched rules) s)) in
          let before :=
            [PreventDefault; SetTouched (allTouched rules);
             SetErrors newErrors; SetIsSubmitting true;
             OnSubmit (values s)] in
          isSubmitting s3 = true
          /\ match snd (onSubmit (values s) s3) with
             | Fulfilled =>
               log r = before ++ [SetIsSubmitting false]
               /\ isSubmitting (final r) = false
               /\ outcome r = Fulfilled
             | Rejected e =>
               log r = before ++ [ConsoleError e; SetIsSubmitting false]
               /\ isSubmitting (final r) = false
               /\ outcome r = Fulfilled
             | Pending =>
               log r = before /\ outcome r = Pending
             end).
Proof.
  intros rules onSubmit s r. subst r. unfold handleSubmit.
  set (s1 := setTouched (fun _ => allTouched rules) s).
  assert (Hs1 : values s1 = values s) by reflexivity.
  split.
  - intros newErrors Hv.
    rewrite <- (validateForm_reads_values rules s1 s Hs1) in Hv.
    rewrite (validateForm_result rules s1 Hv). simpl.
    repeat split; try reflexivity.
    + intros vals H. destruct H as [H|[H|[H|H]]];
        try discriminate; contradiction.
    + intros b H. destruct H as [H|[H|[H|H]]];
        try discriminate; contradiction.
  - intros newErrors Hv. cbv zeta.
    rewrite <- (validateForm_reads_values rules s1 s Hs1) in Hv.
    rewrite (validateForm_result rules s1 Hv). simpl.
    split; [reflexivity|].
    fold s1.
    destruct (onSubmit (values s)
                (setIsSubmitting true (setErrors (fun _ => newErrors) s1)))
      as [s4 [|e|]]; simpl; repeat split; reflexivity.
Qed.

(** A callback that calls [resetForm] and then fails. *)
Lemma C4_submit_gate_witness :
  let rules := [(js "name", [required])] in
  let failing : callback :=
    fun _ f => (resetForm [(js "name", VStr [])] f,
                Rejected (Error (js "Validation failed"))) in
  let empty := init [(js "name", VStr [])] in
  let filled := init [(js "name", VStr (js "Ana"))] in
  (snd (validateForm rules empty)
   = Ok ([(js "name", VStr (js "Este campo é obrigatório"))], false)
   /\ forall vals, ~ In (OnSubmit vals) (log (handleSubmit rules failing empty)))
  /\ (snd (validateForm rules filled) = Ok ([], true)
      /\ log (handleSubmit rules failing filled)
         = [PreventDefault; SetTouched [(js "name", VBool true)];
            SetErrors []; SetIsSubmitting true;
            OnSubmit [(js "name", VStr (js "Ana"))];
            ConsoleError (Error (js "Validation failed"));
            SetIsSubmitting false]
      /\ outcome (handleSubmit rules failing filled) = Fulfilled).
Proof.
  cbv zeta. split.
  - assert (H : snd (validateForm [(js "name", [required])]
                       (init [(js "name", VStr [])]))
                = Ok ([(js "name", VStr (js "Este campo é obrigatório"))],
                      false))
      by (vm_compute; reflexivity).
    split; [exact H|].
    exact (proj1 (proj1 (C4_submit_gate [(js "name", [required])]
                           (fun _ f => (resetForm [(js "name", VStr [])] f,
                                        Rejected (Error (js "Validation failed"))))
                           (init [(js "name", VStr [])])) _ H)).
  - assert (H : snd (validateForm [(js "name", [required])]
                       (init [(js "name", VStr (js "Ana"))]))
                = Ok ([], true))
      by (vm_compute; reflexivity).
    split; [exact H|].
    destruct (proj2 (C4_submit_gate [(js "name", [required])]
                       (fun _ f => (resetForm [(js "name", VStr [])] f,
                                    Rejected (Error (js "Validation failed"))))
                       (init [(js "name", VStr (js "Ana"))])) _ H)
      as (_ & Hlog & _ & Hout).
    split; [exact Hlog|exact Hout].
Defined.

End FormClaims.

Section RequiredClaims.

Import UseForm Spec Sample.
Import UseForm.ValidationRules.

Lemma validateUser_empty_userTypes (userData : jsobj)
    (v : UserService.validation) :
  get (js "userTypes") userData = VArr [] ->
  UserService.validateUser userData = Ok v ->
  UserService.isValid v = false
  /\ get (js "userTypes") (UserService.errors v)
     = VStr (js "Selecione pelo menos um tipo de utilizador").
Proof.
  intros Hu Hv. unfold UserService.validateUser in Hv. rewrite Hu in Hv.
  change (truthy (UserService.optional_length (VArr []))) with false in Hv.
  validate_cases Hv; injection Hv as <-; split; vm_compute; reflexivity.
Qed.

(** C10.  [required] returns [null] on every truthy value that is not a
    string, the empty array among them; so on a field whose rule list is
    [required] alone, [validateField] on the empty array records no error,
    and a form whose only rule is [required] on [userTypes] validates with
    an empty selection.  [validateUser] on a record with an empty
    [userTypes] reports the record invalid with the [userTypes] message
    whenever it returns, and it does return when the text fields are
    typed. *)
Theorem C10_required_accepts_empty_array :
  (forall (v : value) (vals : jsobj),
      truthy v = true -> is_string v = false -> required v vals = Ok VNull)
  /\ (forall vals, required (VArr []) vals = Ok VNull)
  /\ (forall (rules : list (jsstring * list rule)) (name : jsstring)
             (s : form),
        rules_of rules name = Some [required] ->
        snd (validateField rules name (VArr []) s) = Ok VNull
        /\ get name (errors (fst (validateField rules name (VArr []) s)))
           = VNull)
  /\ (forall s : form,
        get (js "userTypes") (values s) = VArr [] ->
        snd (validateForm [(js "userTypes", [required])] s) = Ok ([], true))
  /\ (forall (userData : jsobj) (v : UserService.validation),
        get (js "userTypes") userData = VArr [] ->
        UserService.validateUser userData = Ok v ->
        UserService.isValid v = false
        /\ get (js "userTypes") (UserService.errors v)
           = VStr (js "Selecione pelo menos um tipo de utilizador"))
  /\ (forall userData : jsobj,
        get (js "userTypes") userData = VArr [] ->
        text_fields_typed userData ->
        exists v,
          UserService.validateUser userData = Ok v
          /\ UserService.isValid v = false).
Proof.
  split.
  { intros v vals Ht Hs. unfold required. now rewrite Ht, Hs. }
  split; [reflexivity|].
  split.
  { intros rules name s Hr. unfold validateField. rewrite Hr. simpl.
    split; [reflexivity|apply get_set_same]. }
  split.
  { intros s Hs. unfold validateForm. cbn [keys map fst validate_fields].
    unfold rules_of. cbn [rules_in]. rewrite jsstring_eqb_refl.
    rewrite Hs. reflexivity. }
  split; [exact validateUser_empty_userTypes|].
  intros userData Hu Ht.
  destruct (validateUser_returns Ht) as [v Hv]. exists v.
  split; [exact Hv|].
  exact (proj1 (validateUser_empty_userTypes userData Hu Hv)).
Qed.

Lemma C10_required_accepts_empty_array_witness :
  get (js "userTypes") untypedData = VArr []
  /\ text_fields_typed untypedData
  /\ required (get (js "userTypes") untypedData) untypedData = Ok VNull
  /\ snd (validateForm [(js "userTypes", [required])] (init untypedData))
     = Ok ([], true)
  /\ exists v,
       UserService.validateUser untypedData = Ok v
       /\ UserService.isValid v = false.
Proof.
  destruct C10_required_accepts_empty_array as (Hr & _ & _ & Hf & _ & Hv).
  assert (Hu : get (js "userTypes") untypedData = VArr [])
    by (vm_compute; reflexivity).
  assert (Ht : text_fields_typed untypedData)
    by (vm_compute; tauto).
  split; [exact Hu|]. split; [exact Ht|].
  split; [rewrite Hu; exact (Hr (VArr []) untypedData eq_refl eq_refl)|].
  split; [exact (Hf (init untypedData) Hu)|].
  exact (Hv untypedData Hu Ht).
Defined.

End RequiredClaims.

(* ===================================================================== *)
(** ** Further properties: the rules on strings *)
(* ===================================================================== *)

Section RuleFacts.

Import Spec Props.
Import UseForm.ValidationRules.

Lemma trimStart_blank (s : jsstring) : trimStart s = [] <-> blank s = true.
Proof.
  unfold blank. induction s as [|c s IH]; simpl; [tauto|].
  destruct (is_ws c); simpl; [exact IH|].
  split; discriminate.
Qed.

Lemma trimStart_head (s : jsstring) (c : jschar) (t : jsstring) :
  trimStart s = c :: t -> is_ws c = false.
Proof.
  induction s as [|x s IH]; simpl; [discriminate|].
  destruct (is_ws x) eqn:E; [exact IH|].
  intros H. injection H as -> _. exact E.
Qed.

Lemma blank_rev (s : jsstring) : blank (List.rev s) = blank s.
Proof.
  unfold blank. destruct (forallb is_ws s) eqn:E.
  - apply forallb_forall. intros c Hc. apply in_rev in Hc.
    rewrite forallb_forall in E. now apply E.
  - destruct (forallb is_ws (List.rev s)) eqn:E'; [|reflexivity].
    rewrite forallb_forall in E'.
    assert (forallb is_ws s = true); [|congruence].
    apply forallb_forall. intros c Hc. apply E'. now apply in_rev in Hc.
Qed.

Lemma trim_blank (s : jsstring) : trim s = [] <-> blank s = true.
Proof.
  unfold trim. split.
  - intros H.
    assert (H1 : trimStart (List.rev (trimStart s)) = []).
    { destruct (trimStart (List.rev (trimStart s))); [reflexivity|].
      simpl in H. now apply app_eq_nil in H. }
    apply trimStart_blank in H1. rewrite blank_rev in H1.
    destruct (trimStart s) as [|c t] eqn:E.
    + now apply trimStart_blank.
    + apply trimStart_head in E. unfold blank in H1. simpl in H1.
      rewrite E in H1. discriminate.
  - intros H. apply trimStart_blank in H. now rewrite H.
Qed.

Lemma truthy_trim (s : jsstring) :
  truthy (VStr (trim s)) = negb (blank s).
Proof.
  destruct (blank s) eqn:E.
  - apply trim_blank in E. now rewrite E.
  - destruct (trim s) eqn:Et; [|reflexivity].
    apply trim_blank in Et. congruence.
Qed.

Lemma not_ws_at_iff (c : jschar) :
  UserService.not_ws_at c = true <-> is_ws c = false /\ c <> 64%N.
Proof.
  unfold UserService.not_ws_at, jschar_eqb.
  rewrite negb_true_iff, orb_false_iff, N.eqb_neq. tauto.
Qed.

Lemma lang_email_part (l : jsstring) :
  lang (Plus (Cls UserService.not_ws_at)) l <-> email_part l.
Proof.
  rewrite lang_Plus_Cls_iff. unfold email_part.
  split; intros [Hne Hf]; (split; [assumption|]);
    (eapply Forall_impl; [|exact Hf]); intros c Hc;
    now apply not_ws_at_iff.
Qed.

Lemma lang_Chr_iff (c : jschar) (s : jsstring) :
  lang (Chr c) s <-> s = [c].
Proof.
  unfold Chr. rewrite lang_Cls_iff. unfold jschar_eqb. split.
  - intros (c' & -> & Hc). apply N.eqb_eq in Hc. now subst.
  - intros ->. exists c. split; [reflexivity|apply N.eqb_refl].
Qed.

Lemma emailRegex_shape (s : jsstring) :
  test UserService.emailRegex s = true <-> email_shape s.
Proof.
  rewrite test_lang. unfold UserService.emailRegex, email_shape. split.
  - intros H.
    apply lang_Cat_iff in H. destruct H as (l & r1 & -> & Hl & H).
    apply lang_Cat_iff in H. destruct H as (a & r2 & -> & Ha & H).
    apply lang_Cat_iff in H. destruct H as (d & r3 & -> & Hd & H).
    apply lang_Cat_iff in H. destruct H as (b & t & -> & Hb & Ht).
    apply lang_Chr_iff in Ha, Hb. subst a b.
    apply lang_email_part in Hl, Hd, Ht.
    exists l, d, t. simpl. tauto.
  - intros (l & d & t & -> & Hl & Hd & Ht).
    apply lang_email_part in Hl, Hd, Ht.
    apply (lang_cat Hl). apply (@lang_cat (Chr 64%N) _ [64%N]).
    { now apply lang_Chr_iff. }
    apply (lang_cat Hd). apply (@lang_cat (Chr 46%N) _ [46%N]).
    { now apply lang_Chr_iff. }
    exact Ht.
Qed.

Lemma email_part_no_at (l : jsstring) :
  email_part l -> count_occ N.eq_dec l 64%N = 0%nat.
Proof.
  intros [_ Hf]. apply count_occ_not_In. intros Hin.
  rewrite Forall_forall in Hf. destruct (Hf _ Hin) as [_ Hne]. congruence.
Qed.

Lemma email_part_no_ws (l : jsstring) :
  email_part l -> Forall (fun c => is_ws c = false) l.
Proof.
  intros [_ Hf]. eapply Forall_impl; [|exact Hf]. now intros c [Hc _].
Qed.

End RuleFacts.

Section RuleProperties.

Import Spec Props.
Import UseForm.ValidationRules.

Lemma required_on_string (s : jsstring) (vals : jsobj) :
  (blank s = true ->
   required (VStr s) vals = Ok (VStr (js "Este campo é obrigatório")))
  /\ (blank s = false -> required (VStr s) vals = Ok VNull).
Proof.
  unfold required. cbn [is_string andb].
  rewrite truthy_trim. split; intros H; rewrite H; cbn [negb].
  - now rewrite orb_true_r.
  - destruct s; [discriminate|reflexivity].
Qed.

(** X1.  On a string, [required] fails exactly when the string is blank
    (empty or white space only); the falsy values fail as well. *)
Theorem X1_required_blank_strings :
  forall (s : jsstring) (vals : jsobj),
    (blank s = true ->
     required (VStr s) vals = Ok (VStr (js "Este campo é obrigatório")))
    /\ (blank s = false -> required (VStr s) vals = Ok VNull).
Proof.
  intros s vals. exact (required_on_string s vals).
Qed.

Lemma X1_required_blank_strings_witness :
  blank (js "   ") = true
  /\ required (VStr (js "   ")) []
     = Ok (VStr (js "Este campo é obrigatório"))
  /\ blank (js " Ana ") = false
  /\ required (VStr (js " Ana ")) [] = Ok VNull.
Proof.
  split; [reflexivity|].
  split; [exact (proj1 (X1_required_blank_strings (js "   ") []) eq_refl)|].
  split; [reflexivity|].
  exact (proj2 (X1_required_blank_strings (js " Ana ") []) eq_refl).
Defined.

(** X2.  The Store's email check accepts a string exactly when it reads
    [local@domain.tld], three non-empty parts free of white space and of
    [@]; an accepted string therefore has no white space at all and
    exactly one [@]. *)
Theorem X2_store_email_shape :
  forall s : jsstring,
    (UserService.isValidEmail (VStr s) = true <-> email_shape s)
    /\ (UserService.isValidEmail (VStr s) = true ->
        Forall (fun c => is_ws c = false) s
        /\ count_occ N.eq_dec s 64%N = 1%nat).
Proof.
  intros s.
  assert (H : UserService.isValidEmail (VStr s) = true <-> email_shape s)
    by apply emailRegex_shape.
  split; [exact H|].
  intros Hv. apply H in Hv. destruct Hv as (l & d & t & -> & Hl & Hd & Ht).
  split.
  - apply Forall_app. split; [now apply email_part_no_ws|].
    constructor; [reflexivity|].
    apply Forall_app. split; [now apply email_part_no_ws|].
    constructor; [reflexivity|now apply email_part_no_ws].
  - change (l ++ 64%N :: d ++ 46%N :: t)
      with (l ++ [64%N] ++ d ++ [46%N] ++ t).
    rewrite !count_occ_app. change jschar with N.
    rewrite (email_part_no_at Hl), (email_part_no_at Hd),
      (email_part_no_at Ht).
    reflexivity.
Qed.

Lemma X2_store_email_shape_witness :
  UserService.isValidEmail (VStr (js "joao.silva@crud.com")) = true
  /\ count_occ N.eq_dec (js "joao.silva@crud.com") 64%N = 1%nat.
Proof.
  assert (H : UserService.isValidEmail (VStr (js "joao.silva@crud.com"))
              = true) by (vm_compute; reflexivity).
  split; [exact H|].
  exact (proj2 (proj2 (X2_store_email_shape (js "joao.silva@crud.com")) H)).
Defined.

Lemma email_rule_facts (s : jsstring) (vals : jsobj) :
  (email (VStr s) vals = Ok VNull <-> s = [] \/ email_shape s)
  /\ (email (VStr s) vals <> Ok VNull ->
      email (VStr s) vals = Ok (VStr (js "Email inválido"))).
Proof.
  unfold email. cbn [to_string].
  pose proof (emailRegex_shape s) as Hsh.
  destruct s as [|c s].
  - cbn [truthy negb]. split; [tauto|congruence].
  - cbn [truthy negb].
    destruct (test UserService.emailRegex (c :: s)) eqn:E.
    + split; [|congruence].
      split; [intros _; right; now apply Hsh|reflexivity].
    + split; [|reflexivity].
      split; [discriminate|].
      intros [H|H]; [discriminate|]. apply Hsh in H. discriminate.
Qed.

(** X3.  The Form Engine's email rule passes the empty string and, of the
    other strings, exactly those of the shape [local@domain.tld]; it
    answers with its message on the rest.  On non-empty strings it agrees
    with the Store's email check. *)
Theorem X3_form_email_rule :
  forall (s : jsstring) (vals : jsobj),
    (email (VStr s) vals = Ok VNull <-> s = [] \/ email_shape s)
    /\ (email (VStr s) vals <> Ok VNull ->
        email (VStr s) vals = Ok (VStr (js "Email inválido")))
    /\ (s <> [] ->
        (email (VStr s) vals = Ok VNull <->
         UserService.isValidEmail (VStr s) = true)).
Proof.
  intros s vals. unfold email, UserService.isValidEmail. cbn [to_string].
  pose proof (emailRegex_shape s) as Hsh.
  destruct s as [|c s].
  - cbn [truthy negb]. split; [tauto|]. split; [congruence|].
    intros H. contradiction.
  - cbn [truthy negb].
    destruct (test UserService.emailRegex (c :: s)) eqn:E.
    + split; [|split; [congruence|tauto]].
      split; [intros _; right; now apply Hsh|reflexivity].
    + split; [|split; [reflexivity|]].
      * split; [discriminate|].
        intros [H|H]; [discriminate|]. apply Hsh in H. discriminate.
      * intros _. split; discriminate.
Qed.

Lemma X3_form_email_rule_witness :
  js "bad" <> []
  /\ email (VStr (js "bad")) [] = Ok (VStr (js "Email inválido"))
  /\ UserService.isValidEmail (VStr (js "bad")) = false.
Proof.
  assert (Hne : js "bad" <> []) by (vm_compute; discriminate).
  assert (Hb : UserService.isValidEmail (VStr (js "bad")) = false)
    by (vm_compute; reflexivity).
  destruct (X3_form_email_rule (js "bad") []) as (_ & Hmsg & Hag).
  split; [exact Hne|]. split; [|exact Hb].
  apply Hmsg. intros H. apply (Hag Hne) in H. congruence.
Defined.



End RuleProperties.

(* ===================================================================== *)
(** ** Further properties: the record validator and the phone display *)
(* ===================================================================== *)

Section ValidatorMoreFacts.

Import UserService Spec Props.




Lemma optional_trim_truthy (v a : value) :
  optional_trim v = Ok a -> truthy a = true -> text_present v.
Proof.
  destruct v as [| | | |s| | |]; simpl; intros H Ht; try discriminate;
    injection H as <-; try discriminate.
  exists s. split; [reflexivity|].
  rewrite truthy_trim in Ht. now apply negb_true_iff.
Qed.

Lemma optional_length_has_types (v : value) :
  truthy (optional_length v) = true <-> has_types v.
Proof.
  destruct v as [| | | |s|l|o|b]; simpl; try (split; [discriminate|tauto]).
  - destruct s; simpl; split; congruence.
  - destruct l; simpl; split; congruence.
  - tauto.
  - tauto.
Qed.

Lemma blank_without_spaces (s : jsstring) :
  blank s = true -> without_spaces s = [].
Proof.
  unfold blank, without_spaces. induction s as [|c s IH]; simpl;
    [reflexivity|].
  intros H. apply andb_true_iff in H. destruct H as [Hc Hs].
  rewrite Hc. simpl. now apply IH.
Qed.

Lemma strict_phone_not_blank (s : jsstring) :
  strict_phone s -> blank s = false.
Proof.
  intros (prefix & digits & Hs & _ & Hl & _).
  destruct (blank s) eqn:E; [|reflexivity].
  apply blank_without_spaces in E. rewrite E in Hs. symmetry in Hs.
  apply app_eq_nil in Hs. destruct Hs as [_ ->]. discriminate.
Qed.

Lemma email_shape_not_blank (s : jsstring) :
  email_shape s -> blank s = false.
Proof.
  intros (l & d & t & -> & [Hne Hf] & _).
  destruct l as [|c l]; [contradiction|].
  inversion Hf as [|? ? [Hc _] _]; subst.
  unfold blank. simpl. now rewrite Hc.
Qed.

Lemma acceptable_validates (userData : jsobj) :
  acceptable userData ->
  validateUser userData = Ok {| isValid := true; errors := [] |}.
Proof.
  intros ((sn & Hn & Hbn) & (se & He & Hse) & (sp & Hp & Hsp) & Ht).
  unfold validateUser. rewrite Hn, He, Hp. cbn [optional_trim Js.bind].
  rewrite !truthy_trim, Hbn.
  rewrite (email_shape_not_blank Hse), (strict_phone_not_blank Hsp).
  cbn [negb]. unfold isValidEmail. cbn [to_string].
  rewrite (proj2 (emailRegex_shape se) Hse). cbn [negb].
  rewrite (proj2 (isValidPhone_true_iff sp) Hsp). cbn [Js.bind negb].
  rewrite (proj2 (optional_length_has_types _) Ht). reflexivity.
Qed.

Lemma validates_acceptable (userData : jsobj) (v : validation) :
  validateUser userData = Ok v -> isValid v = true -> acceptable userData.
Proof.
  intros Hv Hi. validate_cases Hv; injection Hv as <-;
    try (vm_compute in Hi; discriminate Hi).
  repeat match goal with
         | H : optional_trim ?x = Ok ?a, Ht : truthy ?a = true |- _ =>
           apply (optional_trim_truthy _ H) in Ht; clear H
         end.
  match goal with
  | Hn : text_present (get (js "name") _),
    He : text_present (get (js "email") _),
    Hp : text_present (get (js "phone") _),
    Hre : isValidEmail _ = true,
    Hrp : isValidPhone _ = Ok true,
    Hu : truthy (optional_length _) = true |- _ =>
    destruct He as (se & He & _); destruct Hp as (sp & Hp & _);
    rewrite He in Hre; rewrite Hp in Hrp;
    split; [exact Hn|];
    split; [exists se; split; [exact He|now apply emailRegex_shape]|];
    split; [exists sp; split; [exact Hp|now apply isValidPhone_true_iff]|];
    now apply optional_length_has_types
  end.
Qed.



End ValidatorMoreFacts.

Section ValidatorProperties.

Import UserService Spec Props Sample.





End ValidatorProperties.

Section FormatPhoneFacts.

Import UserService Spec Props.

Lemma startsWith_iff (p s : jsstring) :
  startsWith p s = true <-> exists r, s = p ++ r.
Proof.
  revert s. induction p as [|x p IH]; intros s; simpl.
  - split; [intros _; now exists s|reflexivity].
  - destruct s as [|y s].
    + split; [discriminate|]. intros [r Hr]. discriminate.
    + unfold jschar_eqb. rewrite andb_true_iff, N.eqb_eq, IH. split.
      * intros [-> [r ->]]. now exists r.
      * intros [r Hr]. injection Hr as -> ->. split; [reflexivity|].
        now exists r.
Qed.

Lemma firstn_exact (A : Type) (g r : list A) (n : nat) :
  List.length g = n -> firstn n (g ++ r) = g.
Proof.
  intros <-. rewrite firstn_app, Nat.sub_diag, firstn_all. simpl.
  apply app_nil_r.
Qed.

Lemma skipn_exact (A : Type) (g r : list A) (n : nat) :
  List.length g = n -> skipn n (g ++ r) = r.
Proof.
  intros <-. rewrite skipn_app, Nat.sub_diag, skipn_all. reflexivity.
Qed.

(** Nine digits are three groups of three. *)
Lemma nine_digits_groups (d : jsstring) :
  List.length d = 9%nat -> Forall (fun c => is_digit c = true) d ->
  exists g1 g2 g3,
    d = g1 ++ g2 ++ g3
    /\ digit_group g1 /\ digit_group g2 /\ digit_group g3.
Proof.
  intros Hl Hd.
  exists (firstn 3 d), (firstn 3 (skipn 3 d)), (skipn 3 (skipn 3 d)).
  assert (E : d = firstn 3 d ++ firstn 3 (skipn 3 d) ++ skipn 3 (skipn 3 d)).
  { now rewrite !firstn_skipn. }
  split; [exact E|].
  rewrite E in Hd. apply Forall_app in Hd. destruct Hd as [H1 Hd].
  apply Forall_app in Hd. destruct Hd as [H2 H3].
  unfold digit_group.
  rewrite !length_firstn, !length_skipn, Hl. simpl.
  repeat split; assumption.
Qed.

Lemma digits_of_group (g : jsstring) :
  Forall (fun c => is_digit c = true) g ->
  filter is_digit g = g /\ without_spaces g = g.
Proof.
  intros H. split; [now apply filter_all_digits|].
  unfold without_spaces. apply filter_id. intros c Hc.
  rewrite Forall_forall in H. now rewrite (digit_not_ws c (H c Hc)).
Qed.

(** What [formatPhone] builds from the digits of its argument. *)
Lemma formatPhone_of_digits (s g1 g2 g3 : jsstring) :
  filter is_digit s = js "351" ++ g1 ++ g2 ++ g3 ->
  List.length g1 = 3%nat -> List.length g2 = 3%nat ->
  formatPhone (VStr s)
  = Ok (VStr (js "+351 " ++ g1 ++ js " " ++ g2 ++ js " " ++ g3)).
Proof.
  intros Hs H1 H2. unfold formatPhone.
  rewrite remove_all_not_digit, Hs.
  rewrite (proj2 (startsWith_iff (js "351") _)) by eauto.
  cbv zeta.
  rewrite (skipn_exact (js "351") (g1 ++ g2 ++ g3) (n := 3) eq_refl).
  rewrite (firstn_exact g1 (g2 ++ g3) H1).
  rewrite (skipn_exact g1 (g2 ++ g3) H1).
  rewrite (firstn_exact g2 g3 H2).
  replace (skipn 6 (g1 ++ g2 ++ g3)) with g3; [reflexivity|].
  rewrite app_assoc. symmetry. apply skipn_exact.
  rewrite length_app, H1, H2. reflexivity.
Qed.

Lemma grouped_digits (g1 g2 g3 : jsstring) :
  Forall (fun c => is_digit c = true) g1 ->
  Forall (fun c => is_digit c = true) g2 ->
  Forall (fun c => is_digit c = true) g3 ->
  let r := js "+351 " ++ g1 ++ js " " ++ g2 ++ js " " ++ g3 in
  filter is_digit r = js "351" ++ g1 ++ g2 ++ g3
  /\ without_spaces r = js "+351" ++ g1 ++ g2 ++ g3.
Proof.
  intros H1 H2 H3 r. subst r.
  destruct (digits_of_group H1) as [D1 W1].
  destruct (digits_of_group H2) as [D2 W2].
  destruct (digits_of_group H3) as [D3 W3].
  split.
  - rewrite !filter_app, D1, D2, D3. reflexivity.
  - unfold without_spaces in *. rewrite !filter_app, W1, W2, W3.
    reflexivity.
Qed.

End FormatPhoneFacts.

Section FormatPhoneProperties.

Import UserService Spec Props.

(** X7.  On a phone the Store accepts with the [+351] prefix,
    [formatPhone] returns the prefix and the nine digits in three groups
    of three, separated by single spaces; the result is again accepted by
    the Store, and formatting it again changes nothing. *)
Theorem X7_formatPhone_prefixed :
  forall s : jsstring,
    isValidPhone (VStr s) = Ok true ->
    firstn 4 (without_spaces s) = js "+351" ->
    exists g1 g2 g3 : jsstring,
      digit_group g1 /\ digit_group g2 /\ digit_group g3
      /\ without_spaces s = js "+351" ++ g1 ++ g2 ++ g3
      /\ let shown := js "+351 " ++ g1 ++ js " " ++ g2 ++ js " " ++ g3 in
         formatPhone (VStr s) = Ok (VStr shown)
         /\ isValidPhone (VStr shown) = Ok true
         /\ formatPhone (VStr shown) = Ok (VStr shown).
Proof.
  intros s Hv Hpre. apply isValidPhone_true_iff in Hv.
  destruct Hv as (prefix & digits & Hs & Hp & Hl & Hd).
  apply (strict_phone_prefix_cases s Hs Hp Hl Hd) in Hpre. subst prefix.
  destruct (nine_digits_groups Hl Hd)
    as (g1 & g2 & g3 & -> & [L1 D1] & [L2 D2] & [L3 D3]).
  exists g1, g2, g3.
  split; [now split|]. split; [now split|]. split; [now split|].
  split; [exact Hs|]. cbv zeta.
  destruct (grouped_digits D1 D2 D3) as [Gd Gw].
  assert (Hdig : filter is_digit s = js "351" ++ g1 ++ g2 ++ g3).
  { rewrite (strict_phone_digits s (js "+351") Hs Hd). reflexivity. }
  split; [exact (formatPhone_of_digits s g1 g2 g3 Hdig L1 L2)|].
  split; [|exact (formatPhone_of_digits _ g1 g2 g3 Gd L1 L2)].
  apply isValidPhone_true_iff. exists (js "+351"), (g1 ++ g2 ++ g3).
  split; [exact Gw|]. split; [now right|]. split; [exact Hl|exact Hd].
Qed.

Lemma X7_formatPhone_prefixed_witness :
  isValidPhone (VStr (js "+351916534613")) = Ok true
  /\ firstn 4 (without_spaces (js "+351916534613")) = js "+351"
  /\ exists g1 g2 g3 : jsstring,
       formatPhone (VStr (js "+351916534613"))
       = Ok (VStr (js "+351 " ++ g1 ++ js " " ++ g2 ++ js " " ++ g3)).
Proof.
  assert (H1 : isValidPhone (VStr (js "+351916534613")) = Ok true)
    by (vm_compute; reflexivity).
  assert (H2 : firstn 4 (without_spaces (js "+351916534613")) = js "+351")
    by (vm_compute; reflexivity).
  split; [exact H1|]. split; [exact H2|].
  destruct (@X7_formatPhone_prefixed (js "+351916534613") H1 H2)
    as (g1 & g2 & g3 & _ & _ & _ & _ & Hf & _).
  exists g1, g2, g3. exact Hf.
Defined.

(** X8.  On a phone the Store accepts without the prefix, [formatPhone]
    returns its argument unchanged unless the nine digits begin with
    [351]; then it takes those three digits for the country code and
    returns [+351], a space, the six digits left in two groups of three
    with a space between them, and one more space with nothing after it:
    a string the Store's phone check rejects. *)
Theorem X8_formatPhone_bare :
  forall s : jsstring,
    isValidPhone (VStr s) = Ok true ->
    firstn 4 (without_spaces s) <> js "+351" ->
    (startsWith (js "351") (without_spaces s) = false ->
     formatPhone (VStr s) = Ok (VStr s))
    /\ (startsWith (js "351") (without_spaces s) = true ->
        exists g1 g2 : jsstring,
          digit_group g1 /\ digit_group g2
          /\ without_spaces s = js "351" ++ g1 ++ g2
          /\ let shown := js "+351 " ++ g1 ++ js " " ++ g2 ++ js " " in
             formatPhone (VStr s) = Ok (VStr shown)
             /\ isValidPhone (VStr shown) = Ok false).
Proof.
  intros s Hv Hpre. apply isValidPhone_true_iff in Hv.
  destruct Hv as (prefix & digits & Hs & Hp & Hl & Hd).
  assert (Hnil : prefix = []).
  { pose proof (strict_phone_prefix_cases s Hs Hp Hl Hd). tauto. }
  subst prefix. simpl in Hs.
  assert (Hdig : filter is_digit s = digits).
  { now rewrite (strict_phone_digits s [] Hs Hd). }
  rewrite Hs. split.
  - intros Hst. unfold formatPhone.
    now rewrite remove_all_not_digit, Hdig, Hst.
  - intros Hst. apply startsWith_iff in Hst. destruct Hst as [rest Hr].
    rewrite Hr in Hd, Hl, Hdig. rewrite Hr. clear Hs Hr.
    apply Forall_app in Hd. destruct Hd as [_ Hd].
    assert (Hl6 : List.length rest = 6%nat).
    { rewrite length_app in Hl.
      change (List.length (js "351")) with 3%nat in Hl. lia. }
    set (g1 := firstn 3 rest). set (g2 := skipn 3 rest).
    assert (E : rest = g1 ++ g2 ++ []).
    { subst g1 g2. now rewrite app_nil_r, firstn_skipn. }
    assert (L1 : List.length g1 = 3%nat).
    { subst g1. rewrite length_firstn, Hl6. reflexivity. }
    assert (L2 : List.length g2 = 3%nat).
    { subst g2. rewrite length_skipn, Hl6. reflexivity. }
    rewrite E in Hd. apply Forall_app in Hd. destruct Hd as [D1 Hd].
    apply Forall_app in Hd. destruct Hd as [D2 D3].
    rewrite E in Hdig.
    exists g1, g2.
    split; [now split|]. split; [now split|].
    split; [now rewrite E at 1; rewrite app_nil_r|].
    cbv zeta.
    pose proof (formatPhone_of_digits s g1 g2 [] Hdig L1 L2) as Hf.
    destruct (grouped_digits D1 D2 D3) as [Gd Gw].
    assert (Gw' : without_spaces
                    (js "+351 " ++ g1 ++ js " " ++ g2 ++ js " ")
                  = js "+351" ++ g1 ++ g2 ++ []) by exact Gw.
    split; [exact Hf|].
    apply isValidPhone_not_strict.
    intros (prefix & nine & Hs' & Hp' & Hl' & _).
    rewrite Gw' in Hs'.
    assert (Hlen : List.length (js "+351" ++ g1 ++ g2 ++ [])
                   = List.length (prefix ++ nine)) by now rewrite Hs'.
    rewrite !length_app, L1, L2, Hl' in Hlen.
    destruct Hp' as [->| ->]; vm_compute in Hlen; lia.
Qed.

Lemma X8_formatPhone_bare_witness :
  isValidPhone (VStr (js "351234567")) = Ok true
  /\ firstn 4 (without_spaces (js "351234567")) <> js "+351"
  /\ startsWith (js "351") (without_spaces (js "351234567")) = true
  /\ formatPhone (VStr (js "351234567")) = Ok (VStr (js "+351 234 567 "))
  /\ isValidPhone (VStr (js "+351 234 567 ")) = Ok false.
Proof.
  assert (H1 : isValidPhone (VStr (js "351234567")) = Ok true)
    by (vm_compute; reflexivity).
  assert (H2 : firstn 4 (without_spaces (js "351234567")) <> js "+351")
    by (vm_compute; discriminate).
  assert (H3 : startsWith (js "351") (without_spaces (js "351234567"))
               = true) by (vm_compute; reflexivity).
  split; [exact H1|]. split; [exact H2|]. split; [exact H3|].
  destruct (proj2 (@X8_formatPhone_bare (js "351234567") H1 H2) H3)
    as (g1 & g2 & [L1 _] & [L2 _] & Hw & Hf & Hr).
  destruct g1 as [|a [|b [|c [|d g1]]]]; try discriminate L1.
  vm_compute in Hw. injection Hw as <- <- <- <-.
  split; [exact Hf|exact Hr].
Defined.

End FormatPhoneProperties.

(* ===================================================================== *)
(** ** Further properties: the user store *)
(* ===================================================================== *)

Section StoreMoreFacts.

Import UserService UserContext LocalStorage Spec Props.

Lemma valid_addUser (newId now : jsstring) (userData : jsobj)
    (p : provider) (v : validation) :
  validateUser userData = Ok v -> isValid v = true ->
  addUser newId now userData p
  = (dispatch
       (ADD_USER
          (set (js "createdAt") (VStr now)
             (set (js "id") (VStr newId) userData))) p,
     Returned).
Proof. intros Hv Hi. unfold addUser. now rewrite Hv, Hi. Qed.

Lemma id_createdAt_distinct : js "id" <> js "createdAt".
Proof. vm_compute. discriminate. Qed.

Lemma strict_eq_VStr (a : value) (id : jsstring) :
  strict_eq a (VStr id) = true <-> a = VStr id.
Proof.
  destruct a; simpl; try (split; discriminate).
  rewrite jsstring_eqb_eq. split; congruence.
Qed.

Lemma ids_of_update (id : jsstring) (r : jsobj) (us : list jsobj) :
  get (js "id") r = VStr id ->
  ids (map (fun u => if strict_eq (get (js "id") u) (VStr id)
                     then r else u) us)
  = ids us.
Proof.
  intros Hr. unfold ids. induction us as [|u us IH]; simpl;
    [reflexivity|].
  rewrite IH. f_equal.
  destruct (strict_eq (get (js "id") u) (VStr id)) eqn:E; [|reflexivity].
  apply strict_eq_VStr in E. congruence.
Qed.

Lemma ids_of_filter_NoDup (f : jsobj -> bool) (us : list jsobj) :
  NoDup (ids us) -> NoDup (ids (filter f us)).
Proof.
  unfold ids. induction us as [|u us IH]; simpl; intros H;
    [constructor|].
  inversion H as [|? ? Hnin Hnd]; subst.
  destruct (f u); simpl; [|now apply IH].
  constructor; [|now apply IH].
  intros Hin. apply Hnin. apply in_map_iff in Hin.
  destruct Hin as (x & Hx & Hin). apply filter_In in Hin.
  apply in_map_iff. exists x. tauto.
Qed.

Lemma NoDup_snoc (A : Type) (l : list A) (x : A) :
  NoDup (l ++ [x]) <-> NoDup l /\ ~ In x l.
Proof.
  split.
  - intros H. apply NoDup_remove in H. rewrite app_nil_r in H. exact H.
  - intros [Hl Hx]. apply NoDup_app; [exact Hl| |].
    + constructor; [intros []|constructor].
    + intros a Ha [<-|[]]. contradiction.
Qed.

Lemma stringify_users_head (us : list jsobj) :
  exists t, stringify_users us = 91%N :: t.
Proof.
  unfold stringify_users. cbn [JSON.stringify].
  change (js "[") with [91%N]. eexists. reflexivity.
Qed.

(** A step keeps the slot in step with a collection that is not empty. *)
Lemma dispatch_keeps_sync (a : action) (p : provider) :
  (users (st p) <> [] -> slot_in_sync p) ->
  users (st (dispatch a p)) <> [] -> slot_in_sync (dispatch a p).
Proof.
  intros Hp Hne. destruct (assigns_users a) eqn:Ea.
  - now apply dispatch_in_sync.
  - assert (Hu : users (userReducer (st p) a) = users (st p))
      by (destruct a; try discriminate; reflexivity).
    unfold slot_in_sync, dispatch in *. cbn [st localStorage] in *.
    rewrite Ea, Hu in *. now apply Hp.
Qed.

Lemma run_actions_app (pre post : list action) (p : provider) :
  run_actions (pre ++ post) p = run_actions post (run_actions pre p).
Proof. unfold run_actions. apply fold_left_app. Qed.

Lemma run_keeps_sync (acts : list action) (p : provider) :
  (users (st p) <> [] -> slot_in_sync p) ->
  users (st (run_actions acts p)) <> [] -> slot_in_sync (run_actions acts p).
Proof.
  revert p. induction acts as [|a acts IH]; intros p Hp; [exact Hp|].
  change (run_actions (a :: acts) p) with (run_actions acts (dispatch a p)).
  apply IH. now apply dispatch_keeps_sync.
Qed.

(** While the collection stays empty nothing is written. *)
Lemma run_empty_storage (acts : list action) (q : provider) :
  (forall acts1 acts2,
      acts = acts1 ++ acts2 -> acts1 <> [] ->
      users (st (run_actions acts1 q)) = []) ->
  localStorage (run_actions acts q) = localStorage q.
Proof.
  revert q. induction acts as [|a acts IH]; intros q H; [reflexivity|].
  change (run_actions (a :: acts) q) with (run_actions acts (dispatch a q)).
  rewrite IH.
  - apply dispatch_empty_storage.
    apply (H [a] acts eq_refl). discriminate.
  - intros acts1 acts2 E Hne.
    apply (H (a :: acts1) acts2); [now rewrite E|discriminate].
Qed.

Section MountFacts.

Variable JSON_parse : jsstring -> res (list jsobj).

(** Mounting over a slot that holds the serialization of a non-empty
    collection which parses back to it. *)
Lemma mount_of_saved (ls : storage) (us : list jsobj) :
  getItem (js "crud-users") ls = Some (stringify_users us) ->
  us <> [] ->
  JSON_parse (stringify_users us) = Ok us ->
  users (st (fst (mount JSON_parse ls))) = us
  /\ snd (mount JSON_parse ls) = []
  /\ slot_in_sync (fst (mount JSON_parse ls)).
Proof.
  intros Hget Hne Hparse. unfold mount. rewrite Hget.
  destruct (stringify_users_head us) as [t Ht].
  rewrite Ht at 1. cbn [truthy]. rewrite Hparse. cbn [fst snd].
  split; [reflexivity|]. split; [reflexivity|].
  apply dispatch_in_sync; [reflexivity|exact Hne].
Qed.

End MountFacts.

End StoreMoreFacts.

Section StoreProperties.

Import UserService UserContext LocalStorage Spec Props Sample.

(** X9.  With valid data [addUser] returns normally and appends exactly
    one record, the data with the generated id (an id in the data is
    overridden) and the creation date; the records already there keep
    their places, the [error] field is cleared, and the slot holds the
    serialization of the new collection. *)
Theorem X9_addUser_appends :
  forall (newId now : jsstring) (userData : jsobj) (p : provider)
         (v : validation),
    validateUser userData = Ok v -> isValid v = true ->
    let newUser :=
      set (js "createdAt") (VStr now) (set (js "id") (VStr newId) userData) in
    let p' := fst (addUser newId now userData p) in
    snd (addUser newId now userData p) = Returned
    /\ users (st p') = users (st p) ++ [newUser]
    /\ get (js "id") newUser = VStr newId
    /\ get (js "createdAt") newUser = VStr now
    /\ (forall k, k <> js "id" -> k <> js "createdAt" ->
        get k newUser = get k userData)
    /\ error (st p') = VNull
    /\ slot_in_sync p'.
Proof.
  intros newId now userData p v Hv Hi newUser p'. subst p'.
  rewrite (valid_addUser newId now userData p Hv Hi). fold newUser.
  cbn [fst snd].
  split; [reflexivity|]. split; [reflexivity|].
  split.
  { unfold newUser. rewrite get_set_other by apply id_createdAt_distinct.
    apply get_set_same. }
  split; [apply get_set_same|].
  split.
  { intros k H1 H2. unfold newUser.
    now rewrite !get_set_other by assumption. }
  split; [reflexivity|].
  apply dispatch_in_sync; [reflexivity|].
  simpl. intros E. now apply app_eq_nil in E.
Qed.

Lemma X9_addUser_appends_witness :
  exists v,
    validateUser validData = Ok v /\ isValid v = true
    /\ List.length (users (st (fst (addUser anId aDate validData
                                      mount_empty)))) = 3%nat
    /\ slot_in_sync (fst (addUser anId aDate validData mount_empty)).
Proof.
  exists {| isValid := true; errors := [] |}.
  assert (Hv : validateUser validData = Ok {| isValid := true; errors := [] |})
    by (vm_compute; reflexivity).
  split; [exact Hv|]. split; [reflexivity|].
  destruct (@X9_addUser_appends anId aDate validData mount_empty _ Hv
              eq_refl)
    as (_ & Hu & _ & _ & _ & _ & Hs).
  split; [|exact Hs].
  rewrite Hu, length_app. reflexivity.
Defined.

(** X10.  After [deleteUser(id)] the collection holds exactly the records
    of before whose id is not [id]: every record with that id is gone,
    duplicates included, and no other record is. *)
Theorem X10_delete_removes_every_match :
  forall (id : jsstring) (p : provider),
    let p' := fst (deleteUser id p) in
    (forall u, In u (users (st p')) <->
               In u (users (st p))
               /\ strict_eq (get (js "id") u) (VStr id) = false)
    /\ no_match id (users (st p'))
    /\ (List.length (users (st p')) <= List.length (users (st p)))%nat.
Proof.
  intros id p p'. subst p'. unfold deleteUser, dispatch. cbn.
  assert (H : forall u,
             In u (filter (fun u0 => negb (strict_eq (get (js "id") u0)
                                             (VStr id))) (users (st p)))
             <-> In u (users (st p))
                 /\ strict_eq (get (js "id") u) (VStr id) = false).
  { intros u. rewrite filter_In, negb_true_iff. tauto. }
  split; [exact H|]. split.
  - intros u Hu. now apply H in Hu.
  - apply filter_length_le.
Qed.

(** X11.  Creating a record and deleting it again by the generated id
    restores the collection, provided no record had that id before. *)
Theorem X11_add_then_delete :
  forall (newId now : jsstring) (userData : jsobj) (p : provider)
         (v : validation),
    validateUser userData = Ok v -> isValid v = true ->
    no_match newId (users (st p)) ->
    users (st (fst (deleteUser newId
                      (fst (addUser newId now userData p)))))
    = users (st p).
Proof.
  intros newId now userData p v Hv Hi Hfresh.
  rewrite (valid_addUser newId now userData p Hv Hi).
  set (newUser := set (js "createdAt") (VStr now)
                    (set (js "id") (VStr newId) userData)).
  change (filter (fun u => negb (strict_eq (get (js "id") u) (VStr newId)))
            (users (st p) ++ [newUser]) = users (st p)).
  rewrite filter_app, (filter_no_match Hfresh). cbn [filter].
  assert (Hid : get (js "id") newUser = VStr newId).
  { unfold newUser. rewrite get_set_other by apply id_createdAt_distinct.
    apply get_set_same. }
  rewrite Hid. cbn [strict_eq]. rewrite jsstring_eqb_refl. cbn [negb].
  apply app_nil_r.
Qed.

Lemma X11_add_then_delete_witness :
  no_match anId (users (st mount_empty))
  /\ users (st (fst (deleteUser anId
                       (fst (addUser anId aDate validData mount_empty)))))
     = users (st mount_empty).
Proof.
  assert (Hf : no_match anId (users (st mount_empty))).
  { intros u [<-|[<-|[]]]; vm_compute; reflexivity. }
  assert (Hv : validateUser validData = Ok {| isValid := true; errors := [] |})
    by (vm_compute; reflexivity).
  split; [exact Hf|].
  exact (@X11_add_then_delete anId aDate validData mount_empty _ Hv eq_refl
           Hf).
Defined.

(** X12.  [updateUser] with valid data leaves the ids of the collection
    as they are, position by position; so it keeps distinct ids distinct,
    and so does [deleteUser]. *)
Theorem X12_update_delete_keep_ids :
  forall (now id : jsstring) (userData : jsobj) (p : provider)
         (v : validation),
    validateUser userData = Ok v -> isValid v = true ->
    ids (users (st (fst (updateUser now id userData p))))
    = ids (users (st p))
    /\ (NoDup (ids (users (st p))) ->
        NoDup (ids (users (st (fst (updateUser now id userData p)))))
        /\ NoDup (ids (users (st (fst (deleteUser id p)))))).
Proof.
  intros now id userData p v Hv Hi.
  assert (Hid : get (js "id")
                  (set (js "updatedAt") (VStr now)
                     (set (js "id") (VStr id) userData)) = VStr id).
  { rewrite get_set_other by apply id_updatedAt_distinct.
    apply get_set_same. }
  assert (E : ids (users (st (fst (updateUser now id userData p))))
              = ids (users (st p))).
  { rewrite (valid_updateUser now id userData p Hv Hi).
    unfold dispatch. cbn [fst st users userReducer].
    rewrite Hid. now apply ids_of_update. }
  split; [exact E|].
  intros Hnd. split; [now rewrite E|].
  unfold deleteUser, dispatch. cbn [fst st users userReducer].
  now apply ids_of_filter_NoDup.
Qed.

Lemma X12_update_delete_keep_ids_witness :
  NoDup (ids (users (st mount_empty)))
  /\ ids (users (st (fst (updateUser aDate (js "2") validData mount_empty))))
     = [VStr (js "1"); VStr (js "2")].
Proof.
  assert (Hv : validateUser validData = Ok {| isValid := true; errors := [] |})
    by (vm_compute; reflexivity).
  assert (Hn : NoDup (ids (users (st mount_empty)))).
  { vm_compute. repeat constructor; simpl; intuition discriminate. }
  split; [exact Hn|].
  rewrite (proj1 (@X12_update_delete_keep_ids aDate (js "2") validData
                    mount_empty _ Hv eq_refl)).
  vm_compute. reflexivity.
Defined.

(** X13.  [addUser] does not look at the ids already in use: after a
    successful create the ids are distinct exactly when they were distinct
    before and the generated id was not among them. *)
Theorem X13_addUser_no_collision_check :
  forall (newId now : jsstring) (userData : jsobj) (p : provider)
         (v : validation),
    validateUser userData = Ok v -> isValid v = true ->
    (NoDup (ids (users (st (fst (addUser newId now userData p)))))
     <-> NoDup (ids (users (st p)))
         /\ ~ In (VStr newId) (ids (users (st p)))).
Proof.
  intros newId now userData p v Hv Hi.
  rewrite (valid_addUser newId now userData p Hv Hi).
  unfold dispatch. cbn [fst st users userReducer].
  unfold ids. rewrite map_app. cbn [map].
  rewrite get_set_other by apply id_createdAt_distinct.
  rewrite get_set_same. apply NoDup_snoc.
Qed.

Lemma X13_addUser_no_collision_check_witness :
  exists v,
    validateUser validData = Ok v /\ isValid v = true
    /\ In (VStr (js "1")) (ids (users (st mount_empty)))
    /\ ~ NoDup (ids (users (st (fst (addUser (js "1") aDate validData
                                       mount_empty))))).
Proof.
  exists {| isValid := true; errors := [] |}.
  assert (Hv : validateUser validData = Ok {| isValid := true; errors := [] |})
    by (vm_compute; reflexivity).
  assert (Hin : In (VStr (js "1")) (ids (users (st mount_empty))))
    by (vm_compute; tauto).
  split; [exact Hv|]. split; [reflexivity|]. split; [exact Hin|].
  intros Hnd.
  apply (@X13_addUser_no_collision_check (js "1") aDate validData
           mount_empty _ Hv eq_refl) in Hnd.
  destruct Hnd as [_ Hnin]. contradiction.
Defined.

(** X14.  Over any run of dispatches from a provider whose slot is in
    step: whenever the collection is not empty the slot holds its
    serialization; and over a stretch of the run through which the
    collection is empty the storage area is not written, so the slot
    still holds the serialization of the collection as it last was when
    not empty.  The slot is never written with an empty array. *)
Theorem X14_slot_keeps_last_collection :
  forall (pre post : list action) (p : provider),
    (users (st p) <> [] -> slot_in_sync p) ->
    (users (st (run_actions (pre ++ post) p)) <> [] ->
     slot_in_sync (run_actions (pre ++ post) p))
    /\ ((forall post1 post2,
           post = post1 ++ post2 -> post1 <> [] ->
           users (st (run_actions (pre ++ post1) p)) = []) ->
        localStorage (run_actions (pre ++ post) p)
        = localStorage (run_actions pre p)
        /\ (users (st (run_actions pre p)) <> [] ->
            getItem (js "crud-users")
              (localStorage (run_actions (pre ++ post) p))
            = Some (stringify_users (users (st (run_actions pre p)))))).
Proof.
  intros pre post p Hp.
  split; [now apply run_keeps_sync|].
  intros Hempty.
  assert (E : localStorage (run_actions (pre ++ post) p)
              = localStorage (run_actions pre p)).
  { rewrite run_actions_app. apply run_empty_storage.
    intros post1 post2 Hpost Hne. rewrite <- run_actions_app.
    now apply (Hempty post1 post2). }
  split; [exact E|].
  intros Hne. rewrite E. now apply (@run_keeps_sync pre p Hp).
Qed.

(** The seed, emptied by two deletes: the slot keeps the one record the
    collection held before the second delete. *)
Lemma X14_slot_keeps_last_collection_witness :
  let pre := [DELETE_USER (js "1")] in
  let post := [DELETE_USER (js "2"); SET_LOADING true] in
  slot_in_sync mount_empty
  /\ users (st (run_actions (pre ++ post) mount_empty)) = []
  /\ List.length (users (st (run_actions pre mount_empty))) = 1%nat
  /\ getItem (js "crud-users")
       (localStorage (run_actions (pre ++ post) mount_empty))
     = Some (stringify_users (users (st (run_actions pre mount_empty)))).
Proof.
  cbv zeta.
  assert (H : slot_in_sync mount_empty)
    by (unfold slot_in_sync; vm_compute; reflexivity).
  split; [exact H|]. split; [reflexivity|]. split; [reflexivity|].
  refine (proj2 (proj2 (@X14_slot_keeps_last_collection
                          [DELETE_USER (js "1")]
                          [DELETE_USER (js "2"); SET_LOADING true]
                          mount_empty (fun _ => H)) _) _).
  - intros post1 post2 E Hne.
    destruct post1 as [|a1 [|a2 [|a3 post1]]].
    + contradiction.
    + injection E as <- _. reflexivity.
    + injection E as <- <- _. reflexivity.
    + discriminate E.
  - vm_compute. discriminate.
Defined.

(** X15.  Reload round trip: a provider mounted over the storage area of
    a provider whose collection is not empty and whose slot is in step
    starts with the same collection, logs nothing, and has its slot in
    step; this for any parser that reads the serialization back. *)
Theorem X15_reload_restores_collection :
  forall (JSON_parse : jsstring -> res (list jsobj)) (p : provider),
    slot_in_sync p ->
    users (st p) <> [] ->
    JSON_parse (stringify_users (users (st p))) = Ok (users (st p)) ->
    users (st (fst (mount JSON_parse (localStorage p)))) = users (st p)
    /\ snd (mount JSON_parse (localStorage p)) = []
    /\ slot_in_sync (fst (mount JSON_parse (localStorage p))).
Proof.
  intros JSON_parse p Hsync Hne Hparse.
  exact (mount_of_saved JSON_parse (localStorage p) Hsync Hne Hparse).
Qed.

Lemma X15_reload_restores_collection_witness :
  let parse := fun _ : jsstring => Ok (users (st mount_empty)) in
  slot_in_sync mount_empty
  /\ users (st (fst (mount parse (localStorage mount_empty))))
     = users (st mount_empty).
Proof.
  cbv zeta.
  assert (Hs : slot_in_sync mount_empty)
    by (unfold slot_in_sync; vm_compute; reflexivity).
  assert (Hne : users (st mount_empty) <> [])
    by (vm_compute; discriminate).
  split; [exact Hs|].
  exact (proj1 (@X15_reload_restores_collection
                  (fun _ => Ok (users (st mount_empty)))
                  mount_empty Hs Hne eq_refl)).
Defined.

(** X16.  What mounting falls back to.  With the slot absent or holding
    the empty string nothing is parsed; with a slot that does not parse
    the error is logged and not thrown.  In both cases the provider starts
    with the seed, and the slot is overwritten with the seed's
    serialization.  With a slot that parses to the empty array the
    collection is empty while the slot holds the seed. *)
Theorem X16_mount_fallbacks :
  forall (JSON_parse : jsstring -> res (list jsobj)) (ls : storage),
    let seed := stringify_users (users initialState) in
    (getItem (js "crud-users") ls = None
     \/ getItem (js "crud-users") ls = Some [] ->
     st (fst (mount JSON_parse ls)) = initialState
     /\ snd (mount JSON_parse ls) = []
     /\ getItem (js "crud-users") (localStorage (fst (mount JSON_parse ls)))
        = Some seed)
    /\ (forall saved e,
          getItem (js "crud-users") ls = Some saved -> saved <> [] ->
          JSON_parse saved = Throw e ->
          st (fst (mount JSON_parse ls)) = initialState
          /\ snd (mount JSON_parse ls) = [e]
          /\ getItem (js "crud-users")
               (localStorage (fst (mount JSON_parse ls))) = Some seed)
    /\ (forall saved,
          getItem (js "crud-users") ls = Some saved -> saved <> [] ->
          JSON_parse saved = Ok [] ->
          users (st (fst (mount JSON_parse ls))) = []
          /\ getItem (js "crud-users")
               (localStorage (fst (mount JSON_parse ls))) = Some seed).
Proof.
  intros JSON_parse ls seed.
  assert (Hseed : getItem (js "crud-users")
                    (save_users (users initialState) ls) = Some seed).
  { unfold save_users. cbn [users initialState List.length Nat.ltb Nat.leb].
    apply getItem_setItem. }
  split.
  { intros [H|H]; unfold mount; rewrite H; cbn [truthy fst snd st localStorage];
      repeat split; try reflexivity; exact Hseed. }
  split.
  { intros saved e Hg Hne Hp. unfold mount. rewrite Hg.
    destruct saved as [|c saved]; [contradiction|].
    cbn [truthy]. rewrite Hp. cbn [fst snd st localStorage].
    repeat split; try reflexivity; exact Hseed. }
  intros saved Hg Hne Hp. unfold mount. rewrite Hg.
  destruct saved as [|c saved]; [contradiction|].
  cbn [truthy]. rewrite Hp. unfold dispatch.
  cbn [fst st localStorage userReducer users assigns_users].
  split; [reflexivity|exact Hseed].
Qed.

Lemma X16_mount_fallbacks_witness :
  let broken := fun _ : jsstring => @Throw (list jsobj) (Error (js "SyntaxError")) in
  let ls := [(js "crud-users", js "{oops")] in
  st (fst (mount broken ls)) = initialState
  /\ snd (mount broken ls) = [Error (js "SyntaxError")]
  /\ getItem (js "crud-users") (localStorage (fst (mount broken ls)))
     = Some (stringify_users (users initialState)).
Proof.
  cbv zeta.
  refine (proj1 (proj2 (X16_mount_fallbacks
                          (fun _ => Throw (Error (js "SyntaxError")))
                          [(js "crud-users", js "{oops")]))
            (js "{oops") (Error (js "SyntaxError")) _ _ eq_refl).
  - vm_compute. reflexivity.
  - vm_compute. discriminate.
Defined.

(** X17.  Deleting what is left of the collection does not outlast a
    reload: when a delete empties a collection whose slot was in step,
    mounting over the storage it leaves brings the collection of before
    the delete back. *)
Theorem X17_emptied_collection_returns_on_reload :
  forall (JSON_parse : jsstring -> res (list jsobj)) (id : jsstring)
         (p : provider),
    slot_in_sync p ->
    users (st p) <> [] ->
    users (st (fst (deleteUser id p))) = [] ->
    JSON_parse (stringify_users (users (st p))) = Ok (users (st p)) ->
    users (st (fst (mount JSON_parse (localStorage (fst (deleteUser id p))))))
    = users (st p).
Proof.
  intros JSON_parse id p Hsync Hne Hempty Hparse.
  unfold deleteUser in *. cbn [fst] in *.
  rewrite (dispatch_empty_storage (DELETE_USER id) p Hempty).
  exact (proj1 (mount_of_saved JSON_parse (localStorage p) Hsync Hne Hparse)).
Qed.

Lemma X17_emptied_collection_returns_on_reload_witness :
  let p1 := fst (deleteUser (js "1") mount_empty) in
  let parse := fun _ : jsstring => Ok (users (st p1)) in
  users (st (fst (deleteUser (js "2") p1))) = []
  /\ List.length
       (users (st (fst (mount parse
                          (localStorage (fst (deleteUser (js "2") p1)))))))
     = 1%nat.
Proof.
  cbv zeta.
  assert (He : users (st (fst (deleteUser (js "2")
                                 (fst (deleteUser (js "1") mount_empty)))))
               = []) by (vm_compute; reflexivity).
  split; [exact He|].
  rewrite (@X17_emptied_collection_returns_on_reload
             (fun _ => Ok (users (st (fst (deleteUser (js "1") mount_empty)))))
             (js "2") (fst (deleteUser (js "1") mount_empty))).
  - vm_compute. reflexivity.
  - unfold slot_in_sync. vm_compute. reflexivity.
  - vm_compute. discriminate.
  - exact He.
  - reflexivity.
Defined.

(** X18.  A create or update that fails validation leaves nothing behind
    once [clearError] is called: on a store that was idle ([loading]
    false, [error] null) the state and the storage area are then exactly
    those of before the failed call. *)
Theorem X18_failed_call_then_clearError :
  forall (newId now id : jsstring) (userData : jsobj) (p : provider)
         (v : validation),
    validateUser userData = Ok v -> isValid v = false ->
    loading (st p) = false -> error (st p) = VNull ->
    clearError (fst (addUser newId now userData p)) = p
    /\ clearError (fst (updateUser now id userData p)) = p.
Proof.
  intros newId now id userData p v Hv Hi Hl He.
  rewrite (invalid_addUser newId now userData p Hv Hi).
  rewrite (invalid_updateUser now id userData p Hv Hi).
  unfold clearError, dispatch. cbn.
  destruct p as [[us ld er cu] ls]. cbn in *. subst. split; reflexivity.
Qed.

Lemma X18_failed_call_then_clearError_witness :
  clearError (fst (addUser anId aDate invalidData mount_empty))
  = mount_empty.
Proof.
  destruct (validateUser invalidData) as [v|e] eqn:Hv;
    [|vm_compute in Hv; discriminate].
  assert (Hi : isValid v = false).
  { vm_compute in Hv. injection Hv as <-. reflexivity. }
  exact (proj1 (@X18_failed_call_then_clearError anId aDate (js "1")
                  invalidData mount_empty v Hv Hi eq_refl eq_refl)).
Defined.

End StoreProperties.

(* ===================================================================== *)
(** ** Further properties: the form engine *)
(* ===================================================================== *)

Section FormMoreFacts.

Import UseForm Spec Props.

Variable validationRules : list (jsstring * list rule).

Lemma jsstring_eq_dec (a b : jsstring) : {a = b} + {a <> b}.
Proof. apply list_eq_dec. apply N.eq_dec. Qed.

Lemma set_keys_NoDup (k : jsstring) (v : value) (o : jsobj) :
  NoDup (keys o) -> NoDup (keys (set k v o)).
Proof.
  unfold keys. induction o as [|[k0 v0] o IH]; simpl; intros H.
  - constructor; [intros []|constructor].
  - inversion H as [|? ? Hnin Hnd]; subst.
    destruct (jsstring_eqb k k0) eqn:E; simpl.
    + now constructor.
    + constructor; [|now apply IH].
      intros Hin. apply (keys_set k0 k v o) in Hin.
      destruct Hin as [->|Hin]; [|contradiction].
      now rewrite jsstring_eqb_refl in E.
Qed.

Lemma set_entries (P : jsstring * value -> Prop) (k : jsstring) (v : value)
    (o : jsobj) :
  P (k, v) -> Forall P o -> Forall P (set k v o).
Proof.
  intros Hv. induction o as [|[k0 v0] o IH]; simpl; intros H.
  - constructor; [exact Hv|constructor].
  - inversion H; subst.
    destruct (jsstring_eqb k k0) eqn:E.
    + apply jsstring_eqb_eq in E. subst k0. now constructor.
    + constructor; auto.
Qed.

Lemma get_In (k : jsstring) (o : jsobj) :
  get k o = prototype k \/ In (k, get k o) o.
Proof.
  induction o as [|[k0 v0] o IH]; simpl; [now left|].
  destruct (jsstring_eqb k k0) eqn:E.
  - apply jsstring_eqb_eq in E. subst k0. right. now left.
  - destruct IH as [H|H]; [now left|right; now right].
Qed.

Lemma inherited_proto (k : jsstring) :
  inherited k = false -> k <> js "__proto__".
Proof. intros H ->. vm_compute in H. discriminate. Qed.

Lemma assign_set (k : jsstring) (v : value) (o : jsobj) :
  k <> js "__proto__" -> assign k v o = set k v o.
Proof.
  intros H. unfold assign. apply jsstring_eqb_neq in H. now rewrite H.
Qed.

Lemma In_get (k : jsstring) (v : value) (o : jsobj) :
  NoDup (keys o) -> In (k, v) o -> get k o = v.
Proof.
  unfold keys. induction o as [|[k0 v0] o IH]; simpl; intros Hnd Hin;
    [contradiction|].
  inversion Hnd as [|? ? Hnin Hnd']; subst.
  destruct Hin as [Hin|Hin].
  - injection Hin as -> ->. now rewrite jsstring_eqb_refl.
  - destruct (jsstring_eqb k k0) eqn:E; [|now apply IH].
    apply jsstring_eqb_eq in E. subst k0. exfalso. apply Hnin.
    apply in_map_iff. now exists (k, v).
Qed.

Lemma rules_in_keys (o : list (jsstring * list rule)) (name : jsstring)
    (rs : list rule) :
  rules_in o name = Some rs -> In name (keys o).
Proof.
  unfold keys. induction o as [|[k r] o IH]; simpl; [discriminate|].
  destruct (jsstring_eqb name k) eqn:E.
  - apply jsstring_eqb_eq in E. subst k. now left.
  - intros H. right. now apply IH.
Qed.

Lemma keys_rules_in (o : list (jsstring * list rule)) (name : jsstring) :
  In name (keys o) -> exists rs, rules_in o name = Some rs.
Proof.
  unfold keys. induction o as [|[k r] o IH]; simpl; [intros []|].
  destruct (jsstring_eqb name k) eqn:E; [eauto|].
  intros [H|H]; [|now apply IH].
  subst k. now rewrite jsstring_eqb_refl in E.
Qed.

Lemma first_error_result (rs : list rule) (v : value) (vals : jsobj)
    (e : value) :
  first_error rs v vals = Ok e -> e = VNull \/ truthy e = true.
Proof.
  induction rs as [|r rs IH]; simpl.
  - intros H. injection H as <-. now left.
  - destruct (r v vals) as [e0|x]; simpl; [|discriminate].
    destruct (truthy e0) eqn:Et; [|exact IH].
    intros H. injection H as <-. now right.
Qed.

Lemma first_error_all_pass (rs : list rule) (v : value) (vals : jsobj) :
  (forall q, In q rs -> passes q v vals) ->
  first_error rs v vals = Ok VNull.
Proof.
  induction rs as [|r rs IH]; simpl; intros H; [reflexivity|].
  destruct (H r (or_introl eq_refl)) as (e & He & Hf).
  rewrite He. simpl. rewrite Hf. apply IH. intros q Hq. apply H. now right.
Qed.

(** What the loop of [validateForm] leaves in its accumulator, no field
    being named [__proto__]. *)
Lemma validate_fields_get (names : list jsstring) (vals acc : jsobj)
    (b : bool) (ne : jsobj) (b' : bool) :
  ~ In (js "__proto__") names ->
  validate_fields validationRules names vals acc b = Ok (ne, b') ->
  forall name,
    (In name names ->
     exists rs e,
       rules_of validationRules name = Some rs
       /\ first_error rs (get name vals) vals = Ok e
       /\ (if truthy e then get name ne = e
           else has_own name ne = has_own name acc
                /\ get name ne = get name acc))
    /\ (~ In name names ->
        has_own name ne = has_own name acc /\ get name ne = get name acc).
Proof.
  revert acc b. induction names as [|f names IH]; intros acc b Hp H name.
  - simpl in H. injection H as <- <-. split; [intros []|now split].
  - assert (Hf : f <> js "__proto__") by (intros E; apply Hp; now left).
    assert (Hp' : ~ In (js "__proto__") names)
      by (intros E; apply Hp; now right).
    simpl in H.
    destruct (rules_of validationRules f) as [rs|] eqn:Er; [|discriminate].
    destruct (first_error rs (get f vals) vals) as [e|x] eqn:Ee;
      [|discriminate].
    simpl in H. rewrite (assign_set _ _ Hf) in H.
    destruct (truthy e) eqn:Et.
    + destruct (IH _ _ Hp' H name) as [Hin Hnin].
      destruct (jsstring_eq_dec name f) as [->|Hne].
      * split; [|intros Hc; exfalso; apply Hc; now left].
        intros _. exists rs, e. split; [exact Er|]. split; [exact Ee|].
        rewrite Et.
        destruct (in_dec jsstring_eq_dec f names) as [Hi|Hi].
        -- destruct (Hin Hi) as (rs' & e' & Er' & Ee' & Hg).
           rewrite Er in Er'. injection Er' as <-.
           rewrite Ee in Ee'. injection Ee' as <-.
           now rewrite Et in Hg.
        -- rewrite (proj2 (Hnin Hi)). apply get_set_same.
      * assert (Hb : jsstring_eqb name f = false)
          by now apply jsstring_eqb_neq.
        split.
        -- intros [Hc|Hi]; [congruence|].
           destruct (Hin Hi) as (rs' & e' & Er' & Ee' & Hg).
           exists rs', e'. split; [exact Er'|]. split; [exact Ee'|].
           rewrite has_own_set, Hb, get_set_other in Hg by exact Hne.
           exact Hg.
        -- intros Hc.
           destruct (Hnin (fun Hi => Hc (or_intror Hi))) as [Ho Hg].
           rewrite has_own_set, Hb in Ho.
           rewrite get_set_other in Hg by exact Hne. now split.
    + destruct (IH _ _ Hp' H name) as [Hin Hnin].
      destruct (jsstring_eq_dec name f) as [->|Hne].
      * split; [|intros Hc; exfalso; apply Hc; now left].
        intros _. exists rs, e. split; [exact Er|]. split; [exact Ee|].
        rewrite Et.
        destruct (in_dec jsstring_eq_dec f names) as [Hi|Hi].
        -- destruct (Hin Hi) as (rs' & e' & Er' & Ee' & Hg).
           rewrite Er in Er'. injection Er' as <-.
           rewrite Ee in Ee'. injection Ee' as <-.
           now rewrite Et in Hg.
        -- exact (Hnin Hi).
      * split.
        -- intros [Hc|Hi]; [congruence|]. exact (Hin Hi).
        -- intros Hc. apply Hnin. intros Hi. apply Hc. now right.
Qed.

Lemma validate_fields_flag (names : list jsstring) (vals acc : jsobj)
    (b : bool) (ne : jsobj) (b' : bool) :
  ~ In (js "__proto__") names ->
  validate_fields validationRules names vals acc b = Ok (ne, b') ->
  (b = true <-> acc = []) -> (b' = true <-> ne = []).
Proof.
  revert acc b. induction names as [|f names IH]; intros acc b Hp H Hb.
  - simpl in H. injection H as <- <-. exact Hb.
  - assert (Hf : f <> js "__proto__") by (intros E; apply Hp; now left).
    assert (Hp' : ~ In (js "__proto__") names)
      by (intros E; apply Hp; now right).
    simpl in H.
    destruct (rules_of validationRules f) as [rs|]; [|discriminate].
    destruct (first_error rs (get f vals) vals) as [e|x]; [|discriminate].
    simpl in H. rewrite (assign_set _ _ Hf) in H. destruct (truthy e).
    + apply (IH _ _ Hp' H). split; [discriminate|].
      destruct acc as [|[k0 v0] acc]; simpl; [discriminate|].
      destruct (jsstring_eqb f k0); discriminate.
    + exact (IH _ _ Hp' H Hb).
Qed.

Lemma assign_keys_NoDup (k : jsstring) (v : value) (o : jsobj) :
  NoDup (keys o) -> NoDup (keys (assign k v o)).
Proof.
  unfold assign.
  destruct (jsstring_eqb k (js "__proto__") && negb (has_own k o));
    [trivial|apply set_keys_NoDup].
Qed.

Lemma assign_entries (P : jsstring * value -> Prop) (k : jsstring)
    (v : value) (o : jsobj) :
  P (k, v) -> Forall P o -> Forall P (assign k v o).
Proof.
  unfold assign.
  destruct (jsstring_eqb k (js "__proto__") && negb (has_own k o));
    [trivial|apply set_entries].
Qed.

Lemma validate_fields_in_order (names : list jsstring) (vals acc : jsobj)
    (b : bool) (ne : jsobj) (b' : bool) :
  validate_fields validationRules names vals acc b = Ok (ne, b') ->
  errors_in_order validationRules acc ->
  errors_in_order validationRules ne.
Proof.
  revert acc b. induction names as [|f names IH]; intros acc b H Hacc.
  - simpl in H. now injection H as <- <-.
  - simpl in H.
    destruct (rules_of validationRules f) as [rs|] eqn:Er; [|discriminate].
    destruct (first_error rs (get f vals) vals) as [e|x] eqn:Ee;
      [|discriminate].
    simpl in H. destruct (truthy e) eqn:Et; [|exact (IH _ _ H Hacc)].
    apply (IH _ _ H). destruct Hacc as [Hnd Hall]. split.
    + now apply assign_keys_NoDup.
    + apply assign_entries; [|exact Hall]. simpl. right. split.
      * exact Et.
      * exact (rules_in_keys _ _ Er).
Qed.

(** [touched] after the [reduce] of the handler. *)
Lemma allTouched_facts (name : jsstring) :
  ~ In (js "__proto__") (keys validationRules) ->
  (In name (keys validationRules) ->
   has_own name (allTouched validationRules) = true
   /\ get name (allTouched validationRules) = VBool true)
  /\ (~ In name (keys validationRules) ->
      has_own name (allTouched validationRules) = false).
Proof.
  unfold allTouched.
  assert (H : forall ks acc,
             ~ In (js "__proto__") ks ->
             (In name ks ->
              has_own name
                (fold_left (fun a key => assign key (VBool true) a) ks acc)
              = true
              /\ get name
                   (fold_left (fun a key => assign key (VBool true) a) ks acc)
                 = VBool true)
             /\ (~ In name ks ->
                 has_own name
                   (fold_left (fun a key => assign key (VBool true) a) ks acc)
                 = has_own name acc
                 /\ get name
                      (fold_left (fun a key => assign key (VBool true) a)
                         ks acc)
                    = get name acc)).
  { induction ks as [|k ks IH]; intros acc Hp; simpl.
    - split; [intros []|now split].
    - assert (Hk : k <> js "__proto__") by (intros E; apply Hp; now left).
      assert (Hp' : ~ In (js "__proto__") ks)
        by (intros E; apply Hp; now right).
      rewrite (assign_set _ _ Hk).
      destruct (IH (set k (VBool true) acc) Hp') as [Hin Hnin].
      destruct (in_dec jsstring_eq_dec name ks) as [Hi|Hi].
      + split; [intros _; exact (Hin Hi)|].
        intros Hc. exfalso. apply Hc. now right.
      + destruct (Hnin Hi) as [Ho Hg]. rewrite Ho, Hg, has_own_set.
        destruct (jsstring_eq_dec name k) as [->|Hne].
        * split; [|intros Hc; exfalso; apply Hc; now left].
          intros _. rewrite jsstring_eqb_refl, get_set_same. now split.
        * split; [intros [Hc|Hc]; [congruence|contradiction]|].
          intros _. apply jsstring_eqb_neq in Hne as Hb. rewrite Hb.
          rewrite get_set_other by exact Hne. now split. }
  intros Hp. destruct (H (keys validationRules) [] Hp) as [Hin Hnin].
  split; [exact Hin|]. intros Hi. exact (proj1 (Hnin Hi)).
Qed.

End FormMoreFacts.

Section FormProperties.

Import UseForm Spec Props Sample.
Import UseForm.ValidationRules.

Lemma setValue_facts (name : jsstring) (v : value) (s : form) :
  get name (values (setValue name v s)) = v
  /\ (forall k, k <> name ->
      get k (values (setValue name v s)) = get k (values s)
      /\ get k (errors (setValue name v s)) = get k (errors s))
  /\ truthy (get name (errors (setValue name v s))) = false
  /\ touched (setValue name v s) = touched s
  /\ isSubmitting (setValue name v s) = isSubmitting s.
Proof.
  unfold setValue.
  destruct (truthy (get name (errors s))) eqn:E;
    cbn [values errors touched isSubmitting setValues setErrors].
  - rewrite !get_set_same. repeat split; try reflexivity.
    + now apply get_set_other.
    + now apply get_set_other.
  - rewrite get_set_same, E. repeat split; try reflexivity.
    now apply get_set_other.
Qed.

(** X19.  [setValue] stores the value under the field and touches no
    other value, no other error, and neither [touched] nor the submitting
    flag; it runs no rule: whatever the value, the field's recorded error
    is falsy afterwards and [getFieldProps] hands none out. *)
Theorem X19_setValue_clears_without_validating :
  forall (name : jsstring) (v : value) (s : form),
    let s' := setValue name v s in
    get name (values s') = v
    /\ (forall k, k <> name ->
        get k (values s') = get k (values s)
        /\ get k (errors s') = get k (errors s))
    /\ truthy (get name (errors s')) = false
    /\ truthy (FieldProps.error (getFieldProps name s')) = false
    /\ touched s' = touched s
    /\ isSubmitting s' = isSubmitting s.
Proof.
  intros name v s s'. subst s'.
  destruct (setValue_facts name v s) as (Hv & Hk & He & Ht & Hs).
  split; [exact Hv|]. split; [exact Hk|]. split; [exact He|].
  split; [|split; assumption].
  unfold getFieldProps. cbn [FieldProps.error].
  destruct (truthy (get name (touched (setValue name v s))));
    [exact He|reflexivity].
Qed.

Lemma X19_setValue_clears_without_validating_witness :
  let s := setErrors (set (js "email") (VStr (js "Email inválido")))
             (init (UserPage.initialValues None)) in
  js "name" <> js "email"
  /\ get (js "email") (errors (setValue (js "name") (VStr (js "Ana")) s))
     = VStr (js "Email inválido")
  /\ truthy (get (js "email")
               (errors (setValue (js "email") (VStr (js "bad")) s)))
     = false.
Proof.
  cbv zeta.
  assert (Hne : js "email" <> js "name") by (vm_compute; discriminate).
  split; [vm_compute; discriminate|]. split.
  - destruct (X19_setValue_clears_without_validating (js "name")
                (VStr (js "Ana"))
                (setErrors (set (js "email") (VStr (js "Email inválido")))
                   (init (UserPage.initialValues None))))
      as (_ & Hk & _).
    rewrite (proj2 (Hk (js "email") Hne)). reflexivity.
  - exact (proj1 (proj2 (proj2
             (X19_setValue_clears_without_validating (js "email")
                (VStr (js "bad"))
                (setErrors (set (js "email") (VStr (js "Email inválido")))
                   (init (UserPage.initialValues None))))))).
Defined.

(** X20.  When [validateForm] returns, no field with rules being named
    [__proto__], the errors it records are its result and replace those
    of before: a field with rules has the first truthy answer of its rules
    recorded, and no entry when there is none; a field without rules has
    no entry; the flag returned is [true] exactly when nothing is
    recorded.  The rules of a field are run on what [values[name]] reads,
    which for a name the values lack is what [Object.prototype]
    provides. *)
Theorem X20_validateForm_result :
  forall (rules : list (jsstring * list rule)) (s : form)
         (newErrors : jsobj) (ok : bool),
    ~ In (js "__proto__") (keys rules) ->
    snd (validateForm rules s) = Ok (newErrors, ok) ->
    errors (fst (validateForm rules s)) = newErrors
    /\ values (fst (validateForm rules s)) = values s
    /\ (ok = true <-> newErrors = [])
    /\ (forall name,
          In name (keys rules) ->
          exists rs e,
            rules_of rules name = Some rs
            /\ first_error rs (get name (values s)) (values s) = Ok e
            /\ (if truthy e then get name newErrors = e
                else has_own name newErrors = false))
    /\ (forall name, ~ In name (keys rules) -> has_own name newErrors = false).
Proof.
  intros rules s newErrors ok Hp H.
  rewrite (validateForm_result rules s H). cbn [fst errors values setErrors].
  split; [reflexivity|]. split; [reflexivity|].
  unfold validateForm in H.
  destruct (validate_fields rules (keys rules) (values s) [] true)
    as [[ne b]|e] eqn:E; [|discriminate].
  cbn in H. injection H as -> ->.
  split; [apply (@validate_fields_flag rules _ _ _ _ _ _ Hp E); tauto|].
  split.
  - intros name Hn.
    destruct (proj1 (@validate_fields_get rules _ _ _ _ _ _ Hp E name) Hn)
      as (rs & e & Hr & He & Hg).
    exists rs, e. split; [exact Hr|]. split; [exact He|].
    destruct (truthy e); [exact Hg|exact (proj1 Hg)].
  - intros name Hn.
    exact (proj1 (proj2 (@validate_fields_get rules _ _ _ _ _ _ Hp E name)
                    Hn)).
Qed.

Lemma X20_validateForm_result_witness :
  let s := init (UserPage.initialValues None) in
  ~ In (js "__proto__") (keys UserPage.formValidationRules)
  /\ exists newErrors,
       snd (validateForm UserPage.formValidationRules s)
       = Ok (newErrors, false)
       /\ errors (fst (validateForm UserPage.formValidationRules s))
          = newErrors
       /\ keys newErrors = [js "name"; js "email"; js "phone"].
Proof.
  cbv zeta.
  assert (Hp : ~ In (js "__proto__") (keys UserPage.formValidationRules))
    by (vm_compute; intuition discriminate).
  split; [exact Hp|].
  destruct (snd (validateForm UserPage.formValidationRules
                   (init (UserPage.initialValues None))))
    as [[ne b]|e] eqn:E; [|vm_compute in E; discriminate].
  assert (Hb : b = false) by (vm_compute in E; now injection E).
  subst b. exists ne. split; [reflexivity|].
  split.
  - exact (proj1 (@X20_validateForm_result UserPage.formValidationRules
                    (init (UserPage.initialValues None)) ne false Hp E)).
  - vm_compute in E. injection E as <-. reflexivity.
Defined.

(** X21.  A submit that fails validation, no field with rules being named
    [__proto__], leaves [touched] holding exactly the fields with rules:
    each of them is marked, so [getFieldProps] hands out whatever error
    validation recorded for it; a mark on a field without rules is
    dropped, and such a field is handed [null] unless its name is one
    every object inherits. *)
Theorem X21_failed_submit_touches_ruled_fields :
  forall (rules : list (jsstring * list rule)) (onSubmit : callback)
         (s : form) (newErrors : jsobj),
    ~ In (js "__proto__") (keys rules) ->
    snd (validateForm rules s) = Ok (newErrors, false) ->
    let s' := final (handleSubmit rules onSubmit s) in
    errors s' = newErrors
    /\ (forall name,
          In name (keys rules) ->
          is_touched name s' = true
          /\ get name (touched s') = VBool true
          /\ FieldProps.error (getFieldProps name s') = get name newErrors)
    /\ (forall name,
          ~ In name (keys rules) ->
          is_touched name s' = false
          /\ (inherited name = false ->
              FieldProps.error (getFieldProps name s') = VNull)).
Proof.
  intros rules onSubmit s newErrors Hp Hv s'. subst s'. unfold handleSubmit.
  set (s1 := setTouched (fun _ => allTouched rules) s).
  rewrite <- (validateForm_reads_values rules s1 s eq_refl) in Hv.
  rewrite (validateForm_result rules s1 Hv). subst s1.
  cbn [negb final errors setErrors touched setTouched].
  split; [reflexivity|].
  split; intros name Hn; unfold is_touched, getFieldProps;
    cbn [FieldProps.error touched errors setErrors setTouched].
  - destruct (proj1 (@allTouched_facts rules name Hp) Hn) as [Ho Hg].
    rewrite Ho, Hg. cbn [truthy andb]. auto.
  - pose proof (proj2 (@allTouched_facts rules name Hp) Hn) as Ho.
    rewrite Ho. split; [reflexivity|]. intros Hi.
    now rewrite (get_absent _ _ Ho), prototype_truthy, Hi.
Qed.

Lemma X21_failed_submit_touches_ruled_fields_witness :
  let s := setTouched (set (js "password") (VBool true))
             (init (UserPage.initialValues None)) in
  let s' := final (handleSubmit UserPage.formValidationRules
                     (fun _ f => (f, Fulfilled)) s) in
  ~ In (js "__proto__") (keys UserPage.formValidationRules)
  /\ is_touched (js "password") s = true
  /\ is_touched (js "password") s' = false
  /\ get (js "email") (touched s') = VBool true.
Proof.
  cbv zeta.
  assert (Hp : ~ In (js "__proto__") (keys UserPage.formValidationRules))
    by (vm_compute; intuition discriminate).
  split; [exact Hp|].
  destruct (snd (validateForm UserPage.formValidationRules
                   (setTouched (set (js "password") (VBool true))
                      (init (UserPage.initialValues None)))))
    as [[ne b]|e] eqn:E; [|vm_compute in E; discriminate].
  assert (Hb : b = false) by (vm_compute in E; now injection E).
  subst b.
  destruct (@X21_failed_submit_touches_ruled_fields
              UserPage.formValidationRules (fun _ f => (f, Fulfilled))
              _ ne Hp E) as (_ & Hin & Hout).
  split; [reflexivity|]. split.
  - apply Hout. vm_compute. intuition discriminate.
  - apply Hin. vm_compute. tauto.
Defined.

Lemma errors_in_order_flags (rules : list (jsstring * list rule))
    (s : form) :
  (forall k, In k (keys rules) -> inherited k = false) ->
  errors_in_order rules (errors s) ->
  hasErrors s = negb (isValid rules s).
Proof.
  intros Hplain [Hnd Hall]. unfold hasErrors, isValid.
  destruct (existsb (fun kv => negb (strict_eq (snd kv) VNull)) (errors s))
    eqn:Ex.
  - apply existsb_exists in Ex. destruct Ex as ([k v] & Hin & Hv).
    cbn [snd] in Hv. apply negb_true_iff in Hv.
    rewrite Forall_forall in Hall. destruct (Hall _ Hin) as [Hn|[Ht Hk]];
      cbn [fst snd] in *; [subst v; discriminate|].
    symmetry. apply negb_true_iff. apply orb_false_iff. split.
    + destruct (keys rules); [contradiction|reflexivity].
    + destruct (forallb (fun key => negb (truthy (get key (errors s))))
                  (keys rules)) eqn:Ef; [|reflexivity].
      rewrite forallb_forall in Ef. specialize (Ef k Hk).
      rewrite (@In_get k v _ Hnd Hin), Ht in Ef. discriminate.
  - symmetry. apply negb_false_iff. apply orb_true_iff. right.
    apply forallb_forall. intros k Hk. apply negb_true_iff.
    destruct (get_In k (errors s)) as [->|Hin].
    { now rewrite prototype_truthy, (Hplain k Hk). }
    destruct (truthy (get k (errors s))) eqn:Et; [|reflexivity].
    assert (Hc : existsb (fun kv => negb (strict_eq (snd kv) VNull))
                   (errors s) = true); [|congruence].
    apply existsb_exists. exists (k, get k (errors s)).
    split; [exact Hin|]. cbn [snd].
    destruct (get k (errors s)); try discriminate; reflexivity.
Qed.

Lemma setValue_in_order (rules : list (jsstring * list rule))
    (name : jsstring) (v : value) (s : form) :
  errors_in_order rules (errors s) ->
  errors_in_order rules (errors (setValue name v s)).
Proof.
  intros [Hnd Hall]. unfold setValue.
  destruct (truthy (get name (errors s))) eqn:E;
    cbn [errors setErrors setValues]; [|now split].
  split; [now apply set_keys_NoDup|].
  apply set_entries; [|exact Hall]. cbn [fst snd]. now left.
Qed.

Lemma validateField_in_order (rules : list (jsstring * list rule))
    (name : jsstring) (v : value) (s : form) :
  errors_in_order rules (errors s) ->
  errors_in_order rules (errors (fst (validateField rules name v s))).
Proof.
  intros [Hnd Hall]. unfold validateField.
  destruct (rules_of rules name) as [rs|] eqn:Er.
  2:{ destruct (negb (truthy (prototype name))); now split. }
  destruct (first_error rs v (values s)) as [e|x] eqn:Ee; [|now split].
  cbn [fst errors setErrors].
  split; [now apply set_keys_NoDup|].
  apply set_entries; [|exact Hall]. cbn [fst snd].
  destruct (@first_error_result _ _ _ _ Ee) as [->|Ht]; [now left|].
  right. split; [exact Ht|exact (@rules_in_keys _ _ _ Er)].
Qed.

Lemma handleBlur_in_order (rules : list (jsstring * list rule))
    (name : jsstring) (s : form) :
  errors_in_order rules (errors s) ->
  errors_in_order rules (errors (fst (handleBlur rules name s))).
Proof.
  intros H. unfold handleBlur.
  pose proof (@validateField_in_order rules name (get name (values s))
                (setTouched (set name (VBool true)) s) H) as Hv.
  destruct (validateField rules name (get name (values s))
              (setTouched (set name (VBool true)) s)) as [s2 [u|x]];
    cbn [fst] in Hv;
    destruct (rules_of rules name) as [rs|];
    try destruct (truthy (prototype name)); cbn [fst]; assumption.
Qed.

Lemma validateForm_in_order (rules : list (jsstring * list rule))
    (s : form) :
  errors_in_order rules (errors s) ->
  errors_in_order rules (errors (fst (validateForm rules s))).
Proof.
  intros H. unfold validateForm.
  destruct (validate_fields rules (keys rules) (values s) [] true)
    as [[ne b]|x] eqn:E; [|exact H].
  cbn [fst errors setErrors].
  apply (@validate_fields_in_order rules _ _ _ _ _ _ E).
  split; [constructor|constructor].
Qed.

Lemma run_form_op_in_order (initialValues : jsobj)
    (rules : list (jsstring * list rule)) (o : form_op) (s : form) :
  errors_in_order rules (errors s) ->
  errors_in_order rules (errors (run_form_op initialValues rules o s)).
Proof.
  intros H. destruct o as [name v|e|name|name v| | |reset o]; cbn [run_form_op].
  - now apply setValue_in_order.
  - now apply setValue_in_order.
  - now apply handleBlur_in_order.
  - now apply validateField_in_order.
  - now apply validateForm_in_order.
  - split; constructor.
  - unfold handleSubmit.
    set (s1 := setTouched (fun _ => allTouched rules) s).
    pose proof (@validateForm_in_order rules s1 H) as Hv.
    destruct (validateForm rules s1) as [s2 [[ne b]|x]]; cbn [fst] in Hv;
      [|exact Hv].
    destruct b; cbn [negb final]; [|exact Hv].
    destruct reset, o; cbn [final errors setIsSubmitting resetForm
                             setTouched setErrors setValues];
      try exact Hv; split; constructor.
Qed.

(** X22.  When no field with rules bears a name objects inherit from
    [Object.prototype], then from the initial state through any run of
    the hook's operations, on fields of any name, the two flags a view
    disables its buttons with never disagree: [hasErrors] is the negation
    of [isValid]. *)
Theorem X22_hasErrors_is_not_isValid :
  forall (initialValues : jsobj) (rules : list (jsstring * list rule))
         (ops : list form_op),
    (forall k, In k (keys rules) -> inherited k = false) ->
    let s := run_form_ops initialValues rules ops in
    errors_in_order rules (errors s)
    /\ hasErrors s = negb (isValid rules s).
Proof.
  intros initialValues rules ops Hplain s.
  assert (H : errors_in_order rules (errors s)).
  { subst s. unfold run_form_ops.
    assert (G : forall s0, errors_in_order rules (errors s0) ->
                errors_in_order rules
                  (errors (fold_left
                             (fun s1 o => run_form_op initialValues rules o s1)
                             ops s0))).
    { induction ops as [|o ops IH]; intros s0 H0; simpl; [exact H0|].
      apply IH. now apply run_form_op_in_order. }
    apply G. split; constructor. }
  split; [exact H|now apply errors_in_order_flags].
Qed.

(** A run that types into a field named [constructor] along the way. *)
Lemma X22_hasErrors_is_not_isValid_witness :
  let ops := [ DoBlur (js "email");
               DoSetValue (js "constructor") (VStr (js "x"));
               DoSetValue (js "name") (VStr (js "Ana")) ] in
  let s := run_form_ops (UserPage.initialValues None)
             UserPage.formValidationRules ops in
  (forall k, In k (keys UserPage.formValidationRules) -> inherited k = false)
  /\ has_own (js "constructor") (errors s) = true
  /\ hasErrors s = true
  /\ isValid UserPage.formValidationRules s = false.
Proof.
  cbv zeta.
  assert (Hp : forall k, In k (keys UserPage.formValidationRules) ->
                         inherited k = false).
  { intros k [<-|[<-|[<-|[]]]]; reflexivity. }
  split; [exact Hp|]. split; [reflexivity|].
  pose proof (proj2 (@X22_hasErrors_is_not_isValid
                       (UserPage.initialValues None)
                       UserPage.formValidationRules
                       [ DoBlur (js "email");
                         DoSetValue (js "constructor") (VStr (js "x"));
                         DoSetValue (js "name") (VStr (js "Ana")) ] Hp))
    as H.
  cbv zeta in H.
  assert (He : hasErrors
                 (run_form_ops (UserPage.initialValues None)
                    UserPage.formValidationRules
                    [ DoBlur (js "email");
                      DoSetValue (js "constructor") (VStr (js "x"));
                      DoSetValue (js "name") (VStr (js "Ana")) ]) = true)
    by reflexivity.
  split; [exact He|]. rewrite He in H.
  now destruct (isValid UserPage.formValidationRules _).
Defined.

(** X23.  [handleBlur] on a field whose rules all pass records [null] for
    it, whatever was recorded before, so that [getFieldProps] hands out no
    error for the field. *)
Theorem X23_blur_passing_clears :
  forall (rules : list (jsstring * list rule)) (name : jsstring) (s : form)
         (rs : list rule),
    rules_of rules name = Some rs ->
    (forall q, In q rs -> passes q (get name (values s)) (values s)) ->
    let s' := fst (handleBlur rules name s) in
    snd (handleBlur rules name s) = Ok tt
    /\ get name (errors s') = VNull
    /\ FieldProps.error (getFieldProps name s') = VNull
    /\ (forall k, k <> name -> get k (errors s') = get k (errors s)).
Proof.
  intros rules name s rs Hr Hp s'. subst s'.
  unfold handleBlur, validateField. rewrite Hr.
  cbn [values setTouched]. rewrite (@first_error_all_pass rs _ _ Hp).
  cbn [fst snd errors setErrors setTouched].
  split; [reflexivity|]. split; [apply get_set_same|].
  split.
  - unfold getFieldProps.
    cbn [FieldProps.error touched errors setErrors setTouched].
    rewrite !get_set_same. reflexivity.
  - intros k Hk. now apply get_set_other.
Qed.

Lemma X23_blur_passing_clears_witness :
  let rules := UserPage.formValidationRules in
  let s := setErrors (set (js "email") (VStr (js "Email inválido")))
             (init (set (js "email") (VStr (js "ana@x.com"))
                      (UserPage.initialValues None))) in
  truthy (get (js "email") (errors s)) = true
  /\ get (js "email") (errors (fst (handleBlur rules (js "email") s)))
     = VNull.
Proof.
  cbv zeta. split; [reflexivity|].
  refine (proj1 (proj2 (@X23_blur_passing_clears
                          UserPage.formValidationRules (js "email") _
                          [required; email] _ _))).
  - reflexivity.
  - intros q [<-|[<-|[]]]; exists VNull; split; vm_compute; reflexivity.
Defined.

(** X24.  [handleBlur] marks its field in every case (rules or none,
    passing, failing or throwing), keeps every mark already there and
    never changes a value.  On a field the rules do not have, it leaves
    the recorded errors as they are, and it returns unless the name is one
    objects inherit from [Object.prototype]: there it finds a built-in in
    place of the rules and throws a [TypeError].  Whenever it throws, the
    recorded errors are as before. *)
Theorem X24_blur_marks_and_keeps :
  forall (rules : list (jsstring * list rule)) (name : jsstring) (s : form),
    let s' := fst (handleBlur rules name s) in
    is_touched name s' = true
    /\ (forall k, is_touched k s = true -> is_touched k s' = true)
    /\ values s' = values s
    /\ (rules_of rules name = None ->
        errors s' = errors s
        /\ snd (handleBlur rules name s)
           = if inherited name then Throw TypeError else Ok tt)
    /\ (forall e, snd (handleBlur rules name s) = Throw e ->
                  errors s' = errors s).
Proof.
  intros rules name s s'. subst s'.
  assert (Ht : touched (fst (handleBlur rules name s))
               = set name (VBool true) (touched s)
               /\ values (fst (handleBlur rules name s)) = values s
               /\ (rules_of rules name = None ->
                   errors (fst (handleBlur rules name s)) = errors s
                   /\ snd (handleBlur rules name s)
                      = if inherited name then Throw TypeError else Ok tt)
               /\ (forall e, snd (handleBlur rules name s) = Throw e ->
                             errors (fst (handleBlur rules name s))
                             = errors s)).
  { unfold handleBlur, validateField. rewrite prototype_truthy.
    destruct (rules_of rules name) as [rs|] eqn:Er.
    - cbn [values setTouched].
      destruct (first_error rs (get name (values s)) (values s))
        as [e0|x]; cbn [fst snd touched values errors setTouched setErrors].
      + repeat split; try reflexivity; try discriminate.
      + repeat split; try reflexivity; try discriminate.
    - destruct (inherited name);
        cbn [negb fst snd touched values errors setTouched];
        repeat split; try reflexivity; try discriminate. }
  destruct Ht as (Ht & Hv & Hn & He). unfold is_touched. rewrite Ht.
  split; [now rewrite has_own_set, jsstring_eqb_refl, get_set_same|].
  split; [|tauto].
  intros k Hk. rewrite has_own_set.
  destruct (jsstring_eq_dec k name) as [->|Hne].
  - now rewrite jsstring_eqb_refl, get_set_same.
  - rewrite get_set_other by exact Hne.
    apply andb_true_iff in Hk. destruct Hk as [Ho Hg].
    rewrite Ho, Hg. now rewrite orb_true_r.
Qed.

Lemma X24_blur_marks_and_keeps_witness :
  let rules := UserPage.formValidationRules in
  let s := init (UserPage.initialValues None) in
  (rules_of rules (js "password") = None
   /\ is_touched (js "password") (fst (handleBlur rules (js "password") s))
      = true
   /\ errors (fst (handleBlur rules (js "password") s)) = errors s
   /\ snd (handleBlur rules (js "password") s) = Ok tt)
  /\ (rules_of rules (js "toString") = None
      /\ is_touched (js "toString") (fst (handleBlur rules (js "toString") s))
         = true
      /\ snd (handleBlur rules (js "toString") s) = Throw TypeError).
Proof.
  cbv zeta. split.
  - assert (Hr : rules_of UserPage.formValidationRules (js "password") = None)
      by (vm_compute; reflexivity).
    destruct (X24_blur_marks_and_keeps UserPage.formValidationRules
                (js "password") (init (UserPage.initialValues None)))
      as (Ht & _ & _ & Hn & _).
    split; [exact Hr|]. split; [exact Ht|]. exact (Hn Hr).
  - assert (Hr : rules_of UserPage.formValidationRules (js "toString") = None)
      by (vm_compute; reflexivity).
    destruct (X24_blur_marks_and_keeps UserPage.formValidationRules
                (js "toString") (init (UserPage.initialValues None)))
      as (Ht & _ & _ & Hn & _).
    split; [exact Hr|]. split; [exact Ht|]. exact (proj2 (Hn Hr)).
Defined.

(** X25.  [handleChange] stores the text of a text input and the checked
    flag of a checkbox, and clears the field's error like [setValue]; an
    unchecked checkbox stores [false], which [getFieldProps] hands out as
    the empty string and [required] rejects. *)
Theorem X25_handleChange_by_input_type :
  forall (e : target) (s : form),
    let s' := handleChange e s in
    let name := target_name e in
    truthy (get name (errors s')) = false
    /\ (target_type e = js "checkbox" ->
        get name (values s') = VBool (target_checked e)
        /\ FieldProps.value (getFieldProps name s')
           = (if target_checked e then VBool true else VStr [])
        /\ (target_checked e = false ->
            required (get name (values s')) (values s')
            = Ok (VStr (js "Este campo é obrigatório"))))
    /\ (target_type e <> js "checkbox" ->
        get name (values s') = VStr (target_value e)
        /\ FieldProps.value (getFieldProps name s') = VStr (target_value e)).
Proof.
  intros e s s' name. subst s' name. unfold handleChange.
  set (v := if jsstring_eqb (target_type e) (js "checkbox")
            then VBool (target_checked e) else VStr (target_value e)).
  destruct (setValue_facts (target_name e) v s) as (Hv & _ & He & _).
  split; [exact He|].
  unfold getFieldProps. cbn [FieldProps.value]. rewrite Hv.
  split; intros Ht.
  - assert (E : v = VBool (target_checked e)).
    { subst v. now rewrite (proj2 (jsstring_eqb_eq _ _) Ht). }
    rewrite E. split; [reflexivity|]. split.
    + destruct (target_checked e); reflexivity.
    + intros ->. reflexivity.
  - assert (E : v = VStr (target_value e)).
    { subst v. now rewrite (proj2 (jsstring_eqb_neq _ _) Ht). }
    rewrite E. split; [reflexivity|].
    destruct (target_value e); reflexivity.
Qed.

End FormProperties.

Section ChangeWitness.

Import UseForm Spec Props.
Import UseForm.ValidationRules.

Lemma X25_handleChange_by_input_type_witness :
  let e := {| target_name := js "terms"; target_value := js "on";
              target_type := js "checkbox"; target_checked := false |} in
  let s' := handleChange e (init []) in
  target_type e = js "checkbox"
  /\ get (js "terms") (values s') = VBool false
  /\ FieldProps.value (getFieldProps (js "terms") s') = VStr [].
Proof.
  cbv zeta.
  destruct (X25_handleChange_by_input_type
              {| target_name := js "terms"; target_value := js "on";
                 target_type := js "checkbox"; target_checked := false |}
              (init [])) as (_ & Hc & _).
  destruct (Hc eq_refl) as (Hv & Hp & _).
  split; [reflexivity|]. split; [exact Hv|exact Hp].
Defined.

End ChangeWitness.

(* ===================================================================== *)
(** ** Further properties: the pages *)
(* ===================================================================== *)

Section PageFacts.

Import UseForm Spec Props UserPage.
Import UseForm.ValidationRules.

Lemma existsb_type (type : jsstring) (l : list value) :
  existsb (fun t => strict_eq t (VStr type)) l = true <-> In (VStr type) l.
Proof.
  rewrite existsb_exists. split.
  - intros (t & Hin & Ht). apply strict_eq_VStr in Ht. now subst.
  - intros Hin. exists (VStr type). split; [exact Hin|].
    now apply strict_eq_VStr.
Qed.

Lemma filter_type_In (type : jsstring) (l : list value) (t : value) :
  In t (filter (fun x => negb (strict_eq x (VStr type))) l)
  <-> In t l /\ t <> VStr type.
Proof.
  rewrite filter_In, negb_true_iff. split; intros [Hin H]; split;
    try assumption.
  - intros ->. simpl in H. now rewrite jsstring_eqb_refl in H.
  - destruct (strict_eq t (VStr type)) eqn:E; [|reflexivity].
    apply strict_eq_VStr in E. contradiction.
Qed.

Lemma filter_type_absent (type : jsstring) (l : list value) :
  ~ In (VStr type) l ->
  filter (fun x => negb (strict_eq x (VStr type))) l = l.
Proof.
  intros H. apply filter_id. intros t Ht. apply negb_true_iff.
  destruct (strict_eq t (VStr type)) eqn:E; [|reflexivity].
  apply strict_eq_VStr in E. subst. contradiction.
Qed.

Lemma toggle_on_array (type : jsstring) (s : form) (l : list value) :
  get (js "userTypes") (values s) = VArr l ->
  handleUserTypeChange type s
  = (setValue (js "userTypes")
       (VArr (if existsb (fun t => strict_eq t (VStr type)) l
              then filter (fun t => negb (strict_eq t (VStr type))) l
              else l ++ [VStr type])) s,
     Ok tt).
Proof. intros H. unfold handleUserTypeChange, or_else. now rewrite H. Qed.

(** What the rules of the page's form let through. *)
Lemma page_rules_pass (s : form) :
  snd (validateForm formValidationRules s) = Ok ([], true) ->
  forall n m p,
    get (js "name") (values s) = VStr n ->
    get (js "email") (values s) = VStr m ->
    get (js "phone") (values s) = VStr p ->
    blank n = false
    /\ email_shape m
    /\ blank p = false /\ loose_phone p.
Proof.
  intros Hv n m p Hn Hm Hp. unfold validateForm in Hv.
  destruct (validate_fields formValidationRules (keys formValidationRules)
              (values s) [] true) as [[ne b]|x] eqn:E; [|discriminate].
  cbn in Hv. injection Hv as -> ->.
  assert (Hproto : ~ In (js "__proto__") (keys formValidationRules))
    by (vm_compute; intuition discriminate).
  pose proof (@validate_fields_get formValidationRules _ _ _ _ _ _ Hproto E)
    as G.
  assert (Hreq : forall t vals e,
             required (VStr t) vals = Ok e -> truthy e = false ->
             blank t = false).
  { intros t vals e He Hf. destruct (blank t) eqn:Eb; [|reflexivity].
    rewrite (proj1 (required_on_string t vals) Eb) in He.
    injection He as <-. discriminate. }
  assert (Gn := proj1 (G (js "name")) ltac:(vm_compute; tauto)).
  assert (Gm := proj1 (G (js "email")) ltac:(vm_compute; tauto)).
  assert (Gp := proj1 (G (js "phone")) ltac:(vm_compute; tauto)).
  destruct Gn as (rn & en & Rn & Fn & Hgn).
  destruct Gm as (rm & em & Rm & Fm & Hgm).
  destruct Gp as (rp & ep & Rp & Fp & Hgp).
  change (rules_of formValidationRules (js "name")) with (Some [required])
    in Rn.
  change (rules_of formValidationRules (js "email"))
    with (Some [required; email]) in Rm.
  change (rules_of formValidationRules (js "phone"))
    with (Some [required; phone]) in Rp.
  injection Rn as <-. injection Rm as <-. injection Rp as <-.
  rewrite Hn in Fn. rewrite Hm in Fm. rewrite Hp in Fp.
  assert (Tn : truthy en = false)
    by (destruct (truthy en) eqn:T;
        [vm_compute in Hgn; subst en; discriminate|reflexivity]).
  assert (Tm : truthy em = false)
    by (destruct (truthy em) eqn:T;
        [vm_compute in Hgm; subst em; discriminate|reflexivity]).
  assert (Tp : truthy ep = false)
    by (destruct (truthy ep) eqn:T;
        [vm_compute in Hgp; subst ep; discriminate|reflexivity]).
  clear Hgn Hgm Hgp G E.
  cbn [first_error Js.bind] in Fn, Fm, Fp.
  (* name *)
  destruct (required (VStr n) (values s)) as [e1|] eqn:R1; [|discriminate].
  cbn [Js.bind] in Fn.
  destruct (truthy e1) eqn:T1;
    [injection Fn as <-; congruence|].
  split; [exact (Hreq _ _ _ R1 T1)|].
  (* email *)
  destruct (required (VStr m) (values s)) as [e2|] eqn:R2; [|discriminate].
  cbn [Js.bind] in Fm.
  destruct (truthy e2) eqn:T2;
    [injection Fm as <-; congruence|].
  destruct (email (VStr m) (values s)) as [e3|] eqn:R3; [|discriminate].
  cbn [Js.bind] in Fm.
  destruct (truthy e3) eqn:T3;
    [injection Fm as <-; congruence|].
  pose proof (Hreq _ _ _ R2 T2) as Bm.
  split.
  { destruct (email_rule_facts m (values s)) as (Hiff & Hmsg).
    assert (E3 : e3 = VNull).
    { rewrite R3 in Hmsg.
      destruct e3; try reflexivity;
        (assert (X : Ok _ = Ok (VStr (js "Email inválido")))
           by (apply Hmsg; discriminate));
        injection X as X; try discriminate X.
      subst. vm_compute in T3. discriminate T3. }
    subst e3. apply Hiff in R3.
    destruct R3 as [->|H]; [discriminate Bm|exact H]. }
  (* phone *)
  destruct (required (VStr p) (values s)) as [e4|] eqn:R4; [|discriminate].
  cbn [Js.bind] in Fp.
  destruct (truthy e4) eqn:T4;
    [injection Fp as <-; congruence|].
  destruct (phone (VStr p) (values s)) as [e5|] eqn:R5; [|discriminate].
  cbn [Js.bind] in Fp.
  destruct (truthy e5) eqn:T5;
    [injection Fp as <-; congruence|].
  pose proof (Hreq _ _ _ R4 T4) as Bp.
  split; [exact Bp|].
  assert (E5 : e5 = VNull).
  { unfold phone in R5. destruct p as [|c p]; [discriminate|].
    cbn [truthy negb] in R5.
    destruct ((10 <=? List.length (remove_all not_digit (c :: p)))%nat
              && test phoneRegex (c :: p));
      injection R5 as <-; [reflexivity|discriminate]. }
  subst e5. apply form_phone_rule_iff in R5.
  destruct R5 as [->|H]; [discriminate|exact H].
Qed.

End PageFacts.

Section PageProperties.

Import UseForm Spec Props UserPage Sample.

(** X26.  Toggling a user type on an array selection returns normally and
    flips the membership of that type, leaving every other element in or
    out as it was; it keeps a selection without duplicates free of them;
    and toggling a type that was not selected twice gives the selection
    back as it was. *)
Theorem X26_toggle_user_type :
  forall (type : jsstring) (s : form) (l : list value),
    get (js "userTypes") (values s) = VArr l ->
    exists l',
      snd (handleUserTypeChange type s) = Ok tt
      /\ get (js "userTypes") (values (fst (handleUserTypeChange type s)))
         = VArr l'
      /\ (In (VStr type) l' <-> ~ In (VStr type) l)
      /\ (forall t, t <> VStr type -> (In t l' <-> In t l))
      /\ (NoDup l -> NoDup l')
      /\ (~ In (VStr type) l ->
          get (js "userTypes")
            (values (fst (handleUserTypeChange type
                            (fst (handleUserTypeChange type s)))))
          = VArr l).
Proof.
  intros type s l Hl.
  rewrite (toggle_on_array type s Hl). cbn [fst snd].
  destruct (existsb (fun t => strict_eq t (VStr type)) l) eqn:E.
  - apply existsb_type in E.
    exists (filter (fun t => negb (strict_eq t (VStr type))) l).
    split; [reflexivity|].
    split; [exact (proj1 (setValue_facts _ _ _))|].
    split.
    { rewrite filter_type_In. split; [intros [_ H]; congruence|tauto]. }
    split.
    { intros t Ht. rewrite filter_type_In. tauto. }
    split; [apply NoDup_filter|].
    intros Hn. contradiction.
  - assert (Hn : ~ In (VStr type) l).
    { intros Hin. apply existsb_type in Hin. congruence. }
    exists (l ++ [VStr type]).
    split; [reflexivity|].
    split; [exact (proj1 (setValue_facts _ _ _))|].
    split.
    { rewrite in_app_iff. simpl. tauto. }
    split.
    { intros t Ht. rewrite in_app_iff. simpl. split; [|tauto].
      intros [H|[H|[]]]; [exact H|congruence]. }
    split.
    { intros Hnd. apply NoDup_snoc. tauto. }
    intros _.
    rewrite (toggle_on_array type _ (proj1 (setValue_facts _ _ _))).
    cbn [fst].
    rewrite (proj2 (existsb_type type (l ++ [VStr type])))
      by (apply in_or_app; right; now left).
    rewrite (proj1 (setValue_facts _ _ _)).
    rewrite filter_app, (@filter_type_absent type l Hn).
    cbn [filter strict_eq].
    rewrite jsstring_eqb_refl. cbn [negb]. now rewrite app_nil_r.
Qed.

Lemma X26_toggle_user_type_witness :
  let s := init (UserPage.initialValues None) in
  get (js "userTypes") (values s) = VArr []
  /\ get (js "userTypes")
       (values (fst (handleUserTypeChange (js "Architect")
                       (fst (handleUserTypeChange (js "Architect") s)))))
     = VArr [].
Proof.
  cbv zeta.
  assert (H : get (js "userTypes")
                (values (init (UserPage.initialValues None))) = VArr [])
    by (vm_compute; reflexivity).
  split; [exact H|].
  destruct (@X26_toggle_user_type (js "Architect") _ [] H)
    as (l' & _ & _ & _ & _ & _ & Hback).
  apply Hback. intros [].
Defined.

(** X27.  What the page's form lets through, the Store can still reject,
    but only for the phone format or for a missing user type: on values
    whose name, email and phone are strings and that pass the form's
    rules, [validateUser] (on the values with the id the page adds)
    returns, records no error for name or email, and finds the record
    valid exactly when the phone has the Store's format and [userTypes]
    has a truthy length. *)
Theorem X27_form_gate_then_store_gate :
  forall (s : form) (id n m p : jsstring),
    get (js "name") (values s) = VStr n ->
    get (js "email") (values s) = VStr m ->
    get (js "phone") (values s) = VStr p ->
    snd (validateForm formValidationRules s) = Ok ([], true) ->
    exists v,
      UserService.validateUser (set (js "id") (VStr id) (values s)) = Ok v
      /\ get (js "name") (UserService.errors v) = VUndef
      /\ get (js "email") (UserService.errors v) = VUndef
      /\ (UserService.isValid v = true <->
          strict_phone p /\ has_types (get (js "userTypes") (values s))).
Proof.
  intros s id n m p Hn Hm Hp Hv.
  destruct (@page_rules_pass s Hv n m p Hn Hm Hp) as (Bn & Sm & Bp & _).
  set (userData := set (js "id") (VStr id) (values s)).
  assert (Gn : get (js "name") userData = VStr n).
  { unfold userData. rewrite get_set_other; [exact Hn|].
    vm_compute. discriminate. }
  assert (Gm : get (js "email") userData = VStr m).
  { unfold userData. rewrite get_set_other; [exact Hm|].
    vm_compute. discriminate. }
  assert (Gp : get (js "phone") userData = VStr p).
  { unfold userData. rewrite get_set_other; [exact Hp|].
    vm_compute. discriminate. }
  assert (Gt : get (js "userTypes") userData
               = get (js "userTypes") (values s)).
  { unfold userData. apply get_set_other. vm_compute. discriminate. }
  assert (Ht : text_fields_typed userData).
  { unfold text_fields_typed. rewrite Gn, Gm, Gp. simpl. tauto. }
  destruct (validateUser_returns Ht) as [v Hvu]. exists v.
  split; [exact Hvu|].
  assert (Hacc : UserService.isValid v = true <->
                 strict_phone p
                 /\ has_types (get (js "userTypes") (values s))).
  { split.
    - intros Hi.
      destruct (@validates_acceptable userData v Hvu Hi)
        as (_ & _ & (p' & Hp' & Hs) & Hty).
      rewrite Gp in Hp'. injection Hp' as <-.
      rewrite Gt in Hty. tauto.
    - intros [Hs Hty].
      assert (A : acceptable userData).
      { split; [exists n; tauto|].
        split; [exists m; tauto|].
        split; [exists p; tauto|]. now rewrite Gt. }
      rewrite (acceptable_validates A) in Hvu. now injection Hvu as <-. }
  split; [|split; [|exact Hacc]].
  - unfold UserService.validateUser in Hvu. rewrite Gn, Gm in Hvu.
    cbn [UserService.optional_trim Js.bind] in Hvu.
    rewrite !truthy_trim, Bn, (email_shape_not_blank Sm) in Hvu.
    unfold UserService.isValidEmail in Hvu. cbn [to_string negb] in Hvu.
    rewrite (proj2 (emailRegex_shape m) Sm) in Hvu. cbn [negb] in Hvu.
    validate_cases Hvu; injection Hvu as <-; vm_compute; reflexivity.
  - unfold UserService.validateUser in Hvu. rewrite Gn, Gm in Hvu.
    cbn [UserService.optional_trim Js.bind] in Hvu.
    rewrite !truthy_trim, Bn, (email_shape_not_blank Sm) in Hvu.
    unfold UserService.isValidEmail in Hvu. cbn [to_string negb] in Hvu.
    rewrite (proj2 (emailRegex_shape m) Sm) in Hvu. cbn [negb] in Hvu.
    validate_cases Hvu; injection Hvu as <-; vm_compute; reflexivity.
Qed.

Lemma X27_form_gate_then_store_gate_witness :
  let s := init (set (js "userTypes") (VArr []) validData) in
  snd (validateForm formValidationRules s) = Ok ([], true)
  /\ exists v,
       UserService.validateUser
         (set (js "id") (VStr anId) (values s)) = Ok v
       /\ get (js "name") (UserService.errors v) = VUndef
       /\ UserService.isValid v = false.
Proof.
  cbv zeta.
  assert (Hv : snd (validateForm formValidationRules
                      (init (set (js "userTypes") (VArr []) validData)))
               = Ok ([], true)) by (vm_compute; reflexivity).
  split; [exact Hv|].
  destruct (@X27_form_gate_then_store_gate
              (init (set (js "userTypes") (VArr []) validData)) anId
              (js "Ana") (js "ana@x.com") (js "+351911222333")
              eq_refl eq_refl eq_refl Hv)
    as (v & Hu & Hn & _ & Hiff).
  exists v. split; [exact Hu|]. split; [exact Hn|].
  destruct (UserService.isValid v) eqn:E; [|reflexivity].
  destruct (proj1 Hiff eq_refl) as [_ Hty]. vm_compute in Hty.
  contradiction.
Defined.

End PageProperties.

Section SearchProperties.

Import Spec Props UsersListPage Sample.

Variable toLowerCase : jsstring -> jsstring.

Lemma includes_iff (sub s : jsstring) :
  includes sub s = true <-> exists a b, s = a ++ sub ++ b.
Proof.
  induction s as [|c s IH]; cbn [includes].
  - rewrite orb_false_r, startsWith_iff. split.
    + intros [r Hr]. now exists [], r.
    + intros (a & b & E). symmetry in E. apply app_eq_nil in E.
      destruct E as [_ E]. apply app_eq_nil in E. destruct E as [-> ->].
      now exists [].
  - rewrite orb_true_iff, startsWith_iff, IH. split.
    + intros [[r Hr]|(a & b & E)].
      * now exists [], r.
      * exists (c :: a), b. now rewrite E.
    + intros (a & b & E). destruct a as [|c' a].
      * left. now exists b.
      * right. injection E as _ E. now exists a, b.
Qed.

Lemma some_type_matches_strings (l : list value) (term : jsstring) :
  Forall (fun t => is_string t = true) l ->
  exists b,
    some_type_matches toLowerCase l term = Ok b
    /\ (b = true <->
        exists t, In (VStr t) l /\ occurs_in toLowerCase term t).
Proof.
  unfold occurs_in. induction l as [|x l IH]; intros H.
  - exists false. split; [reflexivity|].
    split; [discriminate|]. intros (t & [] & _).
  - inversion H as [|? ? Hx Hl]; subst.
    destruct x as [| | | |t| | |]; try discriminate Hx.
    cbn [some_type_matches type_matches Js.bind].
    destruct (includes (toLowerCase term) (toLowerCase t)) eqn:E.
    + exists true. split; [reflexivity|]. split; [|reflexivity].
      intros _. exists t. split; [now left|]. now apply includes_iff.
    + destruct (IH Hl) as (b & Hb & Hiff). exists b.
      split; [exact Hb|]. rewrite Hiff. split.
      * intros (t' & Hin & Ho). exists t'. split; [now right|exact Ho].
      * intros (t' & [Hin|Hin] & Ho).
        -- injection Hin as <-. apply includes_iff in Ho. congruence.
        -- exists t'. now split.
Qed.

Lemma field_matches_string_or_nullish (v : value) (term : jsstring) :
  string_or_nullish v ->
  exists a,
    field_matches toLowerCase v term = Ok a
    /\ (truthy a = true <->
        exists n, v = VStr n /\ occurs_in toLowerCase term n).
Proof.
  unfold occurs_in. destruct v as [| | | |n| | |]; try contradiction;
    intros _; cbn [field_matches].
  - exists VUndef. split; [reflexivity|].
    split; [discriminate|]. intros (n & Hn & _). discriminate.
  - exists VUndef. split; [reflexivity|].
    split; [discriminate|]. intros (n & Hn & _). discriminate.
  - eexists. split; [reflexivity|]. cbn [truthy].
    rewrite includes_iff. split.
    + intros H. now exists n.
    + intros (n' & Hn & H). now injection Hn as <-.
Qed.

(** On a record it can read the predicate of the filter returns, and
    returns [true] exactly when the term occurs in the record. *)
Lemma user_matches_searchable (u : jsobj) (term : jsstring) :
  searchable u ->
  exists b,
    user_matches toLowerCase u term = Ok b
    /\ (b = true <-> mentions toLowerCase term u).
Proof.
  intros (Hn & He & Ht). unfold user_matches, mentions.
  destruct (@field_matches_string_or_nullish _ term Hn) as (a & -> & Ha).
  cbn [Js.bind]. destruct (truthy a) eqn:Ea.
  { exists true. split; [reflexivity|]. split; [|reflexivity].
    intros _. left. now apply Ha. }
  destruct (@field_matches_string_or_nullish _ term He) as (b & -> & Hb).
  cbn [Js.bind]. destruct (truthy b) eqn:Eb.
  { exists true. split; [reflexivity|]. split; [|reflexivity].
    intros _. right. left. now apply Hb. }
  assert (Hna : ~ exists n, get (js "name") u = VStr n
                            /\ occurs_in toLowerCase term n)
    by (intros H; apply Ha in H; discriminate).
  assert (Hnb : ~ exists m, get (js "email") u = VStr m
                            /\ occurs_in toLowerCase term m)
    by (intros H; apply Hb in H; discriminate).
  destruct (get (js "userTypes") u) as [| | | | |l| |] eqn:Eu;
    try contradiction; cbn [types_match Js.bind truthy].
  - exists false. split; [reflexivity|]. split; [discriminate|].
    intros [H|[H|(l & t & Hl & _)]]; [tauto|tauto|discriminate].
  - exists false. split; [reflexivity|]. split; [discriminate|].
    intros [H|[H|(l & t & Hl & _)]]; [tauto|tauto|discriminate].
  - destruct (@some_type_matches_strings l term Ht) as (c & -> & Hc).
    cbn [Js.bind truthy]. exists c. split; [reflexivity|].
    rewrite Hc. split.
    + intros (t & Hin & Ho). right. right. now exists l, t.
    + intros [H|[H|(l' & t & Hl & Hin & Ho)]]; [tauto|tauto|].
      injection Hl as <-. now exists t.
Qed.

(** On records it can read the filter returns the records its predicate
    keeps, in the order of the collection. *)
Lemma filteredUsers_searchable (users : list jsobj) (term : jsstring) :
  Forall searchable users ->
  filteredUsers toLowerCase users term
  = Ok (filter (fun u => match user_matches toLowerCase u term with
                         | Ok true => true
                         | _ => false
                         end) users).
Proof.
  induction users as [|x users IH]; intros H; [reflexivity|].
  inversion H as [|? ? Hx Hus]; subst.
  cbn [filteredUsers filter]. rewrite (IH Hus).
  destruct (@user_matches_searchable x term Hx) as (b & -> & _).
  cbn [Js.bind]. now destruct b.
Qed.

End SearchProperties.

Section SearchClaims.

Import Spec Props UsersListPage Sample.

(** X28.  What the filter effect of the list page computes, on a
    collection whose records it can read (name and email strings when
    present, user types an array of strings when present): the filter
    returns, and the list it stores holds, in the order of the collection,
    exactly the records in which the term occurs, letter case apart, in
    the name, the email or one of the user types.  So with the empty term
    every record with a string name is kept (for a [toLowerCase] that
    maps the empty string to itself), and a record with neither name,
    email nor user types is kept for no term, the empty one included. *)
Theorem X28_search_filter :
  forall (toLowerCase : jsstring -> jsstring) (users : list jsobj)
         (searchTerm : jsstring),
    Forall searchable users ->
    exists (shown : list jsobj) (keep : jsobj -> bool),
      filteredUsers toLowerCase users searchTerm = Ok shown
      /\ shown = filter keep users
      /\ (forall u, In u users ->
                    (keep u = true <-> mentions toLowerCase searchTerm u))
      /\ (forall u, In u shown <->
                    In u users /\ mentions toLowerCase searchTerm u)
      /\ (toLowerCase [] = [] -> searchTerm = [] ->
          forall u, In u users ->
                    (exists n, get (js "name") u = VStr n) -> In u shown)
      /\ (forall u,
            get (js "name") u = VUndef -> get (js "email") u = VUndef ->
            get (js "userTypes") u = VUndef -> ~ In u shown).
Proof.
  intros toLowerCase users searchTerm Hs.
  set (keep := fun u => match user_matches toLowerCase u searchTerm with
                        | Ok true => true
                        | _ => false
                        end).
  assert (Hkeep : forall u, In u users ->
                    (keep u = true <-> mentions toLowerCase searchTerm u)).
  { intros u Hu. rewrite Forall_forall in Hs.
    destruct (@user_matches_searchable toLowerCase u searchTerm (Hs u Hu))
      as (b & Hb & Hiff).
    unfold keep. rewrite Hb, <- Hiff. now destruct b. }
  assert (Hin : forall u, In u (filter keep users) <->
                  In u users /\ mentions toLowerCase searchTerm u).
  { intros u. rewrite filter_In. split.
    - intros [Hu Hk]. split; [exact Hu|now apply Hkeep].
    - intros [Hu Hm]. split; [exact Hu|now apply Hkeep]. }
  exists (filter keep users), keep.
  split; [exact (@filteredUsers_searchable toLowerCase users searchTerm Hs)|].
  split; [reflexivity|]. split; [exact Hkeep|]. split; [exact Hin|].
  split.
  - intros Hlow -> u Hu [n Hn]. apply Hin. split; [exact Hu|].
    left. exists n. split; [exact Hn|].
    exists [], (toLowerCase n). now rewrite Hlow.
  - intros u Hn He Ht Hu. apply Hin in Hu.
    destruct Hu as [_ [(n & H & _)|[(m & H & _)|(l & t & H & _)]]];
      congruence.
Qed.

Lemma X28_search_filter_witness :
  let same := fun s : jsstring => s in
  let users := UserContext.users UserContext.initialState in
  Forall searchable users
  /\ filteredUsers same users [] = Ok users
  /\ exists one,
       filteredUsers same users (js "Silva") = Ok [one]
       /\ get (js "id") one = VStr (js "2").
Proof.
  cbv zeta.
  assert (Hs : Forall searchable (UserContext.users UserContext.initialState)).
  { repeat constructor. }
  split; [exact Hs|]. split.
  - destruct (@X28_search_filter (fun s => s)
                (UserContext.users UserContext.initialState) [] Hs)
      as (shown & keep & Hf & _).
    rewrite Hf. vm_compute in Hf. now injection Hf as <-.
  - destruct (@X28_search_filter (fun s => s)
                (UserContext.users UserContext.initialState) (js "Silva") Hs)
      as (shown & keep & Hf & _).
    vm_compute in Hf. injection Hf as <-.
    eexists. split; reflexivity.
Defined.

End SearchClaims.

Section SubmitEdge.

Import UseForm Spec Props UserPage Sample.

(** X29.  When a rule throws during full-form validation, the submit
    handler's promise is rejected with what was thrown: the callback is
    not invoked, the submitting flag is not set, nothing is logged to the
    console, and the recorded errors stay as they were, while [touched]
    has already been replaced by the fields with rules. *)
Theorem X29_submit_with_throwing_rule :
  forall (rules : list (jsstring * list rule)) (onSubmit : callback)
         (s : form) (e : exn),
    snd (validateForm rules s) = Throw e ->
    let r := handleSubmit rules onSubmit s in
    outcome r = Rejected e
    /\ log r = [PreventDefault; SetTouched (allTouched rules)]
    /\ errors (final r) = errors s
    /\ values (final r) = values s
    /\ isSubmitting (final r) = isSubmitting s
    /\ touched (final r) = allTouched rules.
Proof.
  intros rules onSubmit s e Hv r. subst r. unfold handleSubmit.
  set (s1 := setTouched (fun _ => allTouched rules) s).
  rewrite <- (validateForm_reads_values rules s1 s eq_refl) in Hv.
  unfold validateForm in *.
  destruct (validate_fields rules (keys rules) (values s1) [] true)
    as [[ne b]|x]; cbn [snd] in Hv; [discriminate|].
  injection Hv as ->. cbn. repeat split; reflexivity.
Qed.

Lemma X29_submit_with_throwing_rule_witness :
  let s := init (set (js "phone") (VNum 912345678) validData) in
  snd (validateForm formValidationRules s) = Throw TypeError
  /\ outcome (handleSubmit formValidationRules (fun _ f => (f, Fulfilled)) s)
     = Rejected TypeError.
Proof.
  cbv zeta.
  assert (H : snd (validateForm formValidationRules
                     (init (set (js "phone") (VNum 912345678) validData)))
              = Throw TypeError) by (vm_compute; reflexivity).
  split; [exact H|].
  exact (proj1 (@X29_submit_with_throwing_rule formValidationRules
                  (fun _ f => (f, Fulfilled)) _ TypeError H)).
Defined.

End SubmitEdge.
